(** * Verification of the data-normalisation services (backend/services.py)

    The development has five parts.

    - [Py]: the parts of the Python runtime that services.py calls into
      (text methods, [float], [datetime], [str], dictionaries, [list.sort]),
      as executable functions.  Text is a sequence of code points below
      256, carried by Rocq's [string].  [datetime.fromisoformat] follows the
      grammar of the library's documentation up to Python 3.10,
      [datetime.strptime] the five directives that services.py uses, in the
      C locale.
    - [Services]: services.py itself, class by class, in an exception
      monad.  The disk is a finite map from paths to files; a file is given
      by what [csv.DictReader] and [json.load] make of it.
    - the vocabulary of the statements: what the row loops do with one row,
      the normalised form of a change-point entry.
    - [Examples]: the sources of the specification's examples.
    - the lemmas and theorems, service by service. *)

From Stdlib Require Import ZArith NArith List Lia Bool.
From Stdlib Require Import Strings.Ascii Strings.String DecimalString.
From stdpp Require Import base option gmap strings list.

Open Scope string_scope.
Open Scope list_scope.
Open Scope stdpp_scope.

(* ===================================================================== *)
(** * Exceptions *)
(* ===================================================================== *)

(** The two exception classes that occur in services.py: the built-in
    [ValueError] (raised by [float], [datetime.fromisoformat] and
    [datetime.strptime]) and the module's own [ValidationError], which
    carries a message and a status code. *)
Inductive exception : Type :=
| ValueError
| ValidationError (message : string) (status_code : Z).

Inductive result (A : Type) : Type :=
| Return (a : A)
| Raise (e : exception).
Arguments Return {A} a.
Arguments Raise {A} e.

#[export] Instance result_ret : MRet result := @Return.
#[export] Instance result_bind : MBind result := fun A B f m =>
  match m with
  | Return a => f a
  | Raise e => Raise e
  end.

(** [try: body except ValueError: handler] *)
Definition try_except_ValueError {A} (body handler : result A) : result A :=
  match body with
  | Raise ValueError => handler
  | r => r
  end.

Definition returns {A} (m : result A) : Prop := ∃ a, m = Return a.

(* ===================================================================== *)
(** * The Python runtime used by the services *)
(* ===================================================================== *)

Module Py.

(** ** Text *)

Definition ord (c : ascii) : N := N_of_ascii c.

(** [str.isspace] on one character, for code points below 256. *)
Definition isspace (c : ascii) : bool :=
  let n := ord c in
  ((9 <=? n) && (n <=? 13) || (28 <=? n) && (n <=? 32)
   || (n =? 133) || (n =? 160))%N.

Fixpoint lstrip_with (sp : ascii → bool) (s : string) : string :=
  match s with
  | EmptyString => EmptyString
  | String c s' => if sp c then lstrip_with sp s' else s
  end.

Fixpoint rstrip_with (sp : ascii → bool) (s : string) : string :=
  match s with
  | EmptyString => EmptyString
  | String c s' =>
      match rstrip_with sp s' with
      | EmptyString => if sp c then EmptyString else String c EmptyString
      | r => String c r
      end
  end.

(** [s.strip()] *)
Definition strip (s : string) : string := rstrip_with isspace (lstrip_with isspace s).

(** [s.replace(old, new)] for a one-character [old], the only use made of
    it in services.py. *)
Fixpoint replace (old : ascii) (new : string) (s : string) : string :=
  match s with
  | EmptyString => EmptyString
  | String c s' =>
      if Ascii.eqb c old then new +:+ replace old new s'
      else String c (replace old new s')
  end.

(** Truth value of a text: [not text] holds of the empty text only. *)
Definition nonempty (s : string) : bool :=
  match s with EmptyString => false | String _ _ => true end.

(** Truth value of a list: [not l] holds of the empty list only. *)
Definition nonempty_list {A} (l : list A) : bool :=
  match l with [] => false | _ :: _ => true end.

(** [x or ""] where [x] is a text or [None]. *)
Definition or_empty (x : option string) : string := default "" x.

(** [x or None] where [x] is a text or [None]. *)
Definition or_None (x : option string) : option string :=
  match x with
  | Some s => if nonempty s then Some s else None
  | None => None
  end.

Definition is_digit (c : ascii) : bool := ((48 <=? ord c) && (ord c <=? 57))%N.
Definition digit_val (c : ascii) : N := (ord c - 48)%N.

Definition lower (c : ascii) : ascii :=
  if ((65 <=? ord c) && (ord c <=? 90))%N then ascii_of_N (ord c + 32) else c.

Fixpoint lower_str (s : string) : string :=
  match s with
  | EmptyString => EmptyString
  | String c s' => String (lower c) (lower_str s')
  end.

(** [str(n)] for integers, and the zero-padded ["%0wd"] rendering. *)
Definition str_nat (n : nat) : string := NilZero.string_of_uint (Nat.to_uint n).
Definition str_Z (z : Z) : string := NilZero.string_of_int (Z.to_int z).

Fixpoint zeros (n : nat) : string :=
  match n with O => "" | S n' => String "0" (zeros n') end.

Definition zfill (w : nat) (z : Z) : string :=
  let s := str_Z z in zeros (w - String.length s) +:+ s.

(** ** Floating-point numbers: [float(text)] *)

(** A Python float as far as the services are concerned: not-a-number, an
    infinity, or a finite double.  A finite double is denoted by the decimal
    literal it was read from, [(-1)^negative * digits * 10^exp10]; the
    services never compute with prices, they only pass them on. *)
Inductive float : Type :=
| nan
| inf (negative : bool)
| finite (negative : bool) (digits : N) (exp10 : Z).

Definition isfinite (x : float) : bool :=
  match x with finite _ _ _ => true | _ => false end.

(** A decimal [digits * 10^exp10] rounds to infinity exactly when it reaches
    the midpoint between the largest double, [2^1024 - 2^971], and [2^1024]. *)
Definition overflow_threshold : N := (2 ^ 1024 - 2 ^ 970)%N.

Definition overflows (digits : N) (exp10 : Z) : bool :=
  match exp10 with
  | Z.neg p => (overflow_threshold * 10 ^ Npos p <=? digits)%N
  | _ => (overflow_threshold <=? digits * 10 ^ Z.to_N exp10)%N
  end.

(** [digit (["_"] digit)*], after its first digit: accumulated value, number
    of digits read, and the text that is left. *)
Fixpoint digitpart_rest (acc : N) (n : nat) (s : string) : N * nat * string :=
  match s with
  | String c s' =>
      if is_digit c then digitpart_rest (10 * acc + digit_val c)%N (S n) s'
      else if Ascii.eqb c "_" then
        match s' with
        | String d s'' =>
            if is_digit d then digitpart_rest (10 * acc + digit_val d)%N (S n) s''
            else (acc, n, s)
        | EmptyString => (acc, n, s)
        end
      else (acc, n, s)
  | EmptyString => (acc, n, s)
  end.

Definition digitpart_from (acc : N) (s : string) : option (N * nat * string) :=
  match s with
  | String c s' =>
      if is_digit c then Some (digitpart_rest (10 * acc + digit_val c)%N 1 s') else None
  | EmptyString => None
  end.

(** [sign ::= "+" | "-"], optional. *)
Definition sign_opt (s : string) : bool * string :=
  match s with
  | String "-" s' => (true, s')
  | String "+" s' => (false, s')
  | _ => (false, s)
  end.

(** [number ::= [digitpart] "." digitpart | digitpart ["."]]: the digits read
    as one integer, the number of them after the point, and the rest. *)
Definition number (s : string) : option (N * nat * string) :=
  match digitpart_from 0 s with
  | Some (i, _, String "." s') =>
      match digitpart_from i s' with
      | Some (m, nfrac, rest) => Some (m, nfrac, rest)
      | None => Some (i, O, s')
      end
  | Some (i, _, rest) => Some (i, O, rest)
  | None =>
      match s with
      | String "." s' =>
          match digitpart_from 0 s' with
          | Some (m, nfrac, rest) => Some (m, nfrac, rest)
          | None => None
          end
      | _ => None
      end
  end.

(** [exponent ::= ("e" | "E") [sign] digitpart], optional; when no digit
    follows, nothing is consumed. *)
Definition exponent_opt (s : string) : Z * string :=
  match s with
  | String c s' =>
      if Ascii.eqb (lower c) "e" then
        let '(neg, s'') := sign_opt s' in
        match digitpart_from 0 s'' with
        | Some (e, _, rest) => ((if neg then - Z.of_N e else Z.of_N e)%Z, rest)
        | None => (0%Z, s)
        end
      else (0%Z, s)
  | EmptyString => (0%Z, s)
  end.

(** Whitespace skipped by [float] itself around its argument. *)
Definition isspace_float (c : ascii) : bool :=
  let n := ord c in
  ((9 <=? n) && (n <=? 13) || (n =? 32) || (n =? 133) || (n =? 160))%N.

(** [float(text)]: the value, or [ValueError]. *)
Definition float_of_str (text : string) : result float :=
  let s := rstrip_with isspace_float (lstrip_with isspace_float text) in
  let '(neg, body) := sign_opt s in
  let word := lower_str body in
  if String.eqb word "inf" || String.eqb word "infinity" then Return (inf neg)
  else if String.eqb word "nan" then Return nan
  else
    match number body with
    | Some (m, nfrac, rest) =>
        let '(e, rest') := exponent_opt rest in
        if nonempty rest' then Raise ValueError
        else
          let e10 := (e - Z.of_nat nfrac)%Z in
          if overflows m e10 then Return (inf neg) else Return (finite neg m e10)
    | None => Raise ValueError
    end.

(** ** Calendar dates: [datetime.date] *)

Record date : Type := mk_date { year : Z; month : Z; day : Z }.

Definition is_leap (y : Z) : bool :=
  ((y mod 4 =? 0) && (negb (y mod 100 =? 0) || (y mod 400 =? 0)))%Z.

Definition days_in_month (y m : Z) : Z :=
  if (m =? 2)%Z then (if is_leap y then 29 else 28)%Z
  else if ((m =? 4) || (m =? 6) || (m =? 9) || (m =? 11))%Z then 30%Z
  else 31%Z.

(** [date(y, m, d)]: [ValueError] outside the calendar (years 1 to 9999). *)
Definition new_date (y m d : Z) : result date :=
  if ((1 <=? y) && (y <=? 9999) && (1 <=? m) && (m <=? 12)
      && (1 <=? d) && (d <=? days_in_month y m))%Z
  then Return (mk_date y m d)
  else Raise ValueError.

(** [a < b] on dates: lexicographic on (year, month, day). *)
Definition date_lt (a b : date) : bool :=
  ((year a <? year b)
   || (year a =? year b) && ((month a <? month b)
                             || (month a =? month b) && (day a <? day b)))%Z.

(** [d.isoformat()], that is ["%04d-%02d-%02d"]. *)
Definition isoformat (d : date) : string :=
  zfill 4 (year d) +:+ "-" +:+ zfill 2 (month d) +:+ "-" +:+ zfill 2 (day d).

(** [datetime.datetime]: a date, a time of day, and an optional UTC offset
    (seconds, microseconds). *)
Record datetime : Type := mk_datetime {
  dt_date : date;
  hour : Z; minute : Z; second : Z; microsecond : Z;
  utcoffset : option (Z * Z)
}.

(** [n] leading decimal digits, as required by the fixed-width fields of
    the ISO format: their value and the rest of the text. *)
Fixpoint parse_digits (n : nat) (acc : Z) (s : string) : option (Z * string) :=
  match n with
  | O => Some (acc, s)
  | S n' =>
      match s with
      | String c s' =>
          if is_digit c then parse_digits n' (10 * acc + Z.of_N (digit_val c))%Z s'
          else None
      | EmptyString => None
      end
  end.

Definition expect (c : ascii) (s : string) : option string :=
  match s with
  | String c' s' => if Ascii.eqb c c' then Some s' else None
  | EmptyString => None
  end.

(** [HH[:MM[:SS[.fff[fff]]]]], the whole of [s]. *)
Definition parse_hh_mm_ss_ff (s : string) : option (Z * Z * Z * Z) :=
  '(hh, s1) ← parse_digits 2 0 s;
  if negb (nonempty s1) then Some (hh, 0, 0, 0)%Z
  else
    s1 ← expect ":" s1;
    '(mm, s2) ← parse_digits 2 0 s1;
    if negb (nonempty s2) then Some (hh, mm, 0, 0)%Z
    else
      s2 ← expect ":" s2;
      '(ss, s3) ← parse_digits 2 0 s2;
      if negb (nonempty s3) then Some (hh, mm, ss, 0)%Z
      else
        s3 ← expect "." s3;
        match String.length s3 with
        | 3%nat => '(ff, _) ← parse_digits 3 0 s3; Some (hh, mm, ss, ff * 1000)%Z
        | 6%nat => '(ff, _) ← parse_digits 6 0 s3; Some (hh, mm, ss, ff)%Z
        | _ => None
        end.

(** Split a time text at its first ["+"] or ["-"]: the part before, and
    the sign with the part after when there is one. *)
Fixpoint split_tz (s : string) : string * option (bool * string) :=
  match s with
  | EmptyString => (EmptyString, None)
  | String c s' =>
      if Ascii.eqb c "+" then (EmptyString, Some (false, s'))
      else if Ascii.eqb c "-" then (EmptyString, Some (true, s'))
      else let '(t, z) := split_tz s' in (String c t, z)
  end.

(** The time part [HH[:MM[:SS[.fff[fff]]]][+HH:MM[:SS[.ffffff]]]]. *)
Definition parse_isoformat_time (s : string)
  : option (Z * Z * Z * Z * option (Z * Z)) :=
  let '(t, z) := split_tz s in
  '(hh, mm, ss, ff) ← parse_hh_mm_ss_ff t;
  match z with
  | None => Some (hh, mm, ss, ff, None)
  | Some (negative, tz) =>
      let n := String.length tz in
      if negb ((n =? 5)%nat || (n =? 8)%nat || (n =? 15)%nat) then None
      else
        '(zh, zm, zs, zf) ← parse_hh_mm_ss_ff tz;
        let secs := (zh * 3600 + zm * 60 + zs)%Z in
        (* timezone(offset): strictly between -24h and +24h *)
        if (secs <? 86400)%Z
        then Some (hh, mm, ss, ff,
                   Some (if negative then (- secs, - zf)%Z else (secs, zf)))
        else None
  end.

(** [datetime.fromisoformat(text)], for the grammar
    [YYYY-MM-DD[*HH[:MM[:SS[.fff[fff]]]][+HH:MM[:SS[.ffffff]]]]] where [*]
    is any one character; [ValueError] otherwise. *)
Definition fromisoformat (text : string) : result datetime :=
  let parsed :=
    '(y, s1) ← parse_digits 4 0 text;
    s1 ← expect "-" s1;
    '(m, s2) ← parse_digits 2 0 s1;
    s2 ← expect "-" s2;
    '(d, s3) ← parse_digits 2 0 s2;
    match s3 with
    | EmptyString => Some (y, m, d, (0, 0, 0, 0, None))%Z
    | String _ tstr => t ← parse_isoformat_time tstr; Some (y, m, d, t)
    end in
  match parsed with
  | Some (y, m, d, (hh, mm, ss, ff, tz)) =>
      dd ← new_date y m d;
      if ((hh <? 24) && (mm <? 60) && (ss <? 60))%Z
      then Return (mk_datetime dd hh mm ss ff tz)
      else Raise ValueError
  | None => Raise ValueError
  end.

(** ** [datetime.strptime(text, format)] *)

(** [strptime] turns the format into a regular expression with one named
    group per directive, matches it case-insensitively at the start of the
    text, and rejects the text when the match does not reach its end.  The
    expressions of the directives used by services.py are alternatives of
    fixed sequences of character classes, tried in order with backtracking. *)
Definition charclass : Type := ascii → bool.

Definition one (c : ascii) : charclass := fun x => Ascii.eqb (lower x) (lower c).
Definition range (a b : ascii) : charclass :=
  fun x => ((ord a <=? ord x) && (ord x <=? ord b))%N.

Definition word (s : string) : list charclass := map one (list_ascii_of_string s).

Definition month_abbr : list string :=
  ["jan"; "feb"; "mar"; "apr"; "may"; "jun";
   "jul"; "aug"; "sep"; "oct"; "nov"; "dec"].

Definition directive_regex (d : ascii) : option (list (list charclass)) :=
  match d with
  | "Y"%char => Some [[is_digit; is_digit; is_digit; is_digit]]
  | "y"%char => Some [[is_digit; is_digit]]
  | "m"%char => Some [[one "1"; range "0" "2"]; [one "0"; range "1" "9"]; [range "1" "9"]]
  | "d"%char => Some [[one "3"; range "0" "1"]; [range "1" "2"; is_digit];
                      [one "0"; range "1" "9"]; [range "1" "9"];
                      [one " "; range "1" "9"]]
  | "b"%char => Some (map word month_abbr)
  | _ => None
  end.

Inductive item : Type :=
| Literal (c : ascii)
| Group (name : ascii) (alternatives : list (list charclass)).

(** The compiled format; [None] stands for the [ValueError] of a stray ["%"]
    or of a directive outside the five above. *)
Fixpoint compile (format : string) : option (list item) :=
  match format with
  | EmptyString => Some []
  | String "%" EmptyString => None
  | String "%" (String d format') =>
      alts ← directive_regex d;
      items ← compile format';
      Some (Group d alts :: items)
  | String c format' => items ← compile format'; Some (Literal c :: items)
  end.

Fixpoint match_seq (cs : list charclass) (s : string) : option (string * string) :=
  match cs with
  | [] => Some (EmptyString, s)
  | p :: cs' =>
      match s with
      | String c s' =>
          if p c then '(m, r) ← match_seq cs' s'; Some (String c m, r) else None
      | EmptyString => None
      end
  end.

(** All matches of the compiled format at the start of [s], in the order a
    backtracking matcher finds them: the captured groups and the text left. *)
Fixpoint match_items (items : list item) (s : string)
  : list (list (ascii * string) * string) :=
  match items with
  | [] => [([], s)]
  | Literal c :: items' =>
      match s with
      | String c' s' => if one c c' then match_items items' s' else []
      | EmptyString => []
      end
  | Group d alts :: items' =>
      flat_map (fun alt =>
                  match match_seq alt s with
                  | Some (m, r) =>
                      map (fun gr => ((d, m) :: fst gr, snd gr)) (match_items items' r)
                  | None => []
                  end) alts
  end.

(** [int(text)] on a captured group: decimal digits, possibly after a blank. *)
Fixpoint int_digits (acc : Z) (s : string) : Z :=
  match s with
  | EmptyString => acc
  | String c s' =>
      int_digits (if is_digit c then 10 * acc + Z.of_N (digit_val c) else acc)%Z s'
  end.

Fixpoint index_of (x : string) (l : list string) (i : Z) : Z :=
  match l with
  | [] => i
  | y :: l' => if String.eqb x y then i else index_of x l' (i + 1)%Z
  end.

Definition convert_group (ymd : Z * Z * Z) (g : ascii * string) : Z * Z * Z :=
  let '(y, m, d) := ymd in
  match fst g with
  | "Y"%char => (int_digits 0 (snd g), m, d)
  | "y"%char =>
      let n := int_digits 0 (snd g) in
      ((if n <=? 68 then 2000 + n else 1900 + n)%Z, m, d)
  | "m"%char => (y, int_digits 0 (snd g), d)
  | "b"%char => (y, index_of (lower_str (snd g)) month_abbr 1, d)
  | "d"%char => (y, m, int_digits 0 (snd g))
  | _ => ymd
  end.

Definition strptime (text format : string) : result datetime :=
  match compile format with
  | None => Raise ValueError
  | Some items =>
      match match_items items text with
      | (groups, EmptyString) :: _ =>
          let '(y, m, d) := fold_left convert_group groups (1900, 1, 1)%Z in
          dd ← new_date y m d;
          Return (mk_datetime dd 0 0 0 0 None)
      | _ => Raise ValueError
      end
  end.

(** ** Values read by [json.load], dictionaries, [repr] and [str] *)

(** A dictionary keeps its keys in insertion order: a list of bindings, of
    which the first one for a key is the binding of that key. *)
#[warnings="-register-all"]
Inductive value : Type :=
| PyNone
| PyBool (b : bool)
| PyInt (n : Z)
| PyFloat (repr_text : string)     (* a float, given by the text [repr] prints *)
| PyStr (s : string)
| PyList (items : list value)
| PyDict (members : list (string * value)).

Abbreviation dict := (list (string * value)).

(** [d[key]] where the key is present, [None] of Rocq where it is not. *)
Fixpoint getitem (key : string) (d : dict) : option value :=
  match d with
  | [] => None
  | (k, v) :: d' => if String.eqb k key then Some v else getitem key d'
  end.

(** [key in d] *)
Definition contains (key : string) (d : dict) : bool :=
  match getitem key d with Some _ => true | None => false end.

(** [d.get(key)]: Python's [None] for a missing key. *)
Definition get (key : string) (d : dict) : value := default PyNone (getitem key d).

(** [d[key] = v]: rebinds the key where it stands, or adds it at the end. *)
Fixpoint setitem (key : string) (v : value) (d : dict) : dict :=
  match d with
  | [] => [(key, v)]
  | (k, w) :: d' =>
      if String.eqb k key then (k, v) :: d' else (k, w) :: setitem key v d'
  end.

Definition keys (d : dict) : list string := map fst d.

Definition hex_digit (n : N) : ascii :=
  if (n <? 10)%N then ascii_of_N (48 + n) else ascii_of_N (87 + n).

Fixpoint has_char (c : ascii) (s : string) : bool :=
  match s with
  | EmptyString => false
  | String c' s' => Ascii.eqb c c' || has_char c s'
  end.

Definition isprintable (c : ascii) : bool :=
  let n := ord c in
  ((32 <=? n) && (n <? 127) || (161 <=? n) && negb (n =? 173))%N.

Definition backslash : ascii := ascii_of_N 92.
Definition double_quote : ascii := ascii_of_N 34.
Definition single_quote : ascii := ascii_of_N 39.

Definition two (a b : ascii) : string := String a (String b EmptyString).

Fixpoint escape (quote : ascii) (s : string) : string :=
  match s with
  | EmptyString => EmptyString
  | String c s' =>
      (if Ascii.eqb c quote || Ascii.eqb c backslash then two backslash c
       else if (ord c =? 9)%N then two backslash "t"
       else if (ord c =? 10)%N then two backslash "n"
       else if (ord c =? 13)%N then two backslash "r"
       else if isprintable c then String c EmptyString
       else two backslash "x"
            +:+ two (hex_digit (ord c / 16)) (hex_digit (ord c mod 16)))
      +:+ escape quote s'
  end.

(** [repr(s)] for a text: single quotes, unless the text has one and has
    no double quote. *)
Definition repr_str (s : string) : string :=
  let quote : ascii :=
    if has_char single_quote s && negb (has_char double_quote s)
    then double_quote else single_quote in
  String quote (escape quote s) +:+ String quote EmptyString.

Fixpoint repr (v : value) : string :=
  match v with
  | PyNone => "None"
  | PyBool b => if b then "True" else "False"
  | PyInt n => str_Z n
  | PyFloat r => r
  | PyStr s => repr_str s
  | PyList items => "[" +:+ String.concat ", " (map repr items) +:+ "]"
  | PyDict members =>
      "{" +:+ String.concat ", "
                (map (fun kv => repr_str (fst kv) +:+ ": " +:+ repr (snd kv)) members)
      +:+ "}"
  end.

(** [str(v)] *)
Definition str (v : value) : string :=
  match v with
  | PyStr s => s
  | _ => repr v
  end.

(** ** [list.sort(key=...)] with a text key *)

(** The sort is stable, and a stable sort has one result; insertion from the
    right, each element going before the first one whose key is not smaller,
    computes it. *)
Fixpoint insert_by {A} (key : A → string) (x : A) (l : list A) : list A :=
  match l with
  | [] => [x]
  | y :: l' =>
      if String.leb (key x) (key y) then x :: l else y :: insert_by key x l'
  end.

Definition sort_by {A} (key : A → string) (l : list A) : list A :=
  foldr (insert_by key) [] l.

End Py.

(* ===================================================================== *)
(** * services.py *)
(* ===================================================================== *)

Module Services.
Import Py.

(** ** The files *)

Abbreviation Path := string.

Record DataPaths : Type := {
  prices : Path;
  alt_prices : Path;
  events : Path;
  change_points : Path
}.

(** One row of a table as [csv.DictReader] hands it over: a value for every
    column of the header, [None] where the line had too few fields. *)
Abbreviation Row := (gmap string (option string)).

(** A file on disk, seen through the two readers the services use: what
    [csv.DictReader] makes of it and what [json.load] makes of it, each
    either the text of the [OSError], [csv.Error] or [JSONDecodeError] that
    reading raises, or the content read. *)
Record File : Type := {
  as_csv : string + list Row;
  as_json : string + value
}.

Abbreviation Disk := (gmap string File).

(** [path.exists()] *)
Definition exists_ (disk : Disk) (path : Path) : bool :=
  match disk !! path with Some _ => true | None => false end.

(** [row.get(key)] and [key in row] *)
Definition row_get (row : Row) (key : string) : option string := mjoin (row !! key).
Definition row_has (row : Row) (key : string) : bool :=
  match row !! key with Some _ => true | None => false end.

(** ** class DateParser *)

Module DateParser.

Definition formats : list string :=
  ["%Y/%m/%d"; "%m/%d/%Y"; "%d/%m/%Y"; "%d-%b-%y"; "%d-%b-%Y"].

(** The [for fmt in (...)] loop of [parse], from the format it stands at. *)
Fixpoint try_formats (text : string) (fmts : list string) : result (option date) :=
  match fmts with
  | [] => Return None
  | fmt :: rest =>
      try_except_ValueError
        (dt ← strptime text fmt; Return (Some (dt_date dt)))
        (try_formats text rest)
  end.

Definition parse (value : option string) : result (option date) :=
  match value with
  | None => Return None
  | Some v =>
      let text := strip v in
      if negb (nonempty text) then Return None
      else
        try_except_ValueError
          (dt ← fromisoformat (replace "Z" "+00:00" text); Return (Some (dt_date dt)))
          (try_formats text formats)
  end.

End DateParser.

(** ** class CsvTable *)

Module CsvTable.

Definition read_rows (disk : Disk) (path : Path) : result (list Row) :=
  match disk !! path with
  | Some f =>
      match as_csv f with
      | inr rows => Return rows
      | inl exc => Raise (ValidationError ("Failed to read CSV: " +:+ exc) 400)
      end
  | None =>
      Raise (ValidationError
               ("Failed to read CSV: [Errno 2] No such file or directory: "
                +:+ repr_str path) 400)
  end.

End CsvTable.

(** ** class PriceService *)

Module PriceService.

(** One entry of the payload, [{"date": ..., "price": ...}]. *)
Record item : Type := { date : string; price : float }.

Definition _select_prices_path (paths : DataPaths) (disk : Disk) : Path :=
  if exists_ disk (prices paths) then prices paths else alt_prices paths.

Definition _parse_query_date (name : string) (raw : option string)
  : result (option Py.date) :=
  match raw with
  | None => Return None
  | Some raw =>
      let text := strip raw in
      if negb (nonempty text) then Return None
      else
        parsed ← DateParser.parse (Some text);
        match parsed with
        | None =>
            Raise (ValidationError
                     ("Invalid '" +:+ name +:+ "' date '" +:+ text
                      +:+ "'. Use YYYY-MM-DD (recommended).") 400)
        | Some d => Return (Some d)
        end
  end.

Definition parse_query_dates (start_raw end_raw : option string)
  : result (option Py.date * option Py.date) :=
  start ← _parse_query_date "start" start_raw;
  end_ ← _parse_query_date "end" end_raw;
  match start, end_ with
  | Some s, Some e =>
      if date_lt e s
      then Raise (ValidationError "Invalid date range: start must be <= end." 400)
      else Return (start, end_)
  | _, _ => Return (start, end_)
  end.

(** The state of the row loop: [payload], [invalid_date], [invalid_price]. *)
Abbreviation loop_state := (list item * nat * nat)%type.

(** [start and row_date < start], [end and row_date > end] *)
Definition before (start : option Py.date) (row_date : Py.date) : bool :=
  match start with Some s => date_lt row_date s | None => false end.
Definition after (end_ : option Py.date) (row_date : Py.date) : bool :=
  match end_ with Some e => date_lt e row_date | None => false end.

(** [for row in rows: ...] *)
Fixpoint row_loop (start end_ : option Py.date) (rows : list Row) (st : loop_state)
  : result loop_state :=
  match rows with
  | [] => Return st
  | row :: rows' =>
      let '(payload, invalid_date, invalid_price) := st in
      row_date ← DateParser.parse (row_get row "Date");
      match row_date with
      | None => row_loop start end_ rows' (payload, S invalid_date, invalid_price)
      | Some row_date =>
          let price_text := strip (replace "," "" (or_empty (row_get row "Price"))) in
          match float_of_str price_text with
          | Raise ValueError =>
              row_loop start end_ rows' (payload, invalid_date, S invalid_price)
          | Raise e => Raise e
          | Return price =>
              if before start row_date then row_loop start end_ rows' st
              else if after end_ row_date then row_loop start end_ rows' st
              else
                row_loop start end_ rows'
                  (payload ++ [{| date := isoformat row_date; price := price |}],
                   invalid_date, invalid_price)
          end
      end
  end.

Definition no_valid_rows (invalid_date invalid_price : nat) : exception :=
  ValidationError
    ("No valid price rows found after parsing. "
     +:+ "Invalid dates: " +:+ str_nat invalid_date
     +:+ ", invalid prices: " +:+ str_nat invalid_price +:+ ".") 400.

Definition get_prices (paths : DataPaths) (disk : Disk)
    (start_raw end_raw : option string) : result (list item) :=
  let prices_path := _select_prices_path paths disk in
  if negb (exists_ disk prices_path)
  then Raise (ValidationError "brent_prices.csv or BrentOilPrices.csv not found" 404)
  else
    rows ← CsvTable.read_rows disk prices_path;
    match rows with
    | [] => Return []
    | row0 :: _ =>
        if negb (row_has row0 "Date") || negb (row_has row0 "Price")
        then Raise (ValidationError "Expected columns: Date, Price" 400)
        else
          '(start, end_) ← parse_query_dates start_raw end_raw;
          '(payload, invalid_date, invalid_price) ← row_loop start end_ rows ([], O, O);
          let payload := sort_by date payload in
          if negb (nonempty_list payload)
             && (negb (invalid_date =? 0)%nat || negb (invalid_price =? 0)%nat)
          then Raise (no_valid_rows invalid_date invalid_price)
          else Return payload
    end.

End PriceService.

(** ** class EventService *)

Module EventService.

(** One entry of the payload, [{"date": ..., "event": ..., "category": ...}]. *)
Record item : Type := { date : string; event : string; category : option string }.

Abbreviation loop_state := (list item * nat * nat)%type.

(** [for row in rows: ...] under the [has_category] computed before it. *)
Fixpoint row_loop (has_category : bool) (rows : list Row) (st : loop_state)
  : result loop_state :=
  match rows with
  | [] => Return st
  | row :: rows' =>
      let '(payload, invalid_date, invalid_event) := st in
      row_date ← DateParser.parse (row_get row "date");
      match row_date with
      | None => row_loop has_category rows' (payload, S invalid_date, invalid_event)
      | Some row_date =>
          let event := strip (or_empty (row_get row "event")) in
          if negb (nonempty event)
          then row_loop has_category rows' (payload, invalid_date, S invalid_event)
          else
            row_loop has_category rows'
              (payload ++ [{| date := isoformat row_date;
                              event := event;
                              category := if has_category
                                          then or_None (row_get row "category")
                                          else None |}],
               invalid_date, invalid_event)
      end
  end.

Definition no_valid_rows (invalid_date invalid_event : nat) : exception :=
  ValidationError
    ("No valid event rows found after parsing. "
     +:+ "Invalid dates: " +:+ str_nat invalid_date
     +:+ ", invalid events: " +:+ str_nat invalid_event +:+ ".") 400.

Definition get_events (paths : DataPaths) (disk : Disk) : result (list item) :=
  if negb (exists_ disk (events paths))
  then Raise (ValidationError "events.csv not found" 404)
  else
    rows ← CsvTable.read_rows disk (events paths);
    match rows with
    | [] => Return []
    | row0 :: _ =>
        if negb (row_has row0 "date") || negb (row_has row0 "event")
        then Raise (ValidationError "Expected columns: date, event" 400)
        else
          let has_category := row_has row0 "category" in
          '(payload, invalid_date, invalid_event) ← row_loop has_category rows ([], O, O);
          let payload := sort_by date payload in
          if negb (nonempty_list payload)
             && (negb (invalid_date =? 0)%nat || negb (invalid_event =? 0)%nat)
          then Raise (no_valid_rows invalid_date invalid_event)
          else Return payload
    end.

End EventService.

(** ** class ChangePointService *)

Module ChangePointService.

Definition optional_keys : list string :=
  ["mean_before"; "mean_after"; "impact_pct"; "notes"].

(** [for key in (...): if key in cp: normalized_item[key] = cp[key]] *)
Definition copy_key (cp : dict) (normalized_item : dict) (key : string) : dict :=
  match getitem key cp with
  | Some v => setitem key v normalized_item
  | None => normalized_item
  end.

Definition not_an_object (idx : nat) : exception :=
  ValidationError ("change_points[" +:+ str_nat idx +:+ "] must be an object") 400.

Definition date_required (idx : nat) : exception :=
  ValidationError
    ("change_points[" +:+ str_nat idx
     +:+ "].date is required and must be a valid date") 400.

(** [str(cp_date_raw) if cp_date_raw is not None else None] *)
Definition date_text (cp_date_raw : value) : option string :=
  match cp_date_raw with
  | PyNone => None
  | v => Some (str v)
  end.

(** [for idx, cp in enumerate(cps): ...], from index [idx] on. *)
Fixpoint entry_loop (cps : list value) (idx : nat) (normalized : list dict)
  : result (list dict) :=
  match cps with
  | [] => Return normalized
  | cp :: cps' =>
      match cp with
      | PyDict cp =>
          let cp_date_raw := get "date" cp in
          cp_date ← DateParser.parse (date_text cp_date_raw);
          match cp_date with
          | None => Raise (date_required idx)
          | Some cp_date =>
              let normalized_item :=
                fold_left (copy_key cp) optional_keys
                          [("date", PyStr (isoformat cp_date))] in
              entry_loop cps' (S idx) (normalized ++ [normalized_item])
          end
      | _ => Raise (not_an_object idx)
      end
  end.

Definition get_change_points (paths : DataPaths) (disk : Disk) : result dict :=
  match disk !! change_points paths with
  | None => Raise (ValidationError "change_points.json not found" 404)
  | Some f =>
      match as_json f with
      | inl exc =>
          Raise (ValidationError ("Failed to read change_points.json: " +:+ exc) 400)
      | inr (PyDict payload) =>
          match get "change_points" payload with
          | PyNone =>
              Raise (ValidationError
                       "change_points.json missing required key: change_points" 400)
          | PyList cps =>
              normalized ← entry_loop cps O [];
              Return (setitem "change_points" (PyList (map PyDict normalized)) payload)
          | _ => Raise (ValidationError "change_points must be a list" 400)
          end
      | inr _ => Raise (ValidationError "change_points.json must be a JSON object" 400)
      end
  end.

End ChangePointService.

End Services.

Import Py Services.

(* ===================================================================== *)
(** * Specification vocabulary *)
(* ===================================================================== *)

(** A computation that raises nothing but [ValueError]. *)
Definition only_ValueError {A} (m : result A) : Prop :=
  ∀ e, m = Raise e → e = ValueError.

(** The date (or [None]) that [parse] returns. *)
Definition parsed (value : option string) : option Py.date :=
  match DateParser.parse value with
  | Return d => d
  | Raise _ => None
  end.

(** Texts made of whitespace only (the empty text among them). *)
Fixpoint whitespace_only (s : string) : bool :=
  match s with
  | EmptyString => true
  | String c s' => isspace c && whitespace_only s'
  end.

(** [count p l]: how many elements of [l] satisfy [p]. *)
Definition count {A} (p : A → bool) (l : list A) : nat := length (List.filter p l).

Module PriceSpec.
Import PriceService.

(** The text handed to [float] for a row. *)
Definition price_text (row : Row) : string :=
  strip (replace "," "" (or_empty (row_get row "Price"))).

(** What the loop body does with one row. *)
Inductive outcome : Type :=
| InvalidDate
| InvalidPrice
| OutOfRange
| Emitted (it : item).

Definition classify (start end_ : option Py.date) (row : Row) : outcome :=
  match parsed (row_get row "Date") with
  | None => InvalidDate
  | Some row_date =>
      match float_of_str (price_text row) with
      | Raise _ => InvalidPrice
      | Return p =>
          if before start row_date || after end_ row_date then OutOfRange
          else Emitted {| date := isoformat row_date; price := p |}
      end
  end.

Definition is_invalid_date (o : outcome) : bool :=
  match o with InvalidDate => true | _ => false end.
Definition is_invalid_price (o : outcome) : bool :=
  match o with InvalidPrice => true | _ => false end.
Definition emitted (o : outcome) : option item :=
  match o with Emitted it => Some it | _ => None end.

End PriceSpec.

Import PriceSpec.

Module EventSpec.
Import EventService.

(** The text kept as the event of a row. *)
Definition event_text (row : Row) : string := strip (or_empty (row_get row "event")).

(** What the loop body does with one row. *)
Inductive outcome : Type :=
| InvalidDate
| InvalidEvent
| Emitted (it : item).

Definition classify (has_category : bool) (row : Row) : outcome :=
  match parsed (row_get row "date") with
  | None => InvalidDate
  | Some row_date =>
      if nonempty (event_text row)
      then Emitted {| date := isoformat row_date;
                      event := event_text row;
                      category := if has_category
                                  then or_None (row_get row "category")
                                  else None |}
      else InvalidEvent
  end.

Definition is_invalid_date (o : outcome) : bool :=
  match o with InvalidDate => true | _ => false end.
Definition is_invalid_event (o : outcome) : bool :=
  match o with InvalidEvent => true | _ => false end.
Definition emitted (o : outcome) : option item :=
  match o with Emitted it => Some it | _ => None end.

(** How the category of an emitted record relates to the row it comes
    from, under the [has_category] read off the first row. *)
Definition category_rule (has_category : bool) (row : Row) (it : item) : Prop :=
  (has_category = false → category it = None)
  ∧ (has_category = true → row_get row "category" = None → category it = None)
  ∧ (has_category = true → row_get row "category" = Some "" → category it = None)
  ∧ (∀ c, has_category = true → row_get row "category" = Some c → c ≠ "" →
          category it = Some c).

End EventSpec.

Module ChangePointSpec.
Import ChangePointService.

(** The date of an entry the normaliser accepts: the entry is an object and
    the text of its 'date' parses. *)
Definition entry_date (cp : value) : option Py.date :=
  match cp with
  | PyDict cp => parsed (date_text (get "date" cp))
  | _ => None
  end.

(** The error raised at an entry that is not accepted. *)
Definition entry_error (idx : nat) (cp : value) : exception :=
  match cp with
  | PyDict _ => date_required idx
  | _ => not_an_object idx
  end.

(** The normalised entry in the specification's words: the canonical date,
    then those of the four optional keys that the entry has, in the fixed
    order, each with the entry's value. *)
Definition normalized_entry (cp : dict) (d : Py.date) : dict :=
  ("date", PyStr (isoformat d))
  :: omap (λ key, pair key <$> getitem key cp) optional_keys.

Definition normalizes (cp : value) (normalized_item : dict) : Prop :=
  ∃ members d,
    cp = PyDict members
    ∧ DateParser.parse (date_text (get "date" members)) = Return (Some d)
    ∧ normalized_item = normalized_entry members d.

End ChangePointSpec.

(* ===================================================================== *)
(** * Example sources *)
(* ===================================================================== *)

Module Examples.

(** The paths of app.py, relative to the repository. *)
Definition PATHS : DataPaths := {|
  prices := "data/brent_prices.csv";
  alt_prices := "data/BrentOilPrices.csv";
  events := "data/events.csv";
  change_points := "data/change_points.json"
|}.

Definition table (rows : list Row) : File :=
  {| as_csv := inr rows; as_json := inl "Expecting value: line 1 column 1 (char 0)" |}.

Definition document (v : value) : File :=
  {| as_csv := inr []; as_json := inr v |}.

Definition row (cells : list (string * string)) : Row :=
  list_to_map (prod_map id Some <$> cells).

(** The price rows of the specification's example. *)
Definition price_rows : list Row :=
  [row [("Date", "2020-01-01"); ("Price", "1,234.5")];
   row [("Date", "bad"); ("Price", "10")];
   row [("Date", "2020-01-02"); ("Price", "notanumber")]].

Definition price_disk : Disk := {[ "data/brent_prices.csv" := table price_rows ]}.

(** A price table with one row, whose price reads [nan]. *)
Definition nan_rows : list Row := [row [("Date", "2020-01-01"); ("Price", "nan")]].
Definition nan_disk : Disk := {[ "data/BrentOilPrices.csv" := table nan_rows ]}.

(** A price table with a header and no data row. *)
Definition empty_disk : Disk := {[ "data/brent_prices.csv" := table [] ]}.

(** An events table with a category column, empty in its first row. *)
Definition event_rows : list Row :=
  [row [("date", "2020-01-01"); ("event", "OPEC meeting"); ("category", "")];
   row [("date", "2019-06-01"); ("event", " Sanctions "); ("category", " policy ")]].
Definition event_disk : Disk := {[ "data/events.csv" := table event_rows ]}.

(** Events whose rows are all rejected. *)
Definition bad_event_rows : list Row :=
  [row [("date", "2020-01-01"); ("event", "  ")];
   row [("date", "someday"); ("event", "x")]].
Definition bad_event_disk : Disk := {[ "data/events.csv" := table bad_event_rows ]}.

(** The change-point document of the specification's example, with two
    more top-level keys. *)
Definition cp_entry : dict :=
  [("date", PyStr "2021-03-01"); ("impact_pct", PyInt 5); ("unexpected", PyStr "x")].
Definition cp_document : dict :=
  [("model", PyStr "bayes"); ("change_points", PyList [PyDict cp_entry]); ("n", PyInt 1)].
Definition cp_disk : Disk := {[ "data/change_points.json" := document (PyDict cp_document) ]}.

(** A document whose two entries both lack a parsable date. *)
Definition bad_cp_document : dict :=
  [("change_points", PyList [PyDict [("date", PyStr "soon")]; PyDict [("notes", PyStr "n")]])].
Definition bad_cp_disk : Disk :=
  {[ "data/change_points.json" := document (PyDict bad_cp_document) ]}.

End Examples.

From Stdlib Require Import Sorting.Sorted.

(* ===================================================================== *)
(** * app.py *)
(* ===================================================================== *)

Module App.

(** The paths of the module: [PATHS = DataPaths(...)]. *)
Definition PATHS : DataPaths := Examples.PATHS.

(** What a view hands to [jsonify]. *)
Inductive json_body : Type :=
| Prices (payload : list PriceService.item)
| Events (payload : list EventService.item)
| Object (d : dict).




(** [request.args]: the query parameters, by name. *)
Abbreviation Args := (gmap string string).

Definition health : result json_body := Return (Object [("status", PyStr "ok")]).

Definition index : result json_body :=
  Return (Object [("message", PyStr "Backend is running.");
                  ("endpoints", PyList [PyStr "/api/health"; PyStr "/api/prices";
                                        PyStr "/api/events"; PyStr "/api/change-points"])]).

Definition prices (disk : Disk) (args : Args) : result json_body :=
  payload ← PriceService.get_prices PATHS disk (args !! "start") (args !! "end");
  Return (Prices payload).

Definition events (disk : Disk) : result json_body :=
  payload ← EventService.get_events PATHS disk;
  Return (Events payload).

Definition change_points (disk : Disk) : result json_body :=
  payload ← ChangePointService.get_change_points PATHS disk;
  Return (Object payload).

End App.

(* ===================================================================== *)
(** * Further vocabulary *)
(* ===================================================================== *)

(** A date of the calendar: what [date(y, m, d)] accepts. *)
Definition valid_date (d : Py.date) : bool :=
  ((1 <=? year d) && (year d <=? 9999) && (1 <=? month d) && (month d <=? 12)
   && (1 <=? day d) && (day d <=? days_in_month (year d) (month d)))%Z.

(** [a <= b] on dates. *)
Definition date_le (a b : Py.date) : bool := negb (date_lt b a).

(** A date within the optional bounds of a query. *)
Definition in_range (start end_ : option Py.date) (d : Py.date) : bool :=
  negb (PriceService.before start d) && negb (PriceService.after end_ d).

(** An exception of the services carrying one of the two status codes. *)
Definition is_validation_error (e : exception) : Prop :=
  ∃ message status_code,
    e = ValidationError message status_code ∧ (status_code = 400 ∨ status_code = 404)%Z.

(** Events of which two fall on the same day, written in two formats. *)
Definition same_day_rows : list Row :=
  [Examples.row [("date", "2020-03-09"); ("event", "Price war begins")];
   Examples.row [("date", "2008-07-11"); ("event", "Record high")];
   Examples.row [("date", "03/09/2020"); ("event", "Markets fall")]].
Definition same_day_disk : Disk := {[ "data/events.csv" := Examples.table same_day_rows ]}.
Definition same_day_payload : list EventService.item :=
  [{| EventService.date := "2008-07-11"; EventService.event := "Record high";
      EventService.category := None |};
   {| EventService.date := "2020-03-09"; EventService.event := "Price war begins";
      EventService.category := None |};
   {| EventService.date := "2020-03-09"; EventService.event := "Markets fall";
      EventService.category := None |}].

(** The example document as [get_change_points] returns it, and a disk
    that holds it. *)
Definition normalized_document : dict :=
  [("model", PyStr "bayes");
   ("change_points",
    PyList [PyDict [("date", PyStr "2021-03-01"); ("impact_pct", PyInt 5)]]);
   ("n", PyInt 1)].
Definition normalized_disk : Disk :=
  {[ "data/change_points.json" := Examples.document (PyDict normalized_document) ]}.

(** A price table of two valid rows, the later one first. *)
Definition two_prices_rows : list Row :=
  [Examples.row [("Date", "02-Mar-20"); ("Price", "51.2")];
   Examples.row [("Date", "2020-01-06"); ("Price", "68.9")]].
Definition two_prices_disk : Disk :=
  {[ "data/brent_prices.csv" := Examples.table two_prices_rows ]}.



(** Decimal digits as characters, and the fixed-width renderings that
    [isoformat] is made of. *)
Definition digit_char (k : Z) : ascii := ascii_of_N (48 + Z.to_N k).

Definition digits2 (n : Z) : string :=
  String (digit_char (n / 10)) (String (digit_char (n mod 10)) EmptyString).

Definition digits4 (n : Z) : string :=
  String (digit_char (n / 1000))
    (String (digit_char (n / 100 mod 10)) (digits2 (n mod 100))).

Definition decimal_digits : list Z := [0; 1; 2; 3; 4; 5; 6; 7; 8; 9]%Z.

(** All characters of a text satisfy [p]. *)
Fixpoint all_chars (p : ascii → bool) (s : string) : bool :=
  match s with
  | EmptyString => true
  | String c s' => p c && all_chars p s'
  end.

(** The characters of an ISO date: digits and the hyphen. *)
Definition iso_char (c : ascii) : bool := is_digit c || Ascii.eqb c "-".

(** The order of the sort: by the key's text. *)
Definition key_le {A} (key : A → string) (a b : A) : Prop :=
  String.leb (key a) (key b) = true.

(** Two date texts in chronological order, as the parser reads them. *)
Definition chronological (a b : string) : Prop :=
  ∃ da db,
    DateParser.parse (Some a) = Return (Some da)
    ∧ DateParser.parse (Some b) = Return (Some db)
    ∧ date_le da db = true.

(** A text that is the ISO rendering of a date of the calendar. *)
Definition iso_text (s : string) : Prop :=
  ∃ d, valid_date d = true ∧ s = isoformat d.

(** The regular expressions of the directives [%Y], [%m] and [%d]. *)
Definition year_regex : list (list charclass) := [[is_digit; is_digit; is_digit; is_digit]].
Definition month_regex : list (list charclass) :=
  [[one "1"; range "0" "2"]; [one "0"; range "1" "9"]; [range "1" "9"]].
Definition day_regex : list (list charclass) :=
  [[one "3"; range "0" "1"]; [range "1" "2"; is_digit]; [one "0"; range "1" "9"];
   [range "1" "9"]; [one " "; range "1" "9"]].

(** A captured group put in front of the groups of a match. *)
Definition with_group (name : ascii) (text : string)
    (m : list (ascii * string) * string) : list (ascii * string) * string :=
  ((name, text) :: fst m, snd m).

(** The characters of the date texts with slashes. *)
Definition slash_char (c : ascii) : bool := is_digit c || Ascii.eqb c "/".

(** The matcher, one item at a time, with the rest of the matching as a
    continuation. *)
Abbreviation matches := (list (list (ascii * string) * string)).

Definition group_step (name : ascii) (alts : list (list charclass))
    (k : string → matches) (s : string) : matches :=
  flat_map (fun alt =>
              match match_seq alt s with
              | Some (m, r) => map (with_group name m) (k r)
              | None => []
              end) alts.

Definition literal_step (c : ascii) (k : string → matches) (s : string) : matches :=
  match s with
  | String c' s' => if one c c' then k s' else []
  | EmptyString => []
  end.

(** A date text, read back by the parser, lies within the bounds. *)
Definition date_in_range (start end_ : option Py.date) (text : string) : bool :=
  match parsed (Some text) with
  | Some d => in_range start end_ d
  | None => false
  end.

(** The characters of a timestamp before its zone: digits, hyphen, colon
    and the separator [T]. *)
Definition stamp_char (c : ascii) : bool :=
  is_digit c || Ascii.eqb c "-" || Ascii.eqb c ":" || Ascii.eqb c "T".

(** The time of day [HH:MM:SS]. *)
Definition clock (hh mm ss : Z) : string :=
  zfill 2 hh +:+ ":" +:+ zfill 2 mm +:+ ":" +:+ zfill 2 ss.

(** The month abbreviations as [strftime("%b")] prints them. *)
Definition abbr (m : Z) : string :=
  nth (Z.to_nat (m - 1))
      ["Jan"; "Feb"; "Mar"; "Apr"; "May"; "Jun";
       "Jul"; "Aug"; "Sep"; "Oct"; "Nov"; "Dec"] "".

Definition abbr_regex : list (list charclass) := map word month_abbr.
Definition year2_regex : list (list charclass) := [[is_digit; is_digit]].

(** The year that a two-digit year stands for. *)
Definition pivot (yy : Z) : Z := (if yy <=? 68 then 2000 + yy else 1900 + yy)%Z.

(** A character that is neither whitespace nor [Z]. *)
Definition plain_char (c : ascii) : bool := negb (isspace c) && negb (Ascii.eqb c "Z").

(* ===================================================================== *)
(** * Generalities on the exception monad *)
(* ===================================================================== *)


Lemma only_ValueError_Return {A} (a : A) : only_ValueError (Return a).
Proof. intros e He. discriminate He. Qed.

Lemma only_ValueError_Raise {A} : only_ValueError (@Raise A ValueError).
Proof. intros e He. by injection He as <-. Qed.

Lemma only_ValueError_bind {A B} (m : result A) (f : A → result B) :
  only_ValueError m → (∀ a, only_ValueError (f a)) → only_ValueError (m ≫= f).
Proof.
  intros Hm Hf e. destruct m as [a|e']; simpl.
  - apply Hf.
  - intros [= <-]. by apply Hm.
Qed.

Lemma try_except_returns {A} (body handler : result A) :
  only_ValueError body → returns handler →
  returns (try_except_ValueError body handler).
Proof.
  intros Hb Hh. destruct body as [a|e]; simpl.
  - by exists a.
  - by rewrite (Hb e eq_refl).
Qed.

Lemma try_except_Raise {A} (handler : result A) :
  try_except_ValueError (Raise ValueError) handler = handler.
Proof. reflexivity. Qed.

Create HintDb pyexn.
#[local] Hint Resolve only_ValueError_Return only_ValueError_Raise : pyexn.

(* ===================================================================== *)
(** * The library raises [ValueError] only *)
(* ===================================================================== *)

Lemma new_date_only_ValueError y m d : only_ValueError (new_date y m d).
Proof. unfold new_date. case_match; auto with pyexn. Qed.

Lemma fromisoformat_only_ValueError text : only_ValueError (fromisoformat text).
Proof.
  unfold fromisoformat.
  repeat case_match; auto with pyexn;
    (apply only_ValueError_bind; [apply new_date_only_ValueError|]);
    intros dd; try case_match; auto with pyexn.
Qed.

Lemma strptime_only_ValueError text format : only_ValueError (strptime text format).
Proof.
  unfold strptime.
  repeat case_match; auto with pyexn;
    (apply only_ValueError_bind; [apply new_date_only_ValueError|]);
    intros dd; auto with pyexn.
Qed.

Lemma date_of_only_ValueError (m : result datetime) :
  only_ValueError m →
  only_ValueError (dt ← m; Return (Some (dt_date dt))).
Proof. intros Hm. apply only_ValueError_bind; [done|]. intros; auto with pyexn. Qed.

(* ===================================================================== *)
(** * DateParser *)
(* ===================================================================== *)

Lemma try_formats_returns text fmts : returns (DateParser.try_formats text fmts).
Proof.
  induction fmts as [|fmt rest IH]; simpl.
  - by eexists.
  - apply try_except_returns; [|exact IH].
    apply date_of_only_ValueError, strptime_only_ValueError.
Qed.

Lemma parse_returns value : returns (DateParser.parse value).
Proof.
  destruct value as [v|]; [|by eexists].
  unfold DateParser.parse. case_match; [by eexists|].
  apply try_except_returns; [|apply try_formats_returns].
  apply date_of_only_ValueError, fromisoformat_only_ValueError.
Qed.


Lemma parse_parsed value : DateParser.parse value = Return (parsed value).
Proof. unfold parsed. by destruct (parse_returns value) as [d ->]. Qed.


Lemma lstrip_whitespace_only s :
  whitespace_only s = true → lstrip_with isspace s = EmptyString.
Proof.
  induction s as [|c s IH]; simpl; [done|].
  intros [Hc Hs]%andb_prop. rewrite Hc. auto.
Qed.

Lemma strip_whitespace_only s : whitespace_only s = true → strip s = EmptyString.
Proof. intros H. unfold strip. by rewrite lstrip_whitespace_only. Qed.

(** C5. For every input text, null included, [DateParser.parse] raises no
    exception: it returns a calendar date or null.  It returns null for null
    input, for the empty text and for every whitespace-only text. *)
Theorem parse_never_raises :
  (∀ value, ∃ d : option Py.date, DateParser.parse value = Return d)
  ∧ DateParser.parse None = Return None
  ∧ DateParser.parse (Some "") = Return None
  ∧ (∀ s, whitespace_only s = true → DateParser.parse (Some s) = Return None).
Proof.
  split; [exact parse_returns|].
  split; [reflexivity|]. split; [reflexivity|].
  intros s Hs. unfold DateParser.parse. by rewrite strip_whitespace_only.
Qed.

Lemma parse_never_raises_witness :
  whitespace_only "   " = true ∧ DateParser.parse (Some "   ") = Return None.
Proof.
  split; [reflexivity|].
  apply (proj2 (proj2 (proj2 parse_never_raises)) "   "). reflexivity.
Defined.

Lemma try_formats_first text fmts i fmt dt :
  fmts !! i = Some fmt →
  (∀ j f, j < i → fmts !! j = Some f → strptime text f = Raise ValueError) →
  strptime text fmt = Return dt →
  DateParser.try_formats text fmts = Return (Some (dt_date dt)).
Proof.
  revert i. induction fmts as [|f0 rest IH]; intros i Hi Hbefore Hfmt; [done|].
  destruct i as [|i]; simpl in *.
  - injection Hi as ->. by rewrite Hfmt.
  - rewrite (Hbefore O f0) by (done || lia). simpl.
    apply (IH i); [done| |done].
    intros j f Hj Hf. apply (Hbefore (S j) f); [lia|done].
Qed.

Lemma try_formats_none text fmts :
  (∀ f, f ∈ fmts → strptime text f = Raise ValueError) →
  DateParser.try_formats text fmts = Return None.
Proof.
  induction fmts as [|f0 rest IH]; intros Hall; [done|]. simpl.
  rewrite (Hall f0) by apply list_elem_of_here. simpl.
  apply IH. intros f Hf. apply Hall. by apply list_elem_of_further.
Qed.

Lemma parse_Some value :
  DateParser.parse (Some value)
  = if nonempty (strip value)
    then match fromisoformat (replace "Z" "+00:00" (strip value)) with
         | Return dt => Return (Some (dt_date dt))
         | Raise ValueError => DateParser.try_formats (strip value) DateParser.formats
         | Raise e => Raise e
         end
    else Return None.
Proof.
  unfold DateParser.parse. destruct (nonempty (strip value)); [|done].
  by destruct (fromisoformat _) as [dt|[|msg code]].
Qed.

(** C6. The non-ISO patterns are tried in the fixed order YYYY/MM/DD,
    MM/DD/YYYY, DD/MM/YYYY, DD-Mon-YY, DD-Mon-YYYY, and the first one that
    matches the whole text gives the result (null when none does);
    consequently [parse("03/04/2020")] is the date 2020-03-04, the MM/DD/YYYY
    reading, although DD/MM/YYYY would read the text as 2020-04-03. *)
Theorem parse_format_order :
  DateParser.formats = ["%Y/%m/%d"; "%m/%d/%Y"; "%d/%m/%Y"; "%d-%b-%y"; "%d-%b-%Y"]
  ∧ (∀ value i fmt dt,
       let text := strip value in
       nonempty text = true →
       fromisoformat (replace "Z" "+00:00" text) = Raise ValueError →
       DateParser.formats !! i = Some fmt →
       (∀ j f, j < i → DateParser.formats !! j = Some f →
               strptime text f = Raise ValueError) →
       strptime text fmt = Return dt →
       DateParser.parse (Some value) = Return (Some (dt_date dt)))
  ∧ (∀ value,
       let text := strip value in
       fromisoformat (replace "Z" "+00:00" text) = Raise ValueError →
       (∀ f, f ∈ DateParser.formats → strptime text f = Raise ValueError) →
       DateParser.parse (Some value) = Return None)
  ∧ DateParser.parse (Some "03/04/2020") = Return (Some (mk_date 2020 3 4))
  ∧ strptime "03/04/2020" "%m/%d/%Y"
    = Return (mk_datetime (mk_date 2020 3 4) 0 0 0 0 None)
  ∧ strptime "03/04/2020" "%d/%m/%Y"
    = Return (mk_datetime (mk_date 2020 4 3) 0 0 0 0 None).
Proof.
  split; [reflexivity|]. split; [|split; [|split; [|split]]].
  - intros value i fmt dt text Hne Hiso Hi Hbefore Hfmt.
    rewrite parse_Some. fold text. rewrite Hne, Hiso.
    by apply (try_formats_first _ _ i fmt).
  - intros value text Hiso Hall.
    rewrite parse_Some. fold text. destruct (nonempty text); [|done].
    rewrite Hiso. by apply try_formats_none.
  - vm_compute. reflexivity.
  - vm_compute. reflexivity.
  - vm_compute. reflexivity.
Qed.

Lemma parse_format_order_witness :
  DateParser.parse (Some " 13/04/2020 ")
  = Return (Some (mk_date 2020 4 13))
  ∧ DateParser.parse (Some "2020.04.13") = Return None.
Proof.
  split.
  - apply (proj1 (proj2 parse_format_order) " 13/04/2020 " 2 "%d/%m/%Y"
             (mk_datetime (mk_date 2020 4 13) 0 0 0 0 None)).
    + vm_compute. reflexivity.
    + vm_compute. reflexivity.
    + reflexivity.
    + intros j f Hj Hf.
      destruct j as [|[|j]]; [| |lia]; injection Hf as <-; vm_compute; reflexivity.
    + vm_compute. reflexivity.
  - apply (proj1 (proj2 (proj2 parse_format_order)) "2020.04.13").
    + vm_compute. reflexivity.
    + intros f Hf. unfold DateParser.formats in Hf.
      repeat (apply elem_of_cons in Hf as [->|Hf]; [vm_compute; reflexivity|]).
      by apply elem_of_nil in Hf.
Defined.

(* ===================================================================== *)
(** * Sorting *)
(* ===================================================================== *)

Section sorting.
Context {A : Type} (key : A → string).

Lemma insert_by_perm x (l : list A) : insert_by key x l ≡ₚ x :: l.
Proof.
  induction l as [|y l IH]; simpl; [done|].
  case_match; [done|]. rewrite IH. apply Permutation_swap.
Qed.

Lemma sort_by_perm (l : list A) : sort_by key l ≡ₚ l.
Proof.
  induction l as [|x l IH]; simpl; [done|].
  rewrite insert_by_perm. by f_equiv.
Qed.

Lemma sort_by_nil_inv (l : list A) : sort_by key l = [] → l = [].
Proof.
  intros H. apply Permutation_nil_r. rewrite <- H. symmetry. apply sort_by_perm.
Qed.

Lemma elem_of_sort_by x (l : list A) : x ∈ sort_by key l ↔ x ∈ l.
Proof. by rewrite sort_by_perm. Qed.

Lemma nonempty_sort_by (l : list A) :
  nonempty_list (sort_by key l) = nonempty_list l.
Proof.
  destruct l as [|x l]; [done|].
  destruct (sort_by key (x :: l)) eqn:E; [|done].
  by apply sort_by_nil_inv in E.
Qed.

End sorting.

(* ===================================================================== *)
(** * PriceService *)
(* ===================================================================== *)

Lemma float_of_str_only_ValueError text : only_ValueError (float_of_str text).
Proof. unfold float_of_str. repeat case_match; auto with pyexn. Qed.



Lemma price_row_loop_cons start end_ row rows payload invalid_date invalid_price :
  PriceService.row_loop start end_ (row :: rows) (payload, invalid_date, invalid_price)
  = match classify start end_ row with
    | InvalidDate =>
        PriceService.row_loop start end_ rows (payload, S invalid_date, invalid_price)
    | InvalidPrice =>
        PriceService.row_loop start end_ rows (payload, invalid_date, S invalid_price)
    | OutOfRange =>
        PriceService.row_loop start end_ rows (payload, invalid_date, invalid_price)
    | Emitted it =>
        PriceService.row_loop start end_ rows (payload ++ [it], invalid_date, invalid_price)
    end.
Proof.
  cbn [PriceService.row_loop]. rewrite parse_parsed. unfold classify.
  fold (price_text row).
  destruct (parsed (row_get row "Date")) as [row_date|]; [|done].
  cbn [mbind result_bind].
  destruct (float_of_str (price_text row)) as [p|e] eqn:Ef.
  - destruct (PriceService.before start row_date); [done|].
    by destruct (PriceService.after end_ row_date).
  - by rewrite (float_of_str_only_ValueError _ _ Ef).
Qed.

Lemma price_row_loop start end_ rows payload invalid_date invalid_price :
  PriceService.row_loop start end_ rows (payload, invalid_date, invalid_price)
  = let os := classify start end_ <$> rows in
    Return (payload ++ omap emitted os,
            invalid_date + count is_invalid_date os,
            invalid_price + count is_invalid_price os).
Proof.
  revert payload invalid_date invalid_price.
  induction rows as [|row rows IH]; intros payload a b; cbn zeta.
  - unfold count. simpl. by rewrite app_nil_r, !Nat.add_0_r.
  - rewrite price_row_loop_cons. unfold count. rewrite fmap_cons.
    destruct (classify start end_ row); rewrite IH; cbn zeta; unfold count; simpl;
      rewrite <- ?app_assoc, ?Nat.add_succ_r; done.
Qed.

Lemma get_prices_rows paths disk start_raw end_raw f row0 rows start end_ :
  disk !! PriceService._select_prices_path paths disk = Some f →
  as_csv f = inr (row0 :: rows) →
  row_has row0 "Date" = true →
  row_has row0 "Price" = true →
  PriceService.parse_query_dates start_raw end_raw = Return (start, end_) →
  PriceService.get_prices paths disk start_raw end_raw
  = let os := classify start end_ <$> row0 :: rows in
    let payload := sort_by PriceService.date (omap emitted os) in
    if nonempty_list payload then Return payload
    else if ((count is_invalid_date os =? 0) && (count is_invalid_price os =? 0))%nat
         then Return []
         else Raise (PriceService.no_valid_rows (count is_invalid_date os)
                                                (count is_invalid_price os)).
Proof.
  intros Hf Hcsv HDate HPrice Hq.
  unfold PriceService.get_prices, CsvTable.read_rows, exists_.
  rewrite Hf, Hcsv. cbn [negb mbind result_bind].
  rewrite HDate, HPrice, Hq. cbn [negb orb mbind result_bind].
  rewrite price_row_loop. cbn zeta. cbn [mbind result_bind app Nat.add].
  destruct (sort_by _ _) eqn:Es; cbn [nonempty_list negb andb]; [|done].
  rewrite <- negb_andb. by destruct (_ && _).
Qed.

Lemma select_primary paths disk f :
  disk !! prices paths = Some f →
  PriceService._select_prices_path paths disk = prices paths.
Proof. intros Hf. unfold PriceService._select_prices_path, exists_. by rewrite Hf. Qed.

Lemma select_fallback paths disk :
  disk !! prices paths = None →
  PriceService._select_prices_path paths disk = alt_prices paths.
Proof. intros Hf. unfold PriceService._select_prices_path, exists_. by rewrite Hf. Qed.

(** What a successful call of [get_prices] went through. *)
Lemma get_prices_Return_inv paths disk start_raw end_raw payload :
  PriceService.get_prices paths disk start_raw end_raw = Return payload →
  ∃ f rows,
    disk !! PriceService._select_prices_path paths disk = Some f
    ∧ as_csv f = inr rows
    ∧ (rows = [] ∧ payload = []
       ∨ ∃ start end_,
           PriceService.parse_query_dates start_raw end_raw = Return (start, end_)
           ∧ payload = sort_by PriceService.date
                         (omap emitted (classify start end_ <$> rows))).
Proof.
  intros Hget.
  destruct (disk !! PriceService._select_prices_path paths disk) as [f|] eqn:Hf;
    [|by unfold PriceService.get_prices, exists_ in Hget; rewrite Hf in Hget].
  destruct (as_csv f) as [exc|rows] eqn:Hcsv;
    [by unfold PriceService.get_prices, CsvTable.read_rows, exists_ in Hget;
        rewrite Hf, Hcsv in Hget|].
  exists f, rows. split; [done|]. split; [done|].
  destruct rows as [|row0 rows].
  { left. split; [done|].
    unfold PriceService.get_prices, CsvTable.read_rows, exists_ in Hget.
    rewrite Hf, Hcsv in Hget. by injection Hget. }
  right.
  destruct (row_has row0 "Date") eqn:HDate;
    [|by unfold PriceService.get_prices, CsvTable.read_rows, exists_ in Hget;
         rewrite Hf, Hcsv in Hget; cbn in Hget; rewrite HDate in Hget].
  destruct (row_has row0 "Price") eqn:HPrice;
    [|by unfold PriceService.get_prices, CsvTable.read_rows, exists_ in Hget;
         rewrite Hf, Hcsv in Hget; cbn in Hget; rewrite HDate, HPrice in Hget].
  destruct (PriceService.parse_query_dates start_raw end_raw) as [[start end_]|e] eqn:Hq;
    [|by unfold PriceService.get_prices, CsvTable.read_rows, exists_ in Hget;
         rewrite Hf, Hcsv in Hget; cbn in Hget; rewrite HDate, HPrice, Hq in Hget].
  exists start, end_. split; [done|].
  rewrite (get_prices_rows _ _ _ _ f row0 rows start end_) in Hget by done.
  cbn zeta in Hget.
  destruct (sort_by _ _) eqn:Es; cbn [nonempty_list] in Hget.
  - destruct (_ && _); [by injection Hget|discriminate].
  - by injection Hget.
Qed.

(** C2 (as stated) fails: on the example rows, the call with
    [start="2020-01-02"] and no end does not return the empty list. *)
Lemma get_prices_example_range_is_error :
  PriceService.get_prices Examples.PATHS Examples.price_disk (Some "2020-01-02") None
  ≠ Return [].
Proof. vm_compute. discriminate. Qed.

(** C2 (amended). For the price rows [{Date:"2020-01-01",Price:"1,234.5"},
    {Date:"bad",Price:"10"}, {Date:"2020-01-02",Price:"notanumber"}] in the
    primary price file, [get_prices] without bounds returns the one point
    2020-01-01 / 1234.5, and [get_prices] with [start="2020-01-02"] and no
    end fails with the no-valid-rows error reporting one invalid date and
    one invalid price: the output is empty and two rows were counted
    invalid. *)
Theorem get_prices_example paths disk f :
  disk !! prices paths = Some f →
  as_csv f = inr Examples.price_rows →
  PriceService.get_prices paths disk None None
  = Return [{| PriceService.date := "2020-01-01";
               PriceService.price := finite false 12345 (-1) |}]
  ∧ PriceService.get_prices paths disk (Some "2020-01-02") None
    = Raise (ValidationError
               "No valid price rows found after parsing. Invalid dates: 1, invalid prices: 1."
               400).
Proof.
  intros Hf Hcsv. unfold Examples.price_rows in Hcsv.
  rewrite <- (select_primary _ _ _ Hf) in Hf.
  split.
  - rewrite (get_prices_rows _ _ _ _ _ _ _ None None Hf Hcsv);
      vm_compute; reflexivity.
  - rewrite (get_prices_rows _ _ _ _ _ _ _ (Some (mk_date 2020 1 2)) None Hf Hcsv);
      vm_compute; reflexivity.
Qed.

Lemma get_prices_example_witness :
  PriceService.get_prices Examples.PATHS Examples.price_disk (Some "2020-01-02") None
  = Raise (ValidationError
             "No valid price rows found after parsing. Invalid dates: 1, invalid prices: 1."
             400).
Proof.
  apply (get_prices_example Examples.PATHS Examples.price_disk
           (Examples.table Examples.price_rows)); reflexivity.
Defined.

Lemma classify_Emitted start end_ row it :
  classify start end_ row = Emitted it →
  float_of_str (price_text row) = Return (PriceService.price it)
  ∧ ∃ row_date, DateParser.parse (row_get row "Date") = Return (Some row_date)
                ∧ PriceService.date it = isoformat row_date
                ∧ PriceService.before start row_date = false
                ∧ PriceService.after end_ row_date = false.
Proof.
  unfold classify. rewrite (parse_parsed (row_get row "Date")).
  destruct (parsed _) as [row_date|]; [|done].
  destruct (float_of_str _) as [p|e]; [|done].
  destruct (PriceService.before start row_date) eqn:Hb; [done|].
  destruct (PriceService.after end_ row_date) eqn:Ha; [done|].
  intros [= <-]. split; [done|]. by exists row_date.
Qed.

(** C3 (as stated) fails: a row whose Price reads [nan] is emitted, with a
    price that is not a finite number. *)
Lemma price_not_finite :
  ∃ it, PriceService.get_prices Examples.PATHS Examples.nan_disk None None = Return [it]
        ∧ isfinite (PriceService.price it) = false.
Proof. eexists. split; [vm_compute; reflexivity|reflexivity]. Qed.

(** C3 (amended). For every price source and all query bounds, each record
    emitted by [get_prices] comes from a row of the source, and its price is
    the floating-point number -- an infinity or not-a-number included -- that
    the numeric conversion returns on the row's 'Price' text after comma
    characters and then surrounding whitespace have been stripped from it. *)
Theorem price_is_converted_stripped_text paths disk start_raw end_raw payload :
  PriceService.get_prices paths disk start_raw end_raw = Return payload →
  ∃ rows,
    CsvTable.read_rows disk (PriceService._select_prices_path paths disk) = Return rows
    ∧ ∀ it, it ∈ payload →
        ∃ row, row ∈ rows
               ∧ float_of_str (strip (replace "," "" (or_empty (row_get row "Price"))))
                 = Return (PriceService.price it).
Proof.
  intros (f & rows & Hf & Hcsv & Hrows)%get_prices_Return_inv.
  exists rows. split; [by unfold CsvTable.read_rows; rewrite Hf, Hcsv|].
  intros it Hit.
  destruct Hrows as [[_ ->]|(start & end_ & _ & ->)]; [by apply elem_of_nil in Hit|].
  apply elem_of_sort_by, list_elem_of_omap in Hit as (o & Ho & Hem).
  apply list_elem_of_fmap in Ho as (row & -> & Hrow).
  exists row. split; [done|].
  destruct (classify start end_ row) eqn:Hc; try done.
  injection Hem as ->. by apply classify_Emitted in Hc as [Hp _].
Qed.

Lemma price_is_converted_stripped_text_witness :
  ∃ rows,
    CsvTable.read_rows Examples.price_disk
      (PriceService._select_prices_path Examples.PATHS Examples.price_disk) = Return rows
    ∧ ∀ it, it ∈ [{| PriceService.date := "2020-01-01";
                     PriceService.price := finite false 12345 (-1) |}] →
        ∃ row, row ∈ rows
               ∧ float_of_str (strip (replace "," "" (or_empty (row_get row "Price"))))
                 = Return (PriceService.price it).
Proof.
  apply (price_is_converted_stripped_text Examples.PATHS Examples.price_disk None None).
  vm_compute. reflexivity.
Defined.

(** C10. The query bounds are looked at only after the price file has been
    selected, read and found to have the required columns on a non-empty
    source.  Whatever [start_raw] and [end_raw] are: when neither price file
    exists the failure is the not-found error (status 404); when the
    selected file cannot be read the failure is the read error; when it has
    no data row the result is the empty list; when its first row lacks
    'Date' or 'Price' the failure is the missing-columns error; and only
    past these checks does a failure of the bounds become the failure of
    [get_prices]. *)
Theorem get_prices_validation_order paths disk start_raw end_raw :
  (disk !! prices paths = None → disk !! alt_prices paths = None →
   PriceService.get_prices paths disk start_raw end_raw
   = Raise (ValidationError "brent_prices.csv or BrentOilPrices.csv not found" 404))
  ∧ (∀ f exc,
       disk !! PriceService._select_prices_path paths disk = Some f →
       as_csv f = inl exc →
       PriceService.get_prices paths disk start_raw end_raw
       = Raise (ValidationError ("Failed to read CSV: " +:+ exc) 400))
  ∧ (∀ f,
       disk !! PriceService._select_prices_path paths disk = Some f →
       as_csv f = inr [] →
       PriceService.get_prices paths disk start_raw end_raw = Return [])
  ∧ (∀ f row0 rows,
       disk !! PriceService._select_prices_path paths disk = Some f →
       as_csv f = inr (row0 :: rows) →
       row_has row0 "Date" && row_has row0 "Price" = false →
       PriceService.get_prices paths disk start_raw end_raw
       = Raise (ValidationError "Expected columns: Date, Price" 400))
  ∧ (∀ f row0 rows e,
       disk !! PriceService._select_prices_path paths disk = Some f →
       as_csv f = inr (row0 :: rows) →
       row_has row0 "Date" && row_has row0 "Price" = true →
       PriceService.parse_query_dates start_raw end_raw = Raise e →
       PriceService.get_prices paths disk start_raw end_raw = Raise e).
Proof.
  repeat split.
  - intros Hp Ha. unfold PriceService.get_prices.
    rewrite (select_fallback _ _ Hp). unfold exists_. by rewrite Ha.
  - intros f exc Hf Hcsv.
    unfold PriceService.get_prices, CsvTable.read_rows, exists_. by rewrite Hf, Hcsv.
  - intros f Hf Hcsv.
    unfold PriceService.get_prices, CsvTable.read_rows, exists_. by rewrite Hf, Hcsv.
  - intros f row0 rows Hf Hcsv Hcols.
    unfold PriceService.get_prices, CsvTable.read_rows, exists_.
    rewrite Hf, Hcsv. cbn [negb mbind result_bind].
    by rewrite <- negb_andb, Hcols.
  - intros f row0 rows e Hf Hcsv [HDate HPrice]%andb_prop Hq.
    unfold PriceService.get_prices, CsvTable.read_rows, exists_.
    rewrite Hf, Hcsv. cbn [negb mbind result_bind].
    by rewrite HDate, HPrice, Hq.
Qed.

Lemma get_prices_validation_order_witness :
  PriceService.get_prices Examples.PATHS ∅ (Some "never") (Some "2020-13-45")
  = Raise (ValidationError "brent_prices.csv or BrentOilPrices.csv not found" 404)
  ∧ PriceService.get_prices Examples.PATHS Examples.empty_disk
      (Some "2020-06-01") (Some "2020-01-01") = Return []
  ∧ PriceService.get_prices Examples.PATHS Examples.price_disk
      (Some "2020-06-01") (Some "2020-01-01")
    = Raise (ValidationError "Invalid date range: start must be <= end." 400).
Proof.
  split; [|split].
  - apply (proj1 (get_prices_validation_order Examples.PATHS ∅ _ _)); reflexivity.
  - apply (proj1 (proj2 (proj2
             (get_prices_validation_order Examples.PATHS Examples.empty_disk _ _)))
             (Examples.table [])); reflexivity.
  - apply (proj2 (proj2 (proj2 (proj2
             (get_prices_validation_order Examples.PATHS Examples.price_disk _ _))))
             (Examples.table Examples.price_rows) _ _ _ eq_refl eq_refl);
      vm_compute; reflexivity.
Defined.

(* ===================================================================== *)
(** * EventService *)
(* ===================================================================== *)

Lemma event_row_loop_cons has_category row rows payload invalid_date invalid_event :
  EventService.row_loop has_category (row :: rows) (payload, invalid_date, invalid_event)
  = match EventSpec.classify has_category row with
    | EventSpec.InvalidDate =>
        EventService.row_loop has_category rows (payload, S invalid_date, invalid_event)
    | EventSpec.InvalidEvent =>
        EventService.row_loop has_category rows (payload, invalid_date, S invalid_event)
    | EventSpec.Emitted it =>
        EventService.row_loop has_category rows (payload ++ [it], invalid_date, invalid_event)
    end.
Proof.
  cbn [EventService.row_loop]. rewrite parse_parsed. unfold EventSpec.classify.
  fold (EventSpec.event_text row).
  destruct (parsed (row_get row "date")) as [row_date|]; [|done].
  cbn [mbind result_bind].
  by destruct (nonempty (EventSpec.event_text row)).
Qed.

Lemma event_row_loop has_category rows payload invalid_date invalid_event :
  EventService.row_loop has_category rows (payload, invalid_date, invalid_event)
  = let os := EventSpec.classify has_category <$> rows in
    Return (payload ++ omap EventSpec.emitted os,
            invalid_date + count EventSpec.is_invalid_date os,
            invalid_event + count EventSpec.is_invalid_event os).
Proof.
  revert payload invalid_date invalid_event.
  induction rows as [|row rows IH]; intros payload a b; cbn zeta.
  - unfold count. simpl. by rewrite app_nil_r, !Nat.add_0_r.
  - rewrite event_row_loop_cons. unfold count. rewrite fmap_cons.
    destruct (EventSpec.classify has_category row); rewrite IH; cbn zeta;
      unfold count; simpl; rewrite <- ?app_assoc, ?Nat.add_succ_r; done.
Qed.

Lemma get_events_rows paths disk f row0 rows :
  disk !! events paths = Some f →
  as_csv f = inr (row0 :: rows) →
  row_has row0 "date" = true →
  row_has row0 "event" = true →
  EventService.get_events paths disk
  = let os := EventSpec.classify (row_has row0 "category") <$> row0 :: rows in
    let payload := sort_by EventService.date (omap EventSpec.emitted os) in
    if nonempty_list payload then Return payload
    else if ((count EventSpec.is_invalid_date os =? 0)
             && (count EventSpec.is_invalid_event os =? 0))%nat
         then Return []
         else Raise (EventService.no_valid_rows (count EventSpec.is_invalid_date os)
                                                (count EventSpec.is_invalid_event os)).
Proof.
  intros Hf Hcsv Hdate Hevent.
  unfold EventService.get_events, CsvTable.read_rows, exists_.
  rewrite Hf, Hcsv. cbn [negb mbind result_bind].
  rewrite Hdate, Hevent. cbn [negb orb mbind result_bind].
  rewrite event_row_loop. cbn zeta. cbn [mbind result_bind app Nat.add].
  destruct (sort_by _ _) eqn:Es; cbn [nonempty_list negb andb]; [|done].
  rewrite <- negb_andb. by destruct (_ && _).
Qed.

(** What a successful call of [get_events] went through. *)
Lemma get_events_Return_inv paths disk payload :
  EventService.get_events paths disk = Return payload →
  ∃ f rows,
    disk !! events paths = Some f
    ∧ as_csv f = inr rows
    ∧ (rows = [] ∧ payload = []
       ∨ ∃ row0 rows',
           rows = row0 :: rows'
           ∧ payload = sort_by EventService.date
                         (omap EventSpec.emitted
                            (EventSpec.classify (row_has row0 "category") <$> rows))).
Proof.
  intros Hget.
  destruct (disk !! events paths) as [f|] eqn:Hf;
    [|by unfold EventService.get_events, exists_ in Hget; rewrite Hf in Hget].
  destruct (as_csv f) as [exc|rows] eqn:Hcsv;
    [by unfold EventService.get_events, CsvTable.read_rows, exists_ in Hget;
        rewrite Hf, Hcsv in Hget|].
  exists f, rows. split; [done|]. split; [done|].
  destruct rows as [|row0 rows].
  { left. split; [done|].
    unfold EventService.get_events, CsvTable.read_rows, exists_ in Hget.
    rewrite Hf, Hcsv in Hget. by injection Hget. }
  right. exists row0, rows. split; [done|].
  destruct (row_has row0 "date") eqn:Hdate;
    [|by unfold EventService.get_events, CsvTable.read_rows, exists_ in Hget;
         rewrite Hf, Hcsv in Hget; cbn in Hget; rewrite Hdate in Hget].
  destruct (row_has row0 "event") eqn:Hevent;
    [|by unfold EventService.get_events, CsvTable.read_rows, exists_ in Hget;
         rewrite Hf, Hcsv in Hget; cbn in Hget; rewrite Hdate, Hevent in Hget].
  rewrite (get_events_rows _ _ f row0 rows) in Hget by done.
  cbn zeta in Hget.
  destruct (sort_by _ _) eqn:Es; cbn [nonempty_list] in Hget.
  - destruct (_ && _); [by injection Hget|discriminate].
  - by injection Hget.
Qed.

Lemma event_classify_Emitted has_category row it :
  EventSpec.classify has_category row = EventSpec.Emitted it →
  (∃ row_date, DateParser.parse (row_get row "date") = Return (Some row_date)
               ∧ EventService.date it = isoformat row_date)
  ∧ EventService.event it = EventSpec.event_text row
  ∧ nonempty (EventService.event it) = true
  ∧ EventService.category it
    = if has_category then or_None (row_get row "category") else None.
Proof.
  unfold EventSpec.classify. rewrite (parse_parsed (row_get row "date")).
  destruct (parsed _) as [row_date|]; [|done].
  destruct (nonempty (EventSpec.event_text row)) eqn:Hev; [|done].
  intros [= <-]. simpl. split; [by exists row_date|done].
Qed.

Lemma or_None_category_rule (has_category : bool) row it :
  EventService.category it
  = (if has_category then or_None (row_get row "category") else None) →
  EventSpec.category_rule has_category row it.
Proof.
  intros Hcat. unfold EventSpec.category_rule. rewrite Hcat.
  split; [by intros ->|]. split; [by intros -> ->|].
  split; [by intros -> ->|].
  intros c -> -> Hc. simpl. by destruct c.
Qed.

(** C1 (as stated) fails: in an events source with a 'category' column, the
    row whose category is the empty text yields a record whose category is
    null, not the empty text. *)
Lemma empty_category_is_null :
  ∃ row0 rows it other,
    CsvTable.read_rows Examples.event_disk (events Examples.PATHS) = Return (row0 :: rows)
    ∧ row_has row0 "category" = true
    ∧ row_get row0 "category" = Some ""
    ∧ row_get row0 "event" = Some (EventService.event it)
    ∧ EventService.get_events Examples.PATHS Examples.event_disk = Return [other; it]
    ∧ EventService.category it ≠ Some "".
Proof.
  do 4 eexists. split; [reflexivity|].
  split; [vm_compute; reflexivity|].
  split; [vm_compute; reflexivity|].
  assert (Hget : EventService.get_events Examples.PATHS Examples.event_disk
                 = Return [{| EventService.date := "2019-06-01";
                              EventService.event := "Sanctions";
                              EventService.category := Some " policy " |};
                           {| EventService.date := "2020-01-01";
                              EventService.event := "OPEC meeting";
                              EventService.category := None |}])
    by (vm_compute; reflexivity).
  split; [|split; [exact Hget|]]; [vm_compute; reflexivity|discriminate].
Qed.

(** C1 (amended). For every events source, every record that [get_events]
    returns comes from a row of the source, and every row with a parsable
    date and a non-blank event yields a record; between a row and its
    record: when the header (the first row's keys) has no 'category' column
    the record's category is null; when it has one, an empty or missing
    'category' value gives category null, and a non-empty value is kept as it
    is. *)
Theorem category_of_event_records paths disk payload :
  EventService.get_events paths disk = Return payload →
  ∃ rows,
    CsvTable.read_rows disk (events paths) = Return rows
    ∧ let has_category :=
        match rows with row0 :: _ => row_has row0 "category" | [] => false end in
      (∀ it, it ∈ payload →
         ∃ row, row ∈ rows
                ∧ EventService.event it = strip (or_empty (row_get row "event"))
                ∧ EventSpec.category_rule has_category row it)
      ∧ (∀ row row_date,
           row ∈ rows →
           DateParser.parse (row_get row "date") = Return (Some row_date) →
           nonempty (strip (or_empty (row_get row "event"))) = true →
           ∃ it, it ∈ payload
                 ∧ EventService.date it = isoformat row_date
                 ∧ EventService.event it = strip (or_empty (row_get row "event"))
                 ∧ EventSpec.category_rule has_category row it).
Proof.
  intros (f & rows & Hf & Hcsv & Hrows)%get_events_Return_inv.
  exists rows. split; [by unfold CsvTable.read_rows; rewrite Hf, Hcsv|].
  destruct Hrows as [[-> ->]|(row0 & rows' & -> & ->)]; cbn zeta.
  { split; [by intros it Hit%elem_of_nil|by intros row d Hrow%elem_of_nil]. }
  set (has_category := row_has row0 "category").
  split.
  - intros it Hit.
    apply elem_of_sort_by, list_elem_of_omap in Hit as (o & Ho & Hem).
    apply list_elem_of_fmap in Ho as (row & -> & Hrow).
    exists row. split; [done|].
    destruct (EventSpec.classify has_category row) eqn:Hc; try done.
    injection Hem as ->.
    apply event_classify_Emitted in Hc as (_ & Hev & _ & Hcat).
    split; [done|]. by apply or_None_category_rule.
  - intros row row_date Hrow Hparse Hev.
    destruct (EventSpec.classify has_category row) as [| |it] eqn:Hc.
    + unfold EventSpec.classify, parsed in Hc. rewrite Hparse in Hc.
      by destruct (nonempty (EventSpec.event_text row)).
    + unfold EventSpec.classify, parsed, EventSpec.event_text in Hc.
      by rewrite Hparse, Hev in Hc.
    + exists it. split.
      * apply elem_of_sort_by, list_elem_of_omap.
        exists (EventSpec.Emitted it). split; [|done].
        apply list_elem_of_fmap. by exists row.
      * apply event_classify_Emitted in Hc as ((d & Hd & Hdate) & Hevent & _ & Hcat).
        rewrite Hparse in Hd. injection Hd as <-.
        split; [done|]. split; [done|]. by apply or_None_category_rule.
Qed.

Lemma category_of_event_records_witness :
  ∃ rows,
    CsvTable.read_rows Examples.event_disk (events Examples.PATHS) = Return rows
    ∧ let has_category :=
        match rows with row0 :: _ => row_has row0 "category" | [] => false end in
      (∀ it, it ∈ [{| EventService.date := "2019-06-01";
                      EventService.event := "Sanctions";
                      EventService.category := Some " policy " |};
                   {| EventService.date := "2020-01-01";
                      EventService.event := "OPEC meeting";
                      EventService.category := None |}] →
         ∃ row, row ∈ rows
                ∧ EventService.event it = strip (or_empty (row_get row "event"))
                ∧ EventSpec.category_rule has_category row it)
      ∧ (∀ row row_date,
           row ∈ rows →
           DateParser.parse (row_get row "date") = Return (Some row_date) →
           nonempty (strip (or_empty (row_get row "event"))) = true →
           ∃ it, it ∈ [{| EventService.date := "2019-06-01";
                          EventService.event := "Sanctions";
                          EventService.category := Some " policy " |};
                       {| EventService.date := "2020-01-01";
                          EventService.event := "OPEC meeting";
                          EventService.category := None |}]
                 ∧ EventService.date it = isoformat row_date
                 ∧ EventService.event it = strip (or_empty (row_get row "event"))
                 ∧ EventSpec.category_rule has_category row it).
Proof.
  apply (category_of_event_records Examples.PATHS Examples.event_disk).
  vm_compute. reflexivity.
Defined.

(* ===================================================================== *)
(** * Empty output: error or empty result *)
(* ===================================================================== *)

(** C4. For every price source and every events source: when the source has
    no row the result is the empty list; when no row is emitted by the
    per-row processing and at least one row was counted invalid (invalid
    date or invalid price for prices, invalid date or empty event for
    events), the pipeline fails with the no-valid-rows error whose message
    reports both counts; when no row is emitted and none was counted invalid
    (every row was excluded by the range filter), the result is the empty
    list. *)
Theorem empty_output_rule :
  (∀ paths disk start_raw end_raw f,
     disk !! PriceService._select_prices_path paths disk = Some f →
     as_csv f = inr [] →
     PriceService.get_prices paths disk start_raw end_raw = Return [])
  ∧ (∀ paths disk start_raw end_raw f row0 rows start end_,
       disk !! PriceService._select_prices_path paths disk = Some f →
       as_csv f = inr (row0 :: rows) →
       row_has row0 "Date" = true →
       row_has row0 "Price" = true →
       PriceService.parse_query_dates start_raw end_raw = Return (start, end_) →
       let outcomes := classify start end_ <$> row0 :: rows in
       let invalid_date := count is_invalid_date outcomes in
       let invalid_price := count is_invalid_price outcomes in
       omap emitted outcomes = [] →
       (0 < invalid_date + invalid_price →
        PriceService.get_prices paths disk start_raw end_raw
        = Raise (ValidationError
                   ("No valid price rows found after parsing. Invalid dates: "
                    +:+ str_nat invalid_date +:+ ", invalid prices: "
                    +:+ str_nat invalid_price +:+ ".") 400))
       ∧ (invalid_date + invalid_price = 0 →
          PriceService.get_prices paths disk start_raw end_raw = Return []))
  ∧ (∀ paths disk f,
       disk !! events paths = Some f →
       as_csv f = inr [] →
       EventService.get_events paths disk = Return [])
  ∧ (∀ paths disk f row0 rows,
       disk !! events paths = Some f →
       as_csv f = inr (row0 :: rows) →
       row_has row0 "date" = true →
       row_has row0 "event" = true →
       let outcomes := EventSpec.classify (row_has row0 "category") <$> row0 :: rows in
       let invalid_date := count EventSpec.is_invalid_date outcomes in
       let invalid_event := count EventSpec.is_invalid_event outcomes in
       omap EventSpec.emitted outcomes = [] →
       (0 < invalid_date + invalid_event →
        EventService.get_events paths disk
        = Raise (ValidationError
                   ("No valid event rows found after parsing. Invalid dates: "
                    +:+ str_nat invalid_date +:+ ", invalid events: "
                    +:+ str_nat invalid_event +:+ ".") 400))
       ∧ (invalid_date + invalid_event = 0 →
          EventService.get_events paths disk = Return [])).
Proof.
  split; [|split; [|split]].
  - intros paths disk start_raw end_raw f Hf Hcsv.
    unfold PriceService.get_prices, CsvTable.read_rows, exists_. by rewrite Hf, Hcsv.
  - intros paths disk start_raw end_raw f row0 rows start end_ Hf Hcsv HD HP Hq
           outcomes invalid_date invalid_price Hempty.
    rewrite (get_prices_rows _ _ _ _ f row0 rows start end_) by done.
    cbn zeta. fold outcomes. rewrite Hempty. cbn [sort_by foldr nonempty_list].
    fold invalid_date invalid_price.
    split; intros Hn.
    + destruct invalid_date, invalid_price; simpl in *; (lia || done).
    + destruct invalid_date, invalid_price; simpl in *; (lia || done).
  - intros paths disk f Hf Hcsv.
    unfold EventService.get_events, CsvTable.read_rows, exists_. by rewrite Hf, Hcsv.
  - intros paths disk f row0 rows Hf Hcsv HD HE outcomes invalid_date invalid_event Hempty.
    rewrite (get_events_rows _ _ f row0 rows) by done.
    cbn zeta. fold outcomes. rewrite Hempty. cbn [sort_by foldr nonempty_list].
    fold invalid_date invalid_event.
    split; intros Hn.
    + destruct invalid_date, invalid_event; simpl in *; (lia || done).
    + destruct invalid_date, invalid_event; simpl in *; (lia || done).
Qed.

Lemma empty_output_rule_witness :
  PriceService.get_prices Examples.PATHS Examples.price_disk (Some "2020-01-02") None
  = Raise (ValidationError
             "No valid price rows found after parsing. Invalid dates: 1, invalid prices: 1."
             400)
  ∧ EventService.get_events Examples.PATHS Examples.bad_event_disk
    = Raise (ValidationError
               "No valid event rows found after parsing. Invalid dates: 1, invalid events: 1."
               400)
  ∧ PriceService.get_prices Examples.PATHS Examples.nan_disk (Some "2021-01-01") None
    = Return [].
Proof.
  split; [|split].
  - refine (proj1 (proj1 (proj2 empty_output_rule)
             Examples.PATHS Examples.price_disk (Some "2020-01-02") None
             (Examples.table Examples.price_rows) _ _ (Some (mk_date 2020 1 2)) None
             eq_refl eq_refl _ _ _ _) _); vm_compute; (reflexivity || lia).
  - refine (proj1 (proj2 (proj2 (proj2 empty_output_rule))
             Examples.PATHS Examples.bad_event_disk
             (Examples.table Examples.bad_event_rows) _ _
             eq_refl eq_refl _ _ _) _); vm_compute; (reflexivity || lia).
  - refine (proj2 (proj1 (proj2 empty_output_rule)
             Examples.PATHS Examples.nan_disk (Some "2021-01-01") None
             (Examples.table Examples.nan_rows) _ _ (Some (mk_date 2021 1 1)) None
             eq_refl eq_refl _ _ _ _) _); vm_compute; reflexivity.
Defined.

(* ===================================================================== *)
(** * Dictionaries *)
(* ===================================================================== *)

Lemma getitem_setitem_eq key v (d : dict) : getitem key (setitem key v d) = Some v.
Proof.
  induction d as [|[k w] d IH]; simpl.
  - by rewrite String.eqb_refl.
  - destruct (String.eqb k key) eqn:E; simpl; by rewrite E.
Qed.

Lemma getitem_setitem_ne key key' v (d : dict) :
  key' ≠ key → getitem key' (setitem key v d) = getitem key' d.
Proof.
  intros Hne%not_eq_sym%String.eqb_neq. induction d as [|[k w] d IH]; simpl.
  - by rewrite Hne.
  - destruct (String.eqb k key) eqn:E; simpl.
    + apply String.eqb_eq in E as ->. by rewrite Hne.
    + by rewrite IH.
Qed.

Lemma keys_setitem key v (d : dict) :
  contains key d = true → keys (setitem key v d) = keys d.
Proof.
  unfold contains, keys. induction d as [|[k w] d IH]; simpl; [done|].
  destruct (String.eqb k key); simpl; [done|].
  intros H. by rewrite IH.
Qed.

Lemma get_PyList_contains key (d : dict) l :
  get key d = PyList l → contains key d = true.
Proof. unfold get, contains. by destruct (getitem key d). Qed.

(* ===================================================================== *)
(** * ChangePointService *)
(* ===================================================================== *)

Import ChangePointSpec.

Lemma normalized_item_spec (cp : dict) (v : value) :
  fold_left (ChangePointService.copy_key cp) ChangePointService.optional_keys
            [("date", v)]
  = ("date", v)
    :: omap (λ key, pair key <$> getitem key cp) ChangePointService.optional_keys.
Proof.
  unfold ChangePointService.optional_keys, ChangePointService.copy_key.
  cbn [fold_left omap list_omap].
  destruct (getitem "mean_before" cp), (getitem "mean_after" cp),
    (getitem "impact_pct" cp), (getitem "notes" cp); reflexivity.
Qed.

Lemma entry_loop_cons_valid cp cps idx normalized members d :
  cp = PyDict members →
  DateParser.parse (ChangePointService.date_text (get "date" members)) = Return (Some d) →
  ChangePointService.entry_loop (cp :: cps) idx normalized
  = ChangePointService.entry_loop cps (S idx) (normalized ++ [normalized_entry members d]).
Proof.
  intros -> Hd. cbn [ChangePointService.entry_loop]. rewrite Hd.
  cbn [mbind result_bind]. by rewrite normalized_item_spec.
Qed.

Lemma entry_loop_cons_invalid cp cps idx normalized :
  entry_date cp = None →
  ChangePointService.entry_loop (cp :: cps) idx normalized = Raise (entry_error idx cp).
Proof.
  intros Hd. destruct cp as [| | | | | |members]; try done.
  cbn [ChangePointService.entry_loop]. simpl in Hd.
  rewrite parse_parsed, Hd. done.
Qed.

Lemma entry_date_Some cp d :
  entry_date cp = Some d →
  ∃ members, cp = PyDict members
             ∧ DateParser.parse (ChangePointService.date_text (get "date" members))
               = Return (Some d).
Proof.
  destruct cp as [| | | | | |members]; try done. simpl. intros Hd.
  exists members. split; [done|]. by rewrite parse_parsed, Hd.
Qed.

(** When every entry is accepted the loop returns, entry by entry, the
    normalised entries. *)
Lemma entry_loop_valid cps idx normalized :
  Forall (λ cp, is_Some (entry_date cp)) cps →
  ∃ items, ChangePointService.entry_loop cps idx normalized = Return (normalized ++ items)
           ∧ Forall2 normalizes cps items.
Proof.
  intros Hall. revert idx normalized.
  induction Hall as [|cp cps [d Hd] _ IH]; intros idx normalized.
  - exists []. by rewrite app_nil_r.
  - destruct (entry_date_Some _ _ Hd) as (members & -> & Hparse).
    destruct (IH (S idx) (normalized ++ [normalized_entry members d])) as (items & Hloop & Hitems).
    exists (normalized_entry members d :: items). split.
    + rewrite (entry_loop_cons_valid _ _ _ _ members d) by done.
      by rewrite Hloop, <- app_assoc.
    + constructor; [by exists members, d|done].
Qed.

(** The loop stops at the first entry that is not accepted, with the error
    of that entry and index. *)
Lemma entry_loop_first_invalid cps idx normalized (j : nat) cp :
  cps !! j = Some cp →
  entry_date cp = None →
  (∀ k cp', (k < j)%nat → cps !! k = Some cp' → is_Some (entry_date cp')) →
  ChangePointService.entry_loop cps idx normalized = Raise (entry_error (idx + j) cp).
Proof.
  revert idx normalized j.
  induction cps as [|cp0 cps IH]; intros idx normalized j Hj Hbad Hbefore; [done|].
  destruct j as [|j].
  - injection Hj as ->. rewrite Nat.add_0_r. by apply entry_loop_cons_invalid.
  - destruct (Hbefore O cp0) as [d Hd]; [lia|done|].
    destruct (entry_date_Some _ _ Hd) as (members & -> & Hparse).
    rewrite (entry_loop_cons_valid _ _ _ _ members d) by done.
    rewrite (IH (S idx) _ j); [by rewrite Nat.add_succ_r|done|done|].
    intros k cp' Hk Hcp'. apply (Hbefore (S k) cp'); [lia|done].
Qed.

(** Below an entry that is not accepted there is a first such entry. *)
Lemma first_invalid_entry (cps : list value) (i : nat) cp :
  cps !! i = Some cp →
  entry_date cp = None →
  ∃ (j : nat) cpj, (j ≤ i)%nat ∧ cps !! j = Some cpj ∧ entry_date cpj = None
           ∧ ∀ k cp', (k < j)%nat → cps !! k = Some cp' → is_Some (entry_date cp').
Proof.
  revert i. induction cps as [|cp0 cps IH]; intros i Hi Hbad; [done|].
  destruct (entry_date cp0) as [d|] eqn:Hd0.
  - destruct i as [|i]; [injection Hi as ->; congruence|].
    destruct (IH i Hi Hbad) as (j & cpj & Hle & Hj & Hbadj & Hbefore).
    exists (S j), cpj. split; [lia|]. split; [done|]. split; [done|].
    intros [|k] cp' Hk Hcp'.
    + injection Hcp' as <-. by rewrite Hd0.
    + apply (Hbefore k); [lia|done].
  - exists O, cp0. split; [lia|]. split; [done|]. split; [done|].
    intros k cp' Hk. lia.
Qed.

Lemma get_change_points_entries paths disk f payload cps :
  disk !! change_points paths = Some f →
  as_json f = inr (PyDict payload) →
  get "change_points" payload = PyList cps →
  ChangePointService.get_change_points paths disk
  = normalized ← ChangePointService.entry_loop cps O [];
    Return (setitem "change_points" (PyList (map PyDict normalized)) payload).
Proof.
  intros Hf Hjson Hcps. unfold ChangePointService.get_change_points.
  by rewrite Hf, Hjson, Hcps.
Qed.

(** C7 (as stated) fails: the entry at index 1 lacks a 'date', yet the
    failure does not name index 1: the entry at index 0 is rejected first,
    and the error names index 0. *)
Lemma date_error_names_first_entry :
  ∃ cps cp,
    get "change_points" Examples.bad_cp_document = PyList cps
    ∧ cps !! 1%nat = Some (PyDict cp)
    ∧ getitem "date" cp = None
    ∧ ChangePointService.get_change_points Examples.PATHS Examples.bad_cp_disk
      ≠ Raise (ChangePointService.date_required 1)
    ∧ ChangePointService.get_change_points Examples.PATHS Examples.bad_cp_disk
      = Raise (ChangePointService.date_required 0).
Proof.
  do 2 eexists. split; [reflexivity|]. split; [reflexivity|]. split; [reflexivity|].
  split; [vm_compute; discriminate|vm_compute; reflexivity].
Qed.

(** C7 (amended). For every change-point document (an object whose
    'change_points' is a list) in which the entry at index [i] is an object
    that lacks a 'date' field or has a 'date' that the Date Parser cannot
    parse, [get_change_points] fails and produces no output, even if every
    other entry is valid: the error is the schema error of the first index
    [j <= i] whose entry is not an object with a parsable date, and it names
    that index; it names [i] itself when every entry before [i] is an object
    with a parsable date. *)
Theorem unparsable_date_aborts paths disk f payload cps (i : nat) cp :
  disk !! change_points paths = Some f →
  as_json f = inr (PyDict payload) →
  get "change_points" payload = PyList cps →
  cps !! i = Some (PyDict cp) →
  getitem "date" cp = None
  ∨ DateParser.parse (ChangePointService.date_text (get "date" cp)) = Return None →
  (∃ (j : nat) cpj,
     (j ≤ i)%nat
     ∧ cps !! j = Some cpj
     ∧ entry_date cpj = None
     ∧ (∀ k cp', (k < j)%nat → cps !! k = Some cp' → is_Some (entry_date cp'))
     ∧ ChangePointService.get_change_points paths disk
       = Raise (match cpj with
                | PyDict _ => ChangePointService.date_required j
                | _ => ChangePointService.not_an_object j
                end))
  ∧ ((∀ k cp', (k < i)%nat → cps !! k = Some cp' → is_Some (entry_date cp')) →
     ChangePointService.get_change_points paths disk
     = Raise (ValidationError
                ("change_points[" +:+ str_nat i
                 +:+ "].date is required and must be a valid date") 400)).
Proof.
  intros Hf Hjson Hcps Hi Hdate.
  assert (Hbad : entry_date (PyDict cp) = None).
  { simpl. destruct Hdate as [Hnone|Hparse].
    - unfold get. by rewrite Hnone.
    - unfold parsed. by rewrite Hparse. }
  rewrite (get_change_points_entries _ _ f payload cps) by done.
  split.
  - destruct (first_invalid_entry cps i _ Hi Hbad) as (j & cpj & Hle & Hj & Hbadj & Hbefore).
    exists j, cpj. do 4 (split; [done|]).
    by rewrite (entry_loop_first_invalid cps O [] j cpj).
  - intros Hbefore.
    by rewrite (entry_loop_first_invalid cps O [] i (PyDict cp)).
Qed.

Lemma unparsable_date_aborts_witness :
  ChangePointService.get_change_points Examples.PATHS Examples.bad_cp_disk
  = Raise (ValidationError
             "change_points[0].date is required and must be a valid date" 400).
Proof.
  refine (proj2 (unparsable_date_aborts Examples.PATHS Examples.bad_cp_disk
                   (Examples.document (PyDict Examples.bad_cp_document))
                   Examples.bad_cp_document _ 0 [("date", PyStr "soon")]
                   eq_refl eq_refl eq_refl eq_refl (or_intror _)) _).
  - vm_compute. reflexivity.
  - intros k cp' Hk. lia.
Defined.

Lemma getitem_None_not_key key (d : dict) : key ∉ keys d → getitem key d = None.
Proof.
  unfold keys. induction d as [|[k w] d IH]; simpl; [done|].
  intros [Hne Hd]%not_elem_of_cons.
  apply not_eq_sym, String.eqb_neq in Hne as ->. by apply IH.
Qed.

Lemma keys_normalized_entry cp d :
  keys (normalized_entry cp d) `sublist_of` "date" :: ChangePointService.optional_keys.
Proof.
  unfold normalized_entry, ChangePointService.optional_keys, keys.
  cbn [omap list_omap].
  destruct (getitem "mean_before" cp), (getitem "mean_after" cp),
    (getitem "impact_pct" cp), (getitem "notes" cp); simpl;
    repeat first [apply sublist_nil | apply sublist_skip | apply sublist_cons].
Qed.

Lemma getitem_normalized_entry cp d key :
  key ∈ ChangePointService.optional_keys →
  getitem key (normalized_entry cp d) = getitem key cp.
Proof.
  unfold normalized_entry, ChangePointService.optional_keys.
  cbn [omap list_omap]. intros Hkey.
  repeat (apply elem_of_cons in Hkey as [->|Hkey];
          [destruct (getitem "mean_before" cp) eqn:E1,
             (getitem "mean_after" cp) eqn:E2,
             (getitem "impact_pct" cp) eqn:E3,
             (getitem "notes" cp) eqn:E4; simpl; congruence|]).
  by apply elem_of_nil in Hkey.
Qed.

(** A document all of whose entries are accepted is normalised entry by
    entry, and only its 'change_points' key is rebound. *)
Lemma get_change_points_valid paths disk f payload cps :
  disk !! change_points paths = Some f →
  as_json f = inr (PyDict payload) →
  get "change_points" payload = PyList cps →
  Forall (λ cp, is_Some (entry_date cp)) cps →
  ∃ entries,
    ChangePointService.get_change_points paths disk
    = Return (setitem "change_points" (PyList (map PyDict entries)) payload)
    ∧ Forall2 normalizes cps entries.
Proof.
  intros Hf Hjson Hcps Hall.
  destruct (entry_loop_valid cps O [] Hall) as (entries & Hloop & Hentries).
  exists entries. split; [|done].
  rewrite (get_change_points_entries _ _ f payload cps) by done.
  by rewrite Hloop.
Qed.

(** C8. For every valid change-point entry (an object whose 'date' parses),
    the normalised entry consists of exactly the canonical ISO date text
    followed by those of the keys mean_before, mean_after, impact_pct, notes
    that the entry has, in this fixed order, each with the entry's own value;
    every other key of the entry is dropped.  A document all of whose
    entries are valid is normalised entry by entry in this way. *)
Theorem entry_normalisation :
  (∀ (cp : dict) d idx normalized,
     DateParser.parse (ChangePointService.date_text (get "date" cp)) = Return (Some d) →
     ∃ entry,
       ChangePointService.entry_loop [PyDict cp] idx normalized
       = Return (normalized ++ [entry])
       ∧ entry = ("date", PyStr (isoformat d))
                 :: omap (λ key, pair key <$> getitem key cp)
                      ["mean_before"; "mean_after"; "impact_pct"; "notes"]
       ∧ getitem "date" entry = Some (PyStr (isoformat d))
       ∧ (∀ key, key ∈ ["mean_before"; "mean_after"; "impact_pct"; "notes"] →
                 getitem key entry = getitem key cp)
       ∧ (∀ key, key ∉ ["date"; "mean_before"; "mean_after"; "impact_pct"; "notes"] →
                 getitem key entry = None)
       ∧ keys entry `sublist_of`
           ["date"; "mean_before"; "mean_after"; "impact_pct"; "notes"])
  ∧ (∀ paths disk f payload cps,
       disk !! change_points paths = Some f →
       as_json f = inr (PyDict payload) →
       get "change_points" payload = PyList cps →
       Forall (λ cp, is_Some (entry_date cp)) cps →
       ∃ entries,
         ChangePointService.get_change_points paths disk
         = Return (setitem "change_points" (PyList (map PyDict entries)) payload)
         ∧ Forall2 normalizes cps entries).
Proof.
  split.
  - intros cp d idx normalized Hd. exists (normalized_entry cp d).
    split; [by rewrite (entry_loop_cons_valid _ _ _ _ cp d)|].
    split; [done|]. split; [by unfold normalized_entry; simpl|].
    split; [intros key Hkey; by apply getitem_normalized_entry|].
    split; [|apply keys_normalized_entry].
    intros key Hkey. apply getitem_None_not_key. intros Hin. apply Hkey.
    eapply elem_of_sublist; [exact Hin|apply keys_normalized_entry].
  - intros paths disk f payload cps. apply get_change_points_valid.
Qed.

Lemma entry_normalisation_witness :
  ∃ entry,
    ChangePointService.entry_loop [PyDict Examples.cp_entry] 0 []
    = Return ([] ++ [entry])
    ∧ entry = [("date", PyStr "2021-03-01"); ("impact_pct", PyInt 5)]
    ∧ getitem "unexpected" entry = None.
Proof.
  destruct (proj1 entry_normalisation Examples.cp_entry (mk_date 2021 3 1) 0%nat [])
    as (entry & Hloop & Hentry & _ & _ & Hdrop & _).
  - vm_compute. reflexivity.
  - exists entry. split; [exact Hloop|]. split; [exact Hentry|].
    apply Hdrop. intros Hin.
    repeat (apply elem_of_cons in Hin as [Hin|Hin]; [discriminate Hin|]).
    by apply elem_of_nil in Hin.
Defined.

(** C9. For every well-formed change-point document (an object whose
    'change_points' is a list of objects with parsable dates),
    [get_change_points] returns a document with the same top-level keys in
    the same order, in which every key other than 'change_points' has the
    value it has in the input, and 'change_points' is bound to the list of
    normalised entries. *)
Theorem top_level_keys_preserved paths disk f payload cps :
  disk !! change_points paths = Some f →
  as_json f = inr (PyDict payload) →
  get "change_points" payload = PyList cps →
  Forall (λ cp, is_Some (entry_date cp)) cps →
  ∃ out entries,
    ChangePointService.get_change_points paths disk = Return out
    ∧ keys out = keys payload
    ∧ (∀ key, key ≠ "change_points" → getitem key out = getitem key payload)
    ∧ getitem "change_points" out = Some (PyList (map PyDict entries))
    ∧ Forall2 normalizes cps entries.
Proof.
  intros Hf Hjson Hcps Hall.
  destruct (get_change_points_valid paths disk f payload cps Hf Hjson Hcps Hall)
    as (entries & Hget & Hentries).
  exists (setitem "change_points" (PyList (map PyDict entries)) payload), entries.
  split; [done|].
  split; [apply keys_setitem; by eapply get_PyList_contains|].
  split; [intros key Hkey; by apply getitem_setitem_ne|].
  split; [apply getitem_setitem_eq|done].
Qed.

Lemma top_level_keys_preserved_witness :
  ∃ out entries,
    ChangePointService.get_change_points Examples.PATHS Examples.cp_disk = Return out
    ∧ keys out = keys Examples.cp_document
    ∧ (∀ key, key ≠ "change_points" → getitem key out = getitem key Examples.cp_document)
    ∧ getitem "change_points" out = Some (PyList (map PyDict entries))
    ∧ Forall2 normalizes [PyDict Examples.cp_entry] entries.
Proof.
  apply (top_level_keys_preserved Examples.PATHS Examples.cp_disk
           (Examples.document (PyDict Examples.cp_document))
           Examples.cp_document [PyDict Examples.cp_entry]); try reflexivity.
  repeat constructor. exists (mk_date 2021 3 1). vm_compute. reflexivity.
Defined.

(* ===================================================================== *)
(** * Further properties of the date parser *)
(* ===================================================================== *)

Lemma new_date_valid y m d dd : new_date y m d = Return dd → valid_date dd = true.
Proof.
  unfold new_date, valid_date. case_match eqn:Hv; [|done]. by intros [= <-].
Qed.

Lemma fromisoformat_valid text dt :
  fromisoformat text = Return dt → valid_date (dt_date dt) = true.
Proof.
  unfold fromisoformat.
  destruct (_ ≫= _) as [[[[y m] d] [[[[hh mm] ss] ff] tz]]|]; [|done].
  destruct (new_date y m d) as [dd|e] eqn:Hd; [|done]. cbn [mbind result_bind].
  case_match; [|done]. intros [= <-]. simpl. by eapply new_date_valid.
Qed.

Lemma strptime_valid text format dt :
  strptime text format = Return dt → valid_date (dt_date dt) = true.
Proof.
  unfold strptime.
  destruct (compile format) as [items|]; [|done].
  destruct (match_items items text) as [|[groups [|c rest]] more]; try done.
  destruct (fold_left _ _ _) as [[y m] d].
  destruct (new_date y m d) as [dd|e] eqn:Hd; [|done]. cbn [mbind result_bind].
  intros [= <-]. simpl. by eapply new_date_valid.
Qed.

Lemma try_formats_valid text fmts d :
  DateParser.try_formats text fmts = Return (Some d) → valid_date d = true.
Proof.
  induction fmts as [|fmt rest IH]; [done|]. cbn [DateParser.try_formats].
  destruct (strptime text fmt) as [dt|[|msg code]] eqn:Hs; cbn; [|exact IH|done].
  intros [= <-]. by eapply strptime_valid.
Qed.

Lemma parse_Some_valid value d :
  DateParser.parse value = Return (Some d) → valid_date d = true.
Proof.
  destruct value as [v|]; [|done]. rewrite parse_Some.
  destruct (nonempty (strip v)); [|done].
  destruct (fromisoformat _) as [dt|[|msg code]] eqn:Hiso; [| |done].
  - intros [= <-]. by eapply fromisoformat_valid.
  - apply try_formats_valid.
Qed.

(** X1. Every date that [DateParser.parse] returns is a date of the
    calendar: year 1 to 9999, month 1 to 12, day within the month's length
    (29 February only in leap years). *)
Theorem parse_valid_date value d :
  DateParser.parse value = Return (Some d) → valid_date d = true.
Proof. apply parse_Some_valid. Qed.

Lemma parse_valid_date_witness :
  valid_date (mk_date 2020 2 29) = true
  ∧ DateParser.parse (Some "2021-02-29") = Return None
  ∧ DateParser.parse (Some "31/04/2020") = Return None.
Proof.
  split; [|split; vm_compute; reflexivity].
  apply (parse_valid_date (Some "29-Feb-20") (mk_date 2020 2 29)).
  vm_compute. reflexivity.
Defined.

(* ===================================================================== *)
(** * Failures of the services *)
(* ===================================================================== *)

Lemma parse_query_date_cases name raw :
  PriceService._parse_query_date name raw
  = match raw with
    | None => Return None
    | Some r =>
        if nonempty (strip r)
        then match parsed (Some (strip r)) with
             | Some d => Return (Some d)
             | None =>
                 Raise (ValidationError
                          ("Invalid '" +:+ name +:+ "' date '" +:+ strip r
                           +:+ "'. Use YYYY-MM-DD (recommended).") 400)
             end
        else Return None
    end.
Proof.
  destruct raw as [r|]; [|done]. unfold PriceService._parse_query_date.
  destruct (nonempty (strip r)); [|done]. cbn [negb].
  rewrite parse_parsed. cbn [mbind result_bind]. by destruct (parsed _).
Qed.

Lemma parse_query_date_Raise name raw e :
  PriceService._parse_query_date name raw = Raise e →
  ∃ message, e = ValidationError message 400.
Proof.
  rewrite parse_query_date_cases. destruct raw as [r|]; [|done].
  destruct (nonempty _); [|done]. destruct (parsed _); [done|].
  intros [= <-]. by eexists.
Qed.

Lemma parse_query_dates_Raise start_raw end_raw e :
  PriceService.parse_query_dates start_raw end_raw = Raise e →
  ∃ message, e = ValidationError message 400.
Proof.
  unfold PriceService.parse_query_dates.
  destruct (PriceService._parse_query_date "start" start_raw) as [start|e1] eqn:Hs;
    cbn [mbind result_bind]; [|intros [= <-]; by eapply parse_query_date_Raise].
  destruct (PriceService._parse_query_date "end" end_raw) as [end_|e2] eqn:He;
    cbn [mbind result_bind]; [|intros [= <-]; by eapply parse_query_date_Raise].
  destruct start as [s|], end_ as [e'|]; try done.
  destruct (date_lt e' s); [|done]. intros [= <-]. by eexists.
Qed.

(** [get_prices], case by case. *)
Lemma get_prices_cases paths disk start_raw end_raw :
  PriceService.get_prices paths disk start_raw end_raw
  = match disk !! PriceService._select_prices_path paths disk with
    | None => Raise (ValidationError "brent_prices.csv or BrentOilPrices.csv not found" 404)
    | Some f =>
        match as_csv f with
        | inl exc => Raise (ValidationError ("Failed to read CSV: " +:+ exc) 400)
        | inr [] => Return []
        | inr (row0 :: rows) =>
            if row_has row0 "Date" && row_has row0 "Price"
            then match PriceService.parse_query_dates start_raw end_raw with
                 | Raise e => Raise e
                 | Return (start, end_) =>
                     let os := classify start end_ <$> row0 :: rows in
                     let payload := sort_by PriceService.date (omap emitted os) in
                     if nonempty_list payload then Return payload
                     else if ((count is_invalid_date os =? 0)
                              && (count is_invalid_price os =? 0))%nat
                          then Return []
                          else Raise (PriceService.no_valid_rows
                                        (count is_invalid_date os)
                                        (count is_invalid_price os))
                 end
            else Raise (ValidationError "Expected columns: Date, Price" 400)
        end
    end.
Proof.
  destruct (disk !! PriceService._select_prices_path paths disk) as [f|] eqn:Hf;
    [|by unfold PriceService.get_prices, exists_; rewrite Hf].
  destruct (as_csv f) as [exc|[|row0 rows]] eqn:Hcsv;
    [by unfold PriceService.get_prices, CsvTable.read_rows, exists_; rewrite Hf, Hcsv..|].
  destruct (row_has row0 "Date") eqn:HD, (row_has row0 "Price") eqn:HP; cbn [andb];
    [|by unfold PriceService.get_prices, CsvTable.read_rows, exists_;
         rewrite Hf, Hcsv; cbn; rewrite HD, ?HP..].
  destruct (PriceService.parse_query_dates start_raw end_raw) as [[start end_]|e] eqn:Hq.
  - by apply (get_prices_rows _ _ _ _ f).
  - unfold PriceService.get_prices, CsvTable.read_rows, exists_.
    rewrite Hf, Hcsv. cbn. by rewrite HD, HP, Hq.
Qed.

(** [get_events], case by case. *)
Lemma get_events_cases paths disk :
  EventService.get_events paths disk
  = match disk !! events paths with
    | None => Raise (ValidationError "events.csv not found" 404)
    | Some f =>
        match as_csv f with
        | inl exc => Raise (ValidationError ("Failed to read CSV: " +:+ exc) 400)
        | inr [] => Return []
        | inr (row0 :: rows) =>
            if row_has row0 "date" && row_has row0 "event"
            then
              let os := EventSpec.classify (row_has row0 "category") <$> row0 :: rows in
              let payload := sort_by EventService.date (omap EventSpec.emitted os) in
              if nonempty_list payload then Return payload
              else if ((count EventSpec.is_invalid_date os =? 0)
                       && (count EventSpec.is_invalid_event os =? 0))%nat
                   then Return []
                   else Raise (EventService.no_valid_rows
                                 (count EventSpec.is_invalid_date os)
                                 (count EventSpec.is_invalid_event os))
            else Raise (ValidationError "Expected columns: date, event" 400)
        end
    end.
Proof.
  destruct (disk !! events paths) as [f|] eqn:Hf;
    [|by unfold EventService.get_events, exists_; rewrite Hf].
  destruct (as_csv f) as [exc|[|row0 rows]] eqn:Hcsv;
    [by unfold EventService.get_events, CsvTable.read_rows, exists_; rewrite Hf, Hcsv..|].
  destruct (row_has row0 "date") eqn:HD, (row_has row0 "event") eqn:HE; cbn [andb];
    [|by unfold EventService.get_events, CsvTable.read_rows, exists_;
         rewrite Hf, Hcsv; cbn; rewrite HD, ?HE..].
  by apply (get_events_rows _ _ f).
Qed.







(* ===================================================================== *)
(** * app.py: what the endpoints answer *)
(* ===================================================================== *)


(* ===================================================================== *)
(** * ISO dates as texts *)
(* ===================================================================== *)

Lemma digit_cases (k : Z) :
  (0 <= k <= 9)%Z →
  k = 0%Z ∨ k = 1%Z ∨ k = 2%Z ∨ k = 3%Z ∨ k = 4%Z
  ∨ k = 5%Z ∨ k = 6%Z ∨ k = 7%Z ∨ k = 8%Z ∨ k = 9%Z.
Proof. lia. Qed.

Ltac by_digit k H :=
  destruct (digit_cases k H) as [->|[->|[->|[->|[->|[->|[->|[->|[->| ->]]]]]]]]];
  vm_compute; reflexivity.

Ltac div_lia := Z.div_mod_to_equations; lia.

Lemma is_digit_digit_char k : (0 <= k <= 9)%Z → is_digit (digit_char k) = true.
Proof. intros H. by_digit k H. Qed.

Lemma digit_val_digit_char k :
  (0 <= k <= 9)%Z → Z.of_N (digit_val (digit_char k)) = k.
Proof. intros H. by_digit k H. Qed.

Lemma ord_digit_char k : (0 <= k <= 9)%Z → Z.of_N (ord (digit_char k)) = (48 + k)%Z.
Proof. intros H. by_digit k H. Qed.

Lemma iso_char_digit_char k : (0 <= k <= 9)%Z → iso_char (digit_char k) = true.
Proof. intros H. by_digit k H. Qed.

Lemma elem_of_decimal_digits k : (0 <= k <= 9)%Z → In k decimal_digits.
Proof.
  intros H.
  destruct (digit_cases k H) as [->|[->|[->|[->|[->|[->|[->|[->|[->| ->]]]]]]]]];
    unfold decimal_digits; simpl; tauto.
Qed.

Lemma zfill_4 y : (0 <= y <= 9999)%Z → zfill 4 y = digits4 y.
Proof.
  intros Hy.
  assert (Hall :
    forallb (λ a, forallb (λ b, forallb (λ c, forallb (λ d,
      String.eqb (zfill 4 (1000 * a + 100 * b + 10 * c + d))
                 (String (digit_char a) (String (digit_char b)
                    (String (digit_char c) (String (digit_char d) EmptyString)))))
      decimal_digits) decimal_digits) decimal_digits) decimal_digits = true)
    by (vm_compute; reflexivity).
  assert (Ha : In (y / 1000)%Z decimal_digits)
    by (clear -Hy; apply elem_of_decimal_digits; div_lia).
  assert (Hb : In (y / 100 mod 10)%Z decimal_digits)
    by (clear -Hy; apply elem_of_decimal_digits; div_lia).
  assert (Hc : In (y mod 100 / 10)%Z decimal_digits)
    by (clear -Hy; apply elem_of_decimal_digits; div_lia).
  assert (Hd : In (y mod 100 mod 10)%Z decimal_digits)
    by (clear -Hy; apply elem_of_decimal_digits; div_lia).
  rewrite forallb_forall in Hall. specialize (Hall _ Ha).
  rewrite forallb_forall in Hall. specialize (Hall _ Hb).
  rewrite forallb_forall in Hall. specialize (Hall _ Hc).
  rewrite forallb_forall in Hall. specialize (Hall _ Hd).
  apply String.eqb_eq in Hall. unfold digits4, digits2. rewrite <- Hall.
  f_equal. clear. div_lia.
Qed.

Lemma zfill_2 n : (0 <= n <= 99)%Z → zfill 2 n = digits2 n.
Proof.
  intros Hn.
  assert (Hall :
    forallb (λ a, forallb (λ b,
      String.eqb (zfill 2 (10 * a + b))
                 (String (digit_char a) (String (digit_char b) EmptyString)))
      decimal_digits) decimal_digits = true)
    by (vm_compute; reflexivity).
  assert (Ha : In (n / 10)%Z decimal_digits)
    by (clear -Hn; apply elem_of_decimal_digits; div_lia).
  assert (Hb : In (n mod 10)%Z decimal_digits)
    by (clear -Hn; apply elem_of_decimal_digits; div_lia).
  rewrite forallb_forall in Hall. specialize (Hall _ Ha).
  rewrite forallb_forall in Hall. specialize (Hall _ Hb).
  apply String.eqb_eq in Hall. unfold digits2. rewrite <- Hall.
  f_equal. clear. div_lia.
Qed.

Lemma parse_digits_2 n rest :
  (0 <= n <= 99)%Z → parse_digits 2 0 (digits2 n +:+ rest) = Some (n, rest).
Proof.
  intros Hn. unfold digits2. simpl.
  rewrite !is_digit_digit_char, !digit_val_digit_char by div_lia.
  do 2 f_equal. div_lia.
Qed.

Lemma parse_digits_4 y rest :
  (0 <= y <= 9999)%Z → parse_digits 4 0 (digits4 y +:+ rest) = Some (y, rest).
Proof.
  intros Hy. unfold digits4, digits2. simpl.
  rewrite !is_digit_digit_char, !digit_val_digit_char by div_lia.
  do 2 f_equal. div_lia.
Qed.

Lemma valid_date_bounds d :
  valid_date d = true →
  (1 <= year d <= 9999 ∧ 1 <= month d <= 12 ∧ 1 <= day d <= 31)%Z.
Proof.
  unfold valid_date, days_in_month. intros H.
  repeat (apply andb_prop in H as [H ?]).
  repeat case_match; lia.
Qed.

Lemma isoformat_digits d :
  valid_date d = true →
  isoformat d
  = digits4 (year d) +:+ "-" +:+ digits2 (month d) +:+ "-" +:+ digits2 (day d).
Proof.
  intros (Hy & Hm & Hd)%valid_date_bounds. unfold isoformat.
  by rewrite zfill_4, !zfill_2 by lia.
Qed.

Lemma all_chars_isoformat d : valid_date d = true → all_chars iso_char (isoformat d) = true.
Proof.
  intros Hv. rewrite isoformat_digits by done.
  apply valid_date_bounds in Hv as (Hy & Hm & Hd).
  unfold digits4, digits2. simpl.
  rewrite !iso_char_digit_char by div_lia. reflexivity.
Qed.

Lemma iso_char_plain c :
  iso_char c = true → isspace c = false ∧ Ascii.eqb c "Z" = false.
Proof.
  destruct c as [[] [] [] [] [] [] [] []]; vm_compute; intros H; (done || discriminate).
Qed.

Lemma lstrip_all_chars s :
  all_chars iso_char s = true → lstrip_with isspace s = s.
Proof.
  destruct s as [|c s]; [done|]. simpl. intros [Hc _]%andb_prop.
  by apply iso_char_plain in Hc as [-> _].
Qed.

Lemma rstrip_all_chars s :
  all_chars iso_char s = true → rstrip_with isspace s = s.
Proof.
  induction s as [|c s IH]; [done|]. simpl. intros [Hc Hs]%andb_prop.
  rewrite IH by done. apply iso_char_plain in Hc as [-> _]. by destruct s.
Qed.

Lemma strip_all_chars s : all_chars iso_char s = true → strip s = s.
Proof. intros H. unfold strip. by rewrite lstrip_all_chars, rstrip_all_chars. Qed.

Lemma replace_all_chars new s :
  all_chars iso_char s = true → replace "Z" new s = s.
Proof.
  induction s as [|c s IH]; [done|]. simpl. intros [Hc Hs]%andb_prop.
  apply iso_char_plain in Hc as [_ ->]. by rewrite IH.
Qed.

Lemma new_date_of_valid d :
  valid_date d = true → new_date (year d) (month d) (day d) = Return d.
Proof. unfold valid_date, new_date. intros ->. by destruct d. Qed.

Arguments digits2 : simpl never.
Arguments digits4 : simpl never.
Arguments parse_digits : simpl never.

Lemma fromisoformat_isoformat d :
  valid_date d = true →
  fromisoformat (isoformat d) = Return (mk_datetime d 0 0 0 0 None).
Proof.
  intros Hv. rewrite isoformat_digits by done.
  pose proof (valid_date_bounds _ Hv) as (Hy & Hm & Hd).
  unfold fromisoformat.
  rewrite parse_digits_4 by lia. simpl.
  change ("" +:+ ?s) with s.
  rewrite parse_digits_2 by lia. simpl.
  change ("" +:+ ?s) with s.
  change (digits2 (day d)) with (digits2 (day d) +:+ "").
  rewrite parse_digits_2 by lia. simpl.
  rewrite new_date_of_valid by done. reflexivity.
Qed.

Lemma parse_isoformat d :
  valid_date d = true → DateParser.parse (Some (isoformat d)) = Return (Some d).
Proof.
  intros Hv. rewrite parse_Some.
  rewrite strip_all_chars by by apply all_chars_isoformat.
  rewrite replace_all_chars by by apply all_chars_isoformat.
  rewrite fromisoformat_isoformat by done.
  rewrite isoformat_digits by done. reflexivity.
Qed.

(** X4. Round trip through the canonical text: for every date of the
    calendar, parsing its ISO rendering gives the date back; so every date
    that [parse] returns, from whatever format, is parsed again from the
    text the services emit for it. *)
Theorem parse_isoformat_roundtrip :
  (∀ d, valid_date d = true → DateParser.parse (Some (isoformat d)) = Return (Some d))
  ∧ (∀ value d,
       DateParser.parse value = Return (Some d) →
       DateParser.parse (Some (isoformat d)) = Return (Some d)).
Proof.
  split; [exact parse_isoformat|].
  intros value d Hd. by apply parse_isoformat, (parse_Some_valid value).
Qed.

Lemma parse_isoformat_roundtrip_witness :
  isoformat (mk_date 1987 5 20) = "1987-05-20"
  ∧ DateParser.parse (Some (isoformat (mk_date 1987 5 20)))
    = Return (Some (mk_date 1987 5 20)).
Proof.
  split; [reflexivity|].
  apply (proj2 parse_isoformat_roundtrip (Some "20-May-87")). vm_compute. reflexivity.
Defined.

(* ===================================================================== *)
(** * The sort: order and stability *)
(* ===================================================================== *)

Lemma string_leb_refl s : String.leb s s = true.
Proof.
  unfold String.leb. pose proof (String.compare_antisym s s) as H.
  by destruct (String.compare s s).
Qed.

Lemma string_leb_trans s1 s2 s3 :
  String.leb s1 s2 = true → String.leb s2 s3 = true → String.leb s1 s3 = true.
Proof.
  unfold String.leb. revert s2 s3.
  induction s1 as [|c1 s1 IH]; intros [|c2 s2] [|c3 s3]; simpl; try done.
  unfold Ascii.compare.
  destruct (N.compare_spec (N_of_ascii c1) (N_of_ascii c2)) as [H12|H12|H12];
    destruct (N.compare_spec (N_of_ascii c2) (N_of_ascii c3)) as [H23|H23|H23];
    destruct (N.compare_spec (N_of_ascii c1) (N_of_ascii c3)) as [H13|H13|H13];
    try done; try lia.
  apply IH.
Qed.

Lemma string_leb_false s1 s2 : String.leb s1 s2 = false → String.leb s2 s1 = true.
Proof. intros H. destruct (String.leb_total s1 s2) as [H'|H']; congruence. Qed.

Section sort_properties.
Context {A : Type} (key : A → string).

Lemma insert_by_Forall (P : A → Prop) x l :
  P x → Forall P l → Forall P (insert_by key x l).
Proof.
  intros Hx Hl. induction Hl as [|y l Hy Hl IH]; simpl; [by repeat constructor|].
  case_match; by repeat constructor.
Qed.

Lemma insert_by_sorted x l :
  StronglySorted (key_le key) l → StronglySorted (key_le key) (insert_by key x l).
Proof.
  induction 1 as [|y l Hl IH Hy]; simpl; [by repeat constructor|].
  destruct (String.leb (key x) (key y)) eqn:Hxy.
  - constructor; [by constructor|]. constructor; [done|].
    eapply Forall_impl; [exact Hy|]. intros z Hz.
    by eapply string_leb_trans.
  - constructor; [done|]. apply insert_by_Forall; [|done].
    by apply string_leb_false.
Qed.

Lemma sort_by_sorted l : StronglySorted (key_le key) (sort_by key l).
Proof.
  induction l as [|x l IH]; simpl; [constructor|]. by apply insert_by_sorted.
Qed.

Lemma filter_insert_by k x l :
  filter (λ a, key a = k) (insert_by key x l) = filter (λ a, key a = k) (x :: l).
Proof.
  induction l as [|y l IH]; simpl; [done|].
  destruct (String.leb (key x) (key y)) eqn:Hxy; [done|].
  rewrite filter_cons, IH, !filter_cons.
  destruct (decide (key y = k)) as [Hy|Hy], (decide (key x = k)) as [Hx|Hx]; try done.
  rewrite Hx, <- Hy, string_leb_refl in Hxy. discriminate.
Qed.

Lemma sort_by_stable k l :
  filter (λ a, key a = k) (sort_by key l) = filter (λ a, key a = k) l.
Proof.
  induction l as [|x l IH]; simpl; [done|].
  by rewrite filter_insert_by, !filter_cons, IH.
Qed.

End sort_properties.

(* ===================================================================== *)
(** * The order of ISO texts is the order of dates *)
(* ===================================================================== *)

Lemma compare_digit_char a b :
  (0 <= a <= 9)%Z → (0 <= b <= 9)%Z →
  Ascii.compare (digit_char a) (digit_char b) = (a ?= b)%Z.
Proof.
  intros Ha Hb. unfold Ascii.compare. fold (ord (digit_char a)) (ord (digit_char b)).
  rewrite <- N2Z.inj_compare, !ord_digit_char by done.
  apply Z.add_compare_mono_l.
Qed.

Lemma compare_digits2 a b s t :
  (0 <= a <= 99)%Z → (0 <= b <= 99)%Z →
  String.compare (digits2 a +:+ s) (digits2 b +:+ t)
  = match (a ?= b)%Z with Eq => String.compare s t | c => c end.
Proof.
  intros Ha Hb. unfold digits2.
  change (String.compare (String ?c1 (String ?c2 "") +:+ s)
                         (String ?d1 (String ?d2 "") +:+ t))
    with (match Ascii.compare c1 d1 with
          | Eq => match Ascii.compare c2 d2 with
                  | Eq => String.compare s t
                  | Lt => Lt
                  | Gt => Gt
                  end
          | Lt => Lt
          | Gt => Gt
          end).
  rewrite !compare_digit_char by div_lia.
  destruct (Z.compare_spec (a / 10) (b / 10));
    destruct (Z.compare_spec (a mod 10) (b mod 10));
    destruct (Z.compare_spec a b); try done; div_lia.
Qed.

Lemma compare_digits4 a b s t :
  (0 <= a <= 9999)%Z → (0 <= b <= 9999)%Z →
  String.compare (digits4 a +:+ s) (digits4 b +:+ t)
  = match (a ?= b)%Z with Eq => String.compare s t | c => c end.
Proof.
  intros Ha Hb. unfold digits4.
  change (String.compare (String ?c1 (String ?c2 ?u) +:+ s)
                         (String ?d1 (String ?d2 ?v) +:+ t))
    with (match Ascii.compare c1 d1 with
          | Eq => match Ascii.compare c2 d2 with
                  | Eq => String.compare (u +:+ s) (v +:+ t)
                  | Lt => Lt
                  | Gt => Gt
                  end
          | Lt => Lt
          | Gt => Gt
          end).
  rewrite !compare_digit_char, compare_digits2 by div_lia.
  destruct (Z.compare_spec (a / 1000) (b / 1000));
    destruct (Z.compare_spec (a / 100 mod 10) (b / 100 mod 10));
    destruct (Z.compare_spec (a mod 100) (b mod 100));
    destruct (Z.compare_spec a b); try done; div_lia.
Qed.

Lemma compare_isoformat a b :
  valid_date a = true → valid_date b = true →
  String.compare (isoformat a) (isoformat b)
  = match (year a ?= year b)%Z with
    | Eq => match (month a ?= month b)%Z with
            | Eq => (day a ?= day b)%Z
            | c => c
            end
    | c => c
    end.
Proof.
  intros Ha Hb. rewrite !isoformat_digits by done.
  apply valid_date_bounds in Ha as (? & ? & ?), Hb as (? & ? & ?).
  rewrite compare_digits4 by lia.
  change (String.compare ("-" +:+ ?s) ("-" +:+ ?t)) with (String.compare s t).
  rewrite compare_digits2 by lia.
  change (String.compare ("-" +:+ ?s) ("-" +:+ ?t)) with (String.compare s t).
  change (digits2 (day a)) with (digits2 (day a) +:+ "").
  change (digits2 (day b)) with (digits2 (day b) +:+ "").
  rewrite compare_digits2 by lia.
  change (String.compare "" "") with Eq.
  by destruct (day a ?= day b)%Z.
Qed.

Lemma leb_isoformat a b :
  valid_date a = true → valid_date b = true →
  String.leb (isoformat a) (isoformat b) = date_le a b.
Proof.
  intros Ha Hb. unfold String.leb. rewrite compare_isoformat by done.
  unfold date_le, date_lt.
  destruct (Z.compare_spec (year a) (year b));
    destruct (Z.compare_spec (month a) (month b));
    destruct (Z.compare_spec (day a) (day b));
    simpl; symmetry;
    rewrite ?negb_true_iff, ?negb_false_iff, ?orb_true_iff, ?orb_false_iff,
      ?andb_true_iff, ?andb_false_iff, ?Z.ltb_lt, ?Z.ltb_ge, ?Z.eqb_eq, ?Z.eqb_neq;
    lia.
Qed.

(* ===================================================================== *)
(** * The payloads are in date order *)
(* ===================================================================== *)

Lemma sorted_chronological {A} (key : A → string) (l : list A) :
  Forall (λ a, iso_text (key a)) l →
  StronglySorted (key_le key) l →
  StronglySorted (λ a b, chronological (key a) (key b)) l.
Proof.
  intros Hiso Hsorted. induction Hsorted as [|a l Hl IH Ha]; [constructor|].
  apply Forall_cons in Hiso as [(da & Hda & Hka) Hiso].
  constructor; [by apply IH|].
  rewrite Forall_forall in Ha, Hiso. apply Forall_forall. intros b Hb.
  destruct (Hiso b Hb) as (db & Hdb & Hkb).
  exists da, db. rewrite Hka, Hkb.
  split; [by apply parse_isoformat|]. split; [by apply parse_isoformat|].
  rewrite <- leb_isoformat, <- Hka, <- Hkb by done. by apply Ha.
Qed.

Lemma prices_payload_iso paths disk start_raw end_raw payload :
  PriceService.get_prices paths disk start_raw end_raw = Return payload →
  Forall (λ it, iso_text (PriceService.date it)) payload.
Proof.
  intros (f & rows & Hf & Hcsv & Hrows)%get_prices_Return_inv.
  destruct Hrows as [[_ ->]|(start & end_ & _ & ->)]; [constructor|].
  apply Forall_forall. intros it Hit.
  apply elem_of_sort_by, list_elem_of_omap in Hit as (o & Ho & Hem).
  apply list_elem_of_fmap in Ho as (row & -> & Hrow).
  destruct (classify start end_ row) eqn:Hc; try done. injection Hem as ->.
  apply classify_Emitted in Hc as (_ & d & Hd & Hdate & _).
  exists d. split; [by eapply parse_Some_valid|done].
Qed.

Lemma events_payload_iso paths disk payload :
  EventService.get_events paths disk = Return payload →
  Forall (λ it, iso_text (EventService.date it)) payload.
Proof.
  intros (f & rows & Hf & Hcsv & Hrows)%get_events_Return_inv.
  destruct Hrows as [[_ ->]|(row0 & rows' & _ & ->)]; [constructor|].
  apply Forall_forall. intros it Hit.
  apply elem_of_sort_by, list_elem_of_omap in Hit as (o & Ho & Hem).
  apply list_elem_of_fmap in Ho as (row & -> & Hrow).
  destruct (EventSpec.classify _ row) eqn:Hc; try done. injection Hem as ->.
  apply event_classify_Emitted in Hc as ((d & Hd & Hdate) & _).
  exists d. split; [by eapply parse_Some_valid|done].
Qed.

(** X5. The payloads of [get_prices] and [get_events] are in ascending
    date order: every record's date text is the ISO rendering of a date of
    the calendar, and of two records the earlier in the list has the earlier
    or the same date -- the order of the texts, by which the code sorts, is
    the order of the dates. *)
Theorem payloads_in_date_order paths disk :
  (∀ start_raw end_raw payload,
     PriceService.get_prices paths disk start_raw end_raw = Return payload →
     Forall (λ it, iso_text (PriceService.date it)) payload
     ∧ StronglySorted
         (λ a b, chronological (PriceService.date a) (PriceService.date b)) payload)
  ∧ (∀ payload,
       EventService.get_events paths disk = Return payload →
       Forall (λ it, iso_text (EventService.date it)) payload
       ∧ StronglySorted
           (λ a b, chronological (EventService.date a) (EventService.date b)) payload).
Proof.
  split.
  - intros start_raw end_raw payload Hget.
    pose proof (prices_payload_iso _ _ _ _ _ Hget) as Hiso. split; [done|].
    apply sorted_chronological; [done|].
    apply get_prices_Return_inv in Hget as (f & rows & _ & _ & Hrows).
    destruct Hrows as [[_ ->]|(start & end_ & _ & ->)]; [constructor|].
    apply sort_by_sorted.
  - intros payload Hget.
    pose proof (events_payload_iso _ _ _ Hget) as Hiso. split; [done|].
    apply sorted_chronological; [done|].
    apply get_events_Return_inv in Hget as (f & rows & _ & _ & Hrows).
    destruct Hrows as [[_ ->]|(row0 & rows' & _ & ->)]; [constructor|].
    apply sort_by_sorted.
Qed.

Lemma payloads_in_date_order_witness :
  StronglySorted
    (λ a b, chronological (EventService.date a) (EventService.date b))
    [{| EventService.date := "2019-06-01";
        EventService.event := "Sanctions";
        EventService.category := Some " policy " |};
     {| EventService.date := "2020-01-01";
        EventService.event := "OPEC meeting";
        EventService.category := None |}].
Proof.
  apply (proj2 (payloads_in_date_order Examples.PATHS Examples.event_disk)).
  vm_compute. reflexivity.
Defined.

(** X6. The sort is stable: among the records of one date, the payloads of
    [get_prices] and [get_events] keep the order of the rows they come
    from. *)
Theorem payloads_keep_row_order paths disk :
  (∀ start_raw end_raw payload,
     PriceService.get_prices paths disk start_raw end_raw = Return payload →
     ∃ rows start end_,
       CsvTable.read_rows disk (PriceService._select_prices_path paths disk) = Return rows
       ∧ (rows ≠ [] →
          PriceService.parse_query_dates start_raw end_raw = Return (start, end_))
       ∧ ∀ k, filter (λ it, PriceService.date it = k) payload
              = filter (λ it, PriceService.date it = k)
                       (omap emitted (classify start end_ <$> rows)))
  ∧ (∀ payload,
       EventService.get_events paths disk = Return payload →
       ∃ rows,
         CsvTable.read_rows disk (events paths) = Return rows
         ∧ ∀ k, filter (λ it, EventService.date it = k) payload
                = filter (λ it, EventService.date it = k)
                         (omap EventSpec.emitted
                            (EventSpec.classify
                               (match rows with
                                | row0 :: _ => row_has row0 "category"
                                | [] => false
                                end) <$> rows))).
Proof.
  split.
  - intros start_raw end_raw payload
           (f & rows & Hf & Hcsv & Hrows)%get_prices_Return_inv.
    destruct Hrows as [[-> ->]|(start & end_ & Hq & ->)].
    + exists [], None, None.
      split; [by unfold CsvTable.read_rows; rewrite Hf, Hcsv|]. by split.
    + exists rows, start, end_.
      split; [by unfold CsvTable.read_rows; rewrite Hf, Hcsv|]. split; [done|].
      intros k. apply sort_by_stable.
  - intros payload (f & rows & Hf & Hcsv & Hrows)%get_events_Return_inv.
    exists rows. split; [by unfold CsvTable.read_rows; rewrite Hf, Hcsv|].
    destruct Hrows as [[-> ->]|(row0 & rows' & -> & ->)]; [done|].
    intros k. apply sort_by_stable.
Qed.

Lemma payloads_keep_row_order_witness :
  ∃ rows,
    CsvTable.read_rows same_day_disk (events Examples.PATHS) = Return rows
    ∧ ∀ k, filter (λ it, EventService.date it = k) same_day_payload
           = filter (λ it, EventService.date it = k)
                    (omap EventSpec.emitted
                       (EventSpec.classify
                          (match rows with
                           | row0 :: _ => row_has row0 "category"
                           | [] => false
                           end) <$> rows)).
Proof.
  apply (proj2 (payloads_keep_row_order Examples.PATHS same_day_disk)).
  vm_compute. reflexivity.
Defined.

(* ===================================================================== *)
(** * Which rows the price payload holds *)
(* ===================================================================== *)

Lemma classify_Emitted_iff start end_ row it :
  classify start end_ row = Emitted it ↔
  ∃ d, DateParser.parse (row_get row "Date") = Return (Some d)
       ∧ float_of_str (price_text row) = Return (PriceService.price it)
       ∧ PriceService.date it = isoformat d
       ∧ in_range start end_ d = true.
Proof.
  split.
  - intros (Hp & d & Hd & Hdate & Hb & Ha)%classify_Emitted.
    exists d. unfold in_range. by rewrite Hb, Ha.
  - intros (d & Hd & Hp & Hdate & [Hb Ha]%andb_prop).
    unfold classify, parsed. rewrite Hd, Hp.
    apply negb_true_iff in Hb, Ha. rewrite Hb, Ha. simpl.
    destruct it as [dt p]. simpl in *. by subst.
Qed.

(** X7. The payload of [get_prices] holds exactly the rows with a parsable
    date, a convertible price and a date within the bounds: a record is in
    the payload if and only if some row of the source has a 'Date' that
    parses to a date not before [start] and not after [end] (where these
    are given), and a 'Price' that converts, and the record carries that
    date's ISO text and that price.  Rows outside the bounds are left out
    without an error. *)
Theorem prices_are_rows_in_range paths disk start_raw end_raw payload :
  PriceService.get_prices paths disk start_raw end_raw = Return payload →
  ∃ rows start end_,
    CsvTable.read_rows disk (PriceService._select_prices_path paths disk) = Return rows
    ∧ (rows ≠ [] →
       PriceService.parse_query_dates start_raw end_raw = Return (start, end_))
    ∧ ∀ it, it ∈ payload ↔
        ∃ row d,
          row ∈ rows
          ∧ DateParser.parse (row_get row "Date") = Return (Some d)
          ∧ float_of_str (strip (replace "," "" (or_empty (row_get row "Price"))))
            = Return (PriceService.price it)
          ∧ PriceService.date it = isoformat d
          ∧ (∀ s, start = Some s → date_le s d = true)
          ∧ (∀ e, end_ = Some e → date_le d e = true).
Proof.
  intros (f & rows & Hf & Hcsv & Hrows)%get_prices_Return_inv.
  destruct Hrows as [[-> ->]|(start & end_ & Hq & ->)].
  { exists [], None, None.
    split; [by unfold CsvTable.read_rows; rewrite Hf, Hcsv|]. split; [done|].
    intros it. split; [by intros ?%elem_of_nil|by intros (? & ? & ?%elem_of_nil & _)]. }
  exists rows, start, end_.
  split; [by unfold CsvTable.read_rows; rewrite Hf, Hcsv|]. split; [done|].
  intros it. rewrite elem_of_sort_by, list_elem_of_omap. split.
  - intros (o & (row & -> & Hrow)%list_elem_of_fmap & Hem).
    destruct (classify start end_ row) eqn:Hc; try done. injection Hem as ->.
    apply classify_Emitted_iff in Hc as (d & Hd & Hp & Hdate & [Hb Ha]%andb_prop).
    exists row, d. do 4 (split; [done|]).
    split; [intros s ->|intros e ->]; done.
  - intros (row & d & Hrow & Hd & Hp & Hdate & Hs & He).
    exists (Emitted it). split; [|done].
    apply list_elem_of_fmap. exists row. split; [|done]. symmetry.
    apply classify_Emitted_iff. exists d. do 3 (split; [done|]).
    unfold in_range, PriceService.before, PriceService.after.
    apply andb_true_intro. split.
    + destruct start as [s|]; [|done]. by apply (Hs s).
    + destruct end_ as [e|]; [|done]. by apply (He e).
Qed.

Lemma prices_are_rows_in_range_witness :
  ∃ rows start end_,
    CsvTable.read_rows Examples.price_disk
      (PriceService._select_prices_path Examples.PATHS Examples.price_disk) = Return rows
    ∧ (rows ≠ [] →
       PriceService.parse_query_dates (Some "2019-12-31") (Some " 01/31/2020 ")
       = Return (start, end_))
    ∧ ∀ it, it ∈ [{| PriceService.date := "2020-01-01";
                     PriceService.price := finite false 12345 (-1) |}] ↔
        ∃ row d,
          row ∈ rows
          ∧ DateParser.parse (row_get row "Date") = Return (Some d)
          ∧ float_of_str (strip (replace "," "" (or_empty (row_get row "Price"))))
            = Return (PriceService.price it)
          ∧ PriceService.date it = isoformat d
          ∧ (∀ s, start = Some s → date_le s d = true)
          ∧ (∀ e, end_ = Some e → date_le d e = true).
Proof.
  apply (prices_are_rows_in_range Examples.PATHS Examples.price_disk).
  vm_compute. reflexivity.
Defined.

(* ===================================================================== *)
(** * Stripping *)
(* ===================================================================== *)

Section stripping.
Context (sp : ascii → bool).

Lemma rstrip_with_idemp s : rstrip_with sp (rstrip_with sp s) = rstrip_with sp s.
Proof.
  induction s as [|c s IH]; [done|]. cbn [rstrip_with].
  destruct (rstrip_with sp s) as [|c' r] eqn:Hr.
  - destruct (sp c) eqn:Hc; [done|]. cbn [rstrip_with]. by rewrite Hc.
  - cbn [rstrip_with]. cbn [rstrip_with] in IH. by rewrite IH.
Qed.

Lemma lstrip_with_head s c r : lstrip_with sp s = String c r → sp c = false.
Proof.
  induction s as [|c' s IH]; [done|]. cbn [lstrip_with].
  destruct (sp c') eqn:Hc'; [done|]. by intros [= <- _].
Qed.

Lemma rstrip_with_head c r :
  sp c = false → ∃ r', rstrip_with sp (String c r) = String c r'.
Proof.
  intros Hc. cbn [rstrip_with]. rewrite Hc.
  destruct (rstrip_with sp r); by eexists.
Qed.

Lemma lstrip_rstrip_lstrip s :
  lstrip_with sp (rstrip_with sp (lstrip_with sp s)) = rstrip_with sp (lstrip_with sp s).
Proof.
  destruct (lstrip_with sp s) as [|c r] eqn:Hl; [done|].
  pose proof (lstrip_with_head _ _ _ Hl) as Hc.
  destruct (rstrip_with_head c r Hc) as [r' ->]. cbn [lstrip_with]. by rewrite Hc.
Qed.

End stripping.

Lemma strip_idemp s : strip (strip s) = strip s.
Proof. unfold strip. by rewrite lstrip_rstrip_lstrip, rstrip_with_idemp. Qed.

Lemma parse_strip s : DateParser.parse (Some (strip s)) = DateParser.parse (Some s).
Proof. by rewrite !parse_Some, strip_idemp. Qed.

(* ===================================================================== *)
(** * The query bounds *)
(* ===================================================================== *)

Lemma parse_query_date_parsed name raw d :
  PriceService._parse_query_date name raw = Return d → d = parsed raw.
Proof.
  rewrite parse_query_date_cases. destruct raw as [r|]; [|by intros [= <-]].
  unfold parsed. rewrite <- (parse_strip r).
  destruct (nonempty (strip r)) eqn:Hne.
  - fold (parsed (Some (strip r))). destruct (parsed (Some (strip r))); [|done].
    by intros [= <-].
  - intros [= <-]. destruct (strip r); [|done]. done.
Qed.

Lemma parse_query_date_blank name s :
  whitespace_only s = true →
  PriceService._parse_query_date name (Some s) = Return None.
Proof.
  intros Hs. rewrite parse_query_date_cases. by rewrite strip_whitespace_only.
Qed.

(** X8. A bound that is blank is no bound: with a [start] or an [end] that
    is empty or made of whitespace only, [get_prices] does what it does
    when that bound is not given at all. *)
Theorem blank_bound_is_no_bound paths disk s other :
  whitespace_only s = true →
  PriceService.get_prices paths disk (Some s) other
  = PriceService.get_prices paths disk None other
  ∧ PriceService.get_prices paths disk other (Some s)
    = PriceService.get_prices paths disk other None.
Proof.
  intros Hs. rewrite !get_prices_cases.
  assert (H1 : PriceService.parse_query_dates (Some s) other
               = PriceService.parse_query_dates None other)
    by (unfold PriceService.parse_query_dates; by rewrite parse_query_date_blank).
  assert (H2 : PriceService.parse_query_dates other (Some s)
               = PriceService.parse_query_dates other None)
    by (unfold PriceService.parse_query_dates; by rewrite parse_query_date_blank).
  by rewrite H1, H2.
Qed.

Lemma blank_bound_is_no_bound_witness :
  PriceService.get_prices Examples.PATHS Examples.price_disk (Some "  ") (Some "2020-12-31")
  = PriceService.get_prices Examples.PATHS Examples.price_disk None (Some "2020-12-31").
Proof.
  apply (blank_bound_is_no_bound Examples.PATHS Examples.price_disk "  "
           (Some "2020-12-31")).
  reflexivity.
Defined.

(** X9. What [parse_query_dates] returns and when it fails.  A returned
    pair holds, for each bound, the date that the parser reads from the
    bound's text (none for a missing or blank text), and is never inverted: when both dates are there, start is not after
    end.  A non-blank [start] that does not parse fails with the error
    naming 'start' and the stripped text, whatever [end] is; two parsable
    bounds with start after end fail with the range error; every failure
    has status 400. *)
Theorem query_dates_checked start_raw end_raw :
  (∀ start end_,
     PriceService.parse_query_dates start_raw end_raw = Return (start, end_) →
     start = parsed start_raw ∧ end_ = parsed end_raw
     ∧ ∀ s e, start = Some s → end_ = Some e → date_le s e = true)
  ∧ (∀ text,
       start_raw = Some text → nonempty (strip text) = true →
       DateParser.parse (Some text) = Return None →
       PriceService.parse_query_dates start_raw end_raw
       = Raise (ValidationError
                  ("Invalid 'start' date '" +:+ strip text
                   +:+ "'. Use YYYY-MM-DD (recommended).") 400))
  ∧ (∀ s e,
       DateParser.parse start_raw = Return (Some s) →
       DateParser.parse end_raw = Return (Some e) →
       date_lt e s = true →
       PriceService.parse_query_dates start_raw end_raw
       = Raise (ValidationError "Invalid date range: start must be <= end." 400))
  ∧ (∀ e,
       PriceService.parse_query_dates start_raw end_raw = Raise e →
       ∃ message, e = ValidationError message 400).
Proof.
  split; [|split; [|split]].
  - intros start end_. unfold PriceService.parse_query_dates.
    destruct (PriceService._parse_query_date "start" start_raw) as [s0|] eqn:Hs; [|done].
    destruct (PriceService._parse_query_date "end" end_raw) as [e0|] eqn:He; [|done].
    cbn [mbind result_bind].
    apply parse_query_date_parsed in Hs, He.
    destruct s0 as [s|], e0 as [e|]; try (intros [= <- <-]; by repeat split).
    destruct (date_lt e s) eqn:Hlt; [done|]. intros [= <- <-].
    split; [done|]. split; [done|]. intros s' e' [= <-] [= <-].
    unfold date_le. by rewrite Hlt.
  - intros text -> Hne Hparse. unfold PriceService.parse_query_dates.
    rewrite (parse_query_date_cases "start"). cbv beta iota. rewrite Hne. unfold parsed.
    by rewrite parse_strip, Hparse.
  - intros s e Hs He Hlt. unfold PriceService.parse_query_dates.
    assert (Hq : ∀ name raw d,
               DateParser.parse raw = Return (Some d) →
               PriceService._parse_query_date name raw = Return (Some d)).
    { intros name [r|] d Hd; [|done]. rewrite parse_query_date_cases.
      cbv beta iota. unfold parsed. rewrite parse_strip, Hd.
      destruct (nonempty (strip r)) eqn:Hne; [done|].
      rewrite parse_Some, Hne in Hd. done. }
    rewrite (Hq _ _ _ Hs), (Hq _ _ _ He). cbn [mbind result_bind]. by rewrite Hlt.
  - apply parse_query_dates_Raise.
Qed.

Lemma query_dates_checked_witness :
  PriceService.parse_query_dates (Some " next week ") (Some "also bad")
  = Raise (ValidationError
             "Invalid 'start' date 'next week'. Use YYYY-MM-DD (recommended)." 400)
  ∧ PriceService.parse_query_dates (Some "2020-06-01") (Some "01/01/2020")
    = Raise (ValidationError "Invalid date range: start must be <= end." 400)
  ∧ (mk_date 2020 1 1 = mk_date 2020 1 1 → date_le (mk_date 2020 1 1) (mk_date 2020 6 1) = true).
Proof.
  split; [|split].
  - apply (proj1 (proj2 (query_dates_checked (Some " next week ") (Some "also bad")))
             " next week "); vm_compute; reflexivity.
  - apply (proj1 (proj2 (proj2 (query_dates_checked (Some "2020-06-01") (Some "01/01/2020"))))
             (mk_date 2020 6 1) (mk_date 2020 1 1)); vm_compute; reflexivity.
  - intros _.
    apply (proj1 (query_dates_checked (Some "01/01/2020") (Some "2020-06-01"))
             (Some (mk_date 2020 1 1)) (Some (mk_date 2020 6 1)));
      vm_compute; reflexivity.
Defined.

(* ===================================================================== *)
(** * Which files the services read *)
(* ===================================================================== *)

(** X10. Each service reads its own file only.  [get_prices] depends on
    the disk through the primary price file and, only when that file is
    missing, through the fallback file; [get_events] and
    [get_change_points] depend on their one file.  Two disks that agree on
    these files give the same result, whatever else they hold. *)
Theorem services_read_their_own_file paths (disk disk' : Disk) :
  (∀ start_raw end_raw,
     disk' !! prices paths = disk !! prices paths →
     (disk !! prices paths = None →
      disk' !! alt_prices paths = disk !! alt_prices paths) →
     PriceService.get_prices paths disk' start_raw end_raw
     = PriceService.get_prices paths disk start_raw end_raw)
  ∧ (disk' !! events paths = disk !! events paths →
     EventService.get_events paths disk' = EventService.get_events paths disk)
  ∧ (disk' !! change_points paths = disk !! change_points paths →
     ChangePointService.get_change_points paths disk'
     = ChangePointService.get_change_points paths disk).
Proof.
  split; [|split].
  - intros start_raw end_raw Hp Ha. rewrite !get_prices_cases.
    assert (Hsel : disk' !! PriceService._select_prices_path paths disk'
                   = disk !! PriceService._select_prices_path paths disk).
    { unfold PriceService._select_prices_path, exists_. rewrite Hp.
      destruct (disk !! prices paths) eqn:Hd; [by rewrite Hp, Hd|by apply Ha]. }
    by rewrite Hsel.
  - intros He. rewrite !get_events_cases. by rewrite He.
  - intros Hc. unfold ChangePointService.get_change_points. by rewrite Hc.
Qed.

Lemma services_read_their_own_file_witness :
  PriceService.get_prices Examples.PATHS
    (<["data/BrentOilPrices.csv" := Examples.table Examples.nan_rows]> Examples.price_disk)
    None None
  = PriceService.get_prices Examples.PATHS Examples.price_disk None None.
Proof.
  apply (proj1 (services_read_their_own_file Examples.PATHS Examples.price_disk
                  (<["data/BrentOilPrices.csv" := Examples.table Examples.nan_rows]>
                     Examples.price_disk))).
  - reflexivity.
  - intros H. vm_compute in H. discriminate H.
Defined.

(* ===================================================================== *)
(** * Event records *)
(* ===================================================================== *)

(** X11. Every record that [get_events] returns has an event text that is
    not empty and carries no surrounding whitespace, and a category that is
    null or a non-empty text -- never the empty text. *)
Theorem event_records_invariant paths disk payload :
  EventService.get_events paths disk = Return payload →
  Forall (λ it, nonempty (EventService.event it) = true
                ∧ strip (EventService.event it) = EventService.event it
                ∧ EventService.category it ≠ Some "") payload.
Proof.
  intros (f & rows & Hf & Hcsv & Hrows)%get_events_Return_inv.
  destruct Hrows as [[_ ->]|(row0 & rows' & _ & ->)]; [constructor|].
  apply Forall_forall. intros it Hit.
  apply elem_of_sort_by, list_elem_of_omap in Hit as (o & Ho & Hem).
  apply list_elem_of_fmap in Ho as (row & -> & Hrow).
  destruct (EventSpec.classify _ row) eqn:Hc; try done. injection Hem as ->.
  apply event_classify_Emitted in Hc as (_ & Hev & Hne & Hcat).
  split; [done|]. split.
  - rewrite Hev. apply strip_idemp.
  - rewrite Hcat. destruct (row_has row0 "category"); [|done].
    destruct (row_get row "category") as [[|c s]|]; done.
Qed.

Lemma event_records_invariant_witness :
  Forall (λ it, nonempty (EventService.event it) = true
                ∧ strip (EventService.event it) = EventService.event it
                ∧ EventService.category it ≠ Some "")
         [{| EventService.date := "2019-06-01";
             EventService.event := "Sanctions";
             EventService.category := Some " policy " |};
          {| EventService.date := "2020-01-01";
             EventService.event := "OPEC meeting";
             EventService.category := None |}].
Proof.
  apply (event_records_invariant Examples.PATHS Examples.event_disk).
  vm_compute. reflexivity.
Defined.

(* ===================================================================== *)
(** * When the change-point document is accepted; normalising twice *)
(* ===================================================================== *)

Lemma entry_loop_Return_inv cps idx normalized r :
  ChangePointService.entry_loop cps idx normalized = Return r →
  Forall (λ cp, is_Some (entry_date cp)) cps.
Proof.
  revert idx normalized. induction cps as [|cp cps IH]; intros idx normalized; [done|].
  destruct (entry_date cp) as [d|] eqn:Hd.
  - destruct (entry_date_Some _ _ Hd) as (members & -> & Hparse).
    rewrite (entry_loop_cons_valid _ _ _ _ members d) by done.
    intros Hr. constructor; [by rewrite Hd|by eapply IH].
  - by rewrite entry_loop_cons_invalid.
Qed.

Lemma get_change_points_Return_inv paths disk out :
  ChangePointService.get_change_points paths disk = Return out →
  ∃ f payload cps,
    disk !! change_points paths = Some f
    ∧ as_json f = inr (PyDict payload)
    ∧ get "change_points" payload = PyList cps
    ∧ Forall (λ cp, is_Some (entry_date cp)) cps.
Proof.
  unfold ChangePointService.get_change_points.
  destruct (disk !! change_points paths) as [f|] eqn:Hf; [|done].
  destruct (as_json f) as [exc|[| | | | | |payload]] eqn:Hjson; try done.
  destruct (get "change_points" payload) as [| | | | |cps|] eqn:Hcps; try done.
  destruct (ChangePointService.entry_loop cps 0 []) as [normalized|e] eqn:Hloop; [|done].
  intros _. exists f, payload, cps. do 3 (split; [done|]).
  by eapply entry_loop_Return_inv.
Qed.

(** X12. [get_change_points] returns a document exactly when the file is
    there, reads as a JSON object, has a 'change_points' key bound to a
    list, and every entry of that list is an object whose 'date' parses;
    in every other case it fails. *)
Theorem change_points_accepted_iff paths disk :
  (∃ out, ChangePointService.get_change_points paths disk = Return out)
  ↔ ∃ f payload cps,
      disk !! change_points paths = Some f
      ∧ as_json f = inr (PyDict payload)
      ∧ get "change_points" payload = PyList cps
      ∧ Forall (λ cp, ∃ members d,
                  cp = PyDict members
                  ∧ DateParser.parse (ChangePointService.date_text (get "date" members))
                    = Return (Some d)) cps.
Proof.
  split.
  - intros [out (f & payload & cps & Hf & Hjson & Hcps & Hall)%get_change_points_Return_inv].
    exists f, payload, cps. do 3 (split; [done|]).
    eapply Forall_impl; [exact Hall|]. intros cp [d Hd].
    destruct (entry_date_Some _ _ Hd) as (members & -> & Hparse). by exists members, d.
  - intros (f & payload & cps & Hf & Hjson & Hcps & Hall).
    destruct (get_change_points_valid paths disk f payload cps) as (entries & Hget & _);
      try done; [|by eexists].
    eapply Forall_impl; [exact Hall|]. intros cp (members & d & -> & Hparse).
    exists d. simpl. unfold parsed. by rewrite Hparse.
Qed.

Lemma change_points_accepted_iff_witness :
  ∃ out, ChangePointService.get_change_points Examples.PATHS Examples.cp_disk = Return out.
Proof.
  apply (proj2 (change_points_accepted_iff Examples.PATHS Examples.cp_disk)).
  exists (Examples.document (PyDict Examples.cp_document)), Examples.cp_document,
    [PyDict Examples.cp_entry].
  do 3 (split; [reflexivity|]).
  repeat constructor. exists Examples.cp_entry, (mk_date 2021 3 1).
  split; [reflexivity|vm_compute; reflexivity].
Defined.

Lemma setitem_setitem key v w (d : dict) :
  setitem key v (setitem key w d) = setitem key v d.
Proof.
  induction d as [|[k u] d IH]; simpl.
  - by rewrite String.eqb_refl.
  - destruct (String.eqb k key) eqn:E; simpl; rewrite E; [done|by rewrite IH].
Qed.

Lemma normalized_entry_idemp members d :
  normalized_entry (normalized_entry members d) d = normalized_entry members d.
Proof.
  unfold normalized_entry at 1 3. f_equal.
  unfold ChangePointService.optional_keys. cbn [omap list_omap].
  rewrite !getitem_normalized_entry; [done|..];
    unfold ChangePointService.optional_keys;
    repeat first [apply list_elem_of_here | apply list_elem_of_further].
Qed.

Lemma normalizes_normalized cp entry :
  normalizes cp entry → normalizes (PyDict entry) entry.
Proof.
  intros (members & d & -> & Hparse & ->).
  exists (normalized_entry members d), d. split; [done|].
  split; [|by rewrite normalized_entry_idemp].
  change (get "date" (normalized_entry members d)) with (PyStr (isoformat d)).
  apply parse_isoformat. by eapply parse_Some_valid.
Qed.

Lemma normalizes_functional cp entry entry' :
  normalizes cp entry → normalizes cp entry' → entry = entry'.
Proof.
  intros (members & d & -> & Hparse & ->) (members' & d' & [= <-] & Hparse' & ->).
  rewrite Hparse in Hparse'. by injection Hparse' as <-.
Qed.

Lemma Forall2_normalizes_again cps entries entries' :
  Forall2 normalizes cps entries →
  Forall2 normalizes (map PyDict entries) entries' →
  entries' = entries.
Proof.
  intros H. revert entries'. induction H as [|cp entry cps entries Hn _ IH];
    intros entries' H'; inversion H' as [|? entry' ? rest Hn' Hrest]; subst; [done|].
  f_equal; [|by apply IH].
  eapply normalizes_functional; [exact Hn'|by eapply normalizes_normalized].
Qed.

(** X13. Normalising is idempotent: when [get_change_points] has returned
    a document, running it on that document returns the same document. *)
Theorem normalisation_idempotent paths disk disk' out f' :
  ChangePointService.get_change_points paths disk = Return out →
  disk' !! change_points paths = Some f' →
  as_json f' = inr (PyDict out) →
  ChangePointService.get_change_points paths disk' = Return out.
Proof.
  intros Hout Hf' Hjson'.
  pose proof (get_change_points_Return_inv _ _ _ Hout)
    as (f & payload & cps & Hf & Hjson & Hcps & Hall).
  destruct (get_change_points_valid paths disk f payload cps Hf Hjson Hcps Hall)
    as (entries & Hget & Hentries).
  rewrite Hout in Hget. injection Hget as ->.
  assert (Hcps' : get "change_points"
                    (setitem "change_points" (PyList (map PyDict entries)) payload)
                  = PyList (map PyDict entries))
    by (unfold get; by rewrite getitem_setitem_eq).
  assert (Hall' : Forall (λ cp, is_Some (entry_date cp)) (map PyDict entries)).
  { clear -Hentries. induction Hentries as [|cp entry cps entries Hn _ IH];
      [constructor|]. constructor; [|done].
    apply normalizes_normalized in Hn as (members & d & [= <-] & Hparse & _).
    exists d. simpl. unfold parsed. by rewrite Hparse. }
  destruct (get_change_points_valid paths disk' f' _ _ Hf' Hjson' Hcps' Hall')
    as (entries' & Hget' & Hentries').
  rewrite Hget'. rewrite (Forall2_normalizes_again _ _ _ Hentries Hentries').
  by rewrite setitem_setitem.
Qed.

Lemma normalisation_idempotent_witness :
  ChangePointService.get_change_points Examples.PATHS normalized_disk
  = Return normalized_document.
Proof.
  apply (normalisation_idempotent Examples.PATHS Examples.cp_disk normalized_disk
           normalized_document (Examples.document (PyDict normalized_document)));
    vm_compute; reflexivity.
Defined.

(* ===================================================================== *)
(** * Dates written with slashes *)
(* ===================================================================== *)

Lemma match_items_Group name alts items s :
  match_items (Group name alts :: items) s
  = group_step name alts (match_items items) s.
Proof. reflexivity. Qed.

Lemma match_items_Literal c items s :
  match_items (Literal c :: items) s = literal_step c (match_items items) s.
Proof. reflexivity. Qed.

Ltac by_cases H :=
  rewrite Forall_forall in H; apply H, elem_of_seqZ; lia.

Lemma month_step a k rest :
  (1 <= a <= 12)%Z →
  group_step "m" month_regex (literal_step "/" k) (digits2 a +:+ "/" +:+ rest)
  = map (with_group "m" (digits2 a)) (k rest).
Proof.
  intros Ha. rewrite <- (app_nil_r (map _ _)).
  assert (H : Forall (λ a,
      group_step "m" month_regex (literal_step "/" k) (digits2 a +:+ "/" +:+ rest)
      = map (with_group "m" (digits2 a)) (k rest) ++ [])
      (seqZ 1 12)).
  { vm_compute seqZ. repeat (constructor; [vm_compute; reflexivity|]). constructor. }
  by_cases H.
Qed.

Lemma day_step b k rest :
  (1 <= b <= 31)%Z →
  group_step "d" day_regex (literal_step "/" k) (digits2 b +:+ "/" +:+ rest)
  = map (with_group "d" (digits2 b)) (k rest).
Proof.
  intros Hb. rewrite <- (app_nil_r (map _ _)).
  assert (H : Forall (λ b,
      group_step "d" day_regex (literal_step "/" k) (digits2 b +:+ "/" +:+ rest)
      = map (with_group "d" (digits2 b)) (k rest) ++ [])
      (seqZ 1 31)).
  { vm_compute seqZ. repeat (constructor; [vm_compute; reflexivity|]). constructor. }
  by_cases H.
Qed.

(** A day above 12 is no month: the month directive does not match it. *)
Lemma month_step_fails a k rest :
  (13 <= a <= 31)%Z →
  group_step "m" month_regex (literal_step "/" k) (digits2 a +:+ "/" +:+ rest) = [].
Proof.
  intros Ha.
  assert (H : Forall (λ a,
      group_step "m" month_regex (literal_step "/" k) (digits2 a +:+ "/" +:+ rest) = [])
      (seqZ 13 19)).
  { vm_compute seqZ. repeat (constructor; [vm_compute; reflexivity|]). constructor. }
  by_cases H.
Qed.

(** At the end of the text the day directive matches the two digits first. *)
Lemma day_step_end b :
  (1 <= b <= 31)%Z →
  ∃ more,
    group_step "d" day_regex (match_items []) (digits2 b)
    = ([("d"%char, digits2 b)], EmptyString) :: more.
Proof.
  intros Hb.
  assert (H : Forall (λ b, ∃ more,
      group_step "d" day_regex (match_items []) (digits2 b)
      = ([("d"%char, digits2 b)], EmptyString) :: more) (seqZ 1 31)).
  { vm_compute seqZ.
    repeat (constructor; [eexists; vm_compute; reflexivity|]). constructor. }
  by_cases H.
Qed.

Lemma year_step y k rest :
  (0 <= y <= 9999)%Z →
  group_step "Y" year_regex k (digits4 y +:+ rest)
  = map (with_group "Y" (digits4 y)) (k rest).
Proof.
  intros Hy. unfold group_step, year_regex, flat_map.
  assert (Hm : match_seq [is_digit; is_digit; is_digit; is_digit] (digits4 y +:+ rest)
               = Some (digits4 y, rest)).
  { unfold digits4, digits2. simpl.
    by rewrite !is_digit_digit_char by div_lia. }
  rewrite Hm. apply app_nil_r.
Qed.

(** A text that starts with two digits and a slash has no four-digit year
    in front. *)
Lemma year_step_fails a k rest :
  (0 <= a <= 99)%Z →
  group_step "Y" year_regex k (digits2 a +:+ "/" +:+ rest) = [].
Proof.
  intros Ha. unfold group_step, year_regex, flat_map.
  assert (Hm : match_seq [is_digit; is_digit; is_digit; is_digit]
                         (digits2 a +:+ "/" +:+ rest) = None).
  { unfold digits2. simpl. by rewrite !is_digit_digit_char by div_lia. }
  by rewrite Hm.
Qed.

Lemma int_digits_2 a : (0 <= a <= 99)%Z → int_digits 0 (digits2 a) = a.
Proof.
  intros Ha. unfold digits2. simpl.
  rewrite !is_digit_digit_char, !digit_val_digit_char by div_lia. div_lia.
Qed.

Lemma int_digits_4 y : (0 <= y <= 9999)%Z → int_digits 0 (digits4 y) = y.
Proof.
  intros Hy. unfold digits4, digits2. simpl.
  rewrite !is_digit_digit_char, !digit_val_digit_char by div_lia. div_lia.
Qed.

Lemma strptime_mdY a b y :
  (1 <= a <= 12)%Z → (1 <= b <= 31)%Z → (0 <= y <= 9999)%Z →
  strptime (digits2 a +:+ "/" +:+ digits2 b +:+ "/" +:+ digits4 y) "%m/%d/%Y"
  = dd ← new_date y a b; Return (mk_datetime dd 0 0 0 0 None).
Proof.
  intros Ha Hb Hy. unfold strptime.
  change (compile "%m/%d/%Y")
    with (Some [Group "m" month_regex; Literal "/"; Group "d" day_regex; Literal "/";
                Group "Y" year_regex]).
  cbv beta iota.
  change (match_items _ ?s)
    with (group_step "m" month_regex
            (literal_step "/"
               (group_step "d" day_regex
                  (literal_step "/" (group_step "Y" year_regex (match_items [])))))
            s).
  rewrite month_step, day_step by done.
  change (digits4 y) with (digits4 y +:+ "") at 1.
  rewrite year_step by done.
  cbn [match_items map with_group fst snd fold_left convert_group].
  by rewrite int_digits_4, !int_digits_2 by lia.
Qed.

Lemma strptime_mdY_fails a b y :
  (13 <= a <= 31)%Z →
  strptime (digits2 a +:+ "/" +:+ digits2 b +:+ "/" +:+ digits4 y) "%m/%d/%Y"
  = Raise ValueError.
Proof.
  intros Ha. unfold strptime.
  change (compile "%m/%d/%Y")
    with (Some [Group "m" month_regex; Literal "/"; Group "d" day_regex; Literal "/";
                Group "Y" year_regex]).
  cbv beta iota.
  change (match_items _ ?s)
    with (group_step "m" month_regex
            (literal_step "/"
               (group_step "d" day_regex
                  (literal_step "/" (group_step "Y" year_regex (match_items [])))))
            s).
  by rewrite month_step_fails.
Qed.

Lemma strptime_dmY a b y :
  (1 <= a <= 31)%Z → (1 <= b <= 12)%Z → (0 <= y <= 9999)%Z →
  strptime (digits2 a +:+ "/" +:+ digits2 b +:+ "/" +:+ digits4 y) "%d/%m/%Y"
  = dd ← new_date y b a; Return (mk_datetime dd 0 0 0 0 None).
Proof.
  intros Ha Hb Hy. unfold strptime.
  change (compile "%d/%m/%Y")
    with (Some [Group "d" day_regex; Literal "/"; Group "m" month_regex; Literal "/";
                Group "Y" year_regex]).
  cbv beta iota.
  change (match_items _ ?s)
    with (group_step "d" day_regex
            (literal_step "/"
               (group_step "m" month_regex
                  (literal_step "/" (group_step "Y" year_regex (match_items [])))))
            s).
  rewrite day_step, month_step by done.
  change (digits4 y) with (digits4 y +:+ "") at 1.
  rewrite year_step by done.
  cbn [match_items map with_group fst snd fold_left convert_group].
  by rewrite int_digits_4, !int_digits_2 by lia.
Qed.

Lemma strptime_Ymd_fails a rest :
  (0 <= a <= 99)%Z →
  strptime (digits2 a +:+ "/" +:+ rest) "%Y/%m/%d" = Raise ValueError.
Proof.
  intros Ha. unfold strptime.
  change (compile "%Y/%m/%d")
    with (Some [Group "Y" year_regex; Literal "/"; Group "m" month_regex; Literal "/";
                Group "d" day_regex]).
  cbv beta iota.
  change (match_items _ ?s)
    with (group_step "Y" year_regex
            (literal_step "/"
               (group_step "m" month_regex
                  (literal_step "/" (group_step "d" day_regex (match_items [])))))
            s).
  by rewrite year_step_fails.
Qed.

Lemma strptime_Ymd y m d :
  (0 <= y <= 9999)%Z → (1 <= m <= 12)%Z → (1 <= d <= 31)%Z →
  strptime (digits4 y +:+ "/" +:+ digits2 m +:+ "/" +:+ digits2 d) "%Y/%m/%d"
  = dd ← new_date y m d; Return (mk_datetime dd 0 0 0 0 None).
Proof.
  intros Hy Hm Hd. unfold strptime.
  change (compile "%Y/%m/%d")
    with (Some [Group "Y" year_regex; Literal "/"; Group "m" month_regex; Literal "/";
                Group "d" day_regex]).
  cbv beta iota.
  change (match_items _ ?s)
    with (group_step "Y" year_regex
            (literal_step "/"
               (group_step "m" month_regex
                  (literal_step "/" (group_step "d" day_regex (match_items [])))))
            s).
  rewrite year_step by done.
  change (literal_step "/" ?k ("/" +:+ ?s)) with (k s).
  rewrite month_step by done.
  destruct (day_step_end d Hd) as [more ->].
  cbn [match_items map with_group fst snd fold_left convert_group].
  by rewrite int_digits_4, !int_digits_2 by lia.
Qed.

Lemma fromisoformat_slash_fails a rest :
  (0 <= a <= 99)%Z → fromisoformat (digits2 a +:+ "/" +:+ rest) = Raise ValueError.
Proof.
  intros Ha. unfold fromisoformat.
  assert (H : parse_digits 4 0 (digits2 a +:+ "/" +:+ rest) = None).
  { unfold digits2, parse_digits. simpl.
    by rewrite !is_digit_digit_char by div_lia. }
  by rewrite H.
Qed.

Lemma fromisoformat_year_slash_fails y rest :
  (0 <= y <= 9999)%Z → fromisoformat (digits4 y +:+ "/" +:+ rest) = Raise ValueError.
Proof.
  intros Hy. unfold fromisoformat. by rewrite parse_digits_4 by done.
Qed.

Lemma slash_char_plain c :
  slash_char c = true → isspace c = false ∧ Ascii.eqb c "Z" = false.
Proof.
  destruct c as [[] [] [] [] [] [] [] []]; vm_compute; intros H; (done || discriminate).
Qed.

Lemma slash_char_digit_char k : (0 <= k <= 9)%Z → slash_char (digit_char k) = true.
Proof. intros H. by_digit k H. Qed.

Lemma strip_slash_chars s : all_chars slash_char s = true → strip s = s.
Proof.
  intros Hs. unfold strip.
  assert (Hl : lstrip_with isspace s = s).
  { destruct s as [|c s]; [done|]. simpl in *. apply andb_prop in Hs as [Hc _].
    by apply slash_char_plain in Hc as [-> _]. }
  rewrite Hl. clear Hl. induction s as [|c s IH]; [done|].
  simpl in *. apply andb_prop in Hs as [Hc Hs]. rewrite IH by done.
  apply slash_char_plain in Hc as [-> _]. by destruct s.
Qed.

Lemma replace_slash_chars new s : all_chars slash_char s = true → replace "Z" new s = s.
Proof.
  induction s as [|c s IH]; [done|]. simpl. intros [Hc Hs]%andb_prop.
  apply slash_char_plain in Hc as [_ ->]. by rewrite IH.
Qed.

Lemma all_chars_app p s t :
  all_chars p s = true → all_chars p t = true → all_chars p (s +:+ t) = true.
Proof.
  intros Hs Ht. induction s as [|c s IH]; [done|]. simpl in *.
  apply andb_prop in Hs as [-> Hs]. by apply IH.
Qed.

Lemma all_chars_digits2 a : (0 <= a <= 99)%Z → all_chars slash_char (digits2 a) = true.
Proof.
  intros Ha. unfold digits2. simpl. by rewrite !slash_char_digit_char by div_lia.
Qed.

Lemma all_chars_digits4 y : (0 <= y <= 9999)%Z → all_chars slash_char (digits4 y) = true.
Proof.
  intros Hy. unfold digits4, digits2. simpl.
  by rewrite !slash_char_digit_char by div_lia.
Qed.

(** [parse] on a text of digits and slashes: the ISO reading being out, the
    formats decide. *)
Lemma parse_slash_text s :
  all_chars slash_char s = true → nonempty s = true →
  fromisoformat s = Raise ValueError →
  DateParser.parse (Some s) = DateParser.try_formats s DateParser.formats.
Proof.
  intros Hs Hne Hiso. rewrite parse_Some.
  by rewrite strip_slash_chars, replace_slash_chars, Hne, Hiso.
Qed.

Lemma days_in_month_ge y m : (28 <= days_in_month y m)%Z.
Proof. unfold days_in_month. repeat case_match; lia. Qed.

Lemma new_date_swapped d :
  valid_date d = true → (day d <= 12)%Z →
  new_date (year d) (day d) (month d) = Return (mk_date (year d) (day d) (month d)).
Proof.
  intros Hv Hd. pose proof (valid_date_bounds _ Hv) as (Hy & Hm & Hdd).
  pose proof (days_in_month_ge (year d) (day d)).
  unfold new_date.
  assert (((1 <=? year d) && (year d <=? 9999) && (1 <=? day d) && (day d <=? 12)
           && (1 <=? month d) && (month d <=? days_in_month (year d) (day d)))%Z = true)
    as ->; [|done].
  repeat (apply andb_true_intro; split); lia.
Qed.

(** X14. Dates written with slashes, for every date of the calendar.  The
    texts YYYY/MM/DD and MM/DD/YYYY of a date parse to that date.  The
    day-first text DD/MM/YYYY parses to the date only when its day is above
    12; when the day is 12 or less the text is read month-first, and the
    result is the date with day and month exchanged. *)
Theorem slash_dates d :
  valid_date d = true →
  let y := zfill 4 (year d) in
  let m := zfill 2 (month d) in
  let dd := zfill 2 (day d) in
  DateParser.parse (Some (y +:+ "/" +:+ m +:+ "/" +:+ dd)) = Return (Some d)
  ∧ DateParser.parse (Some (m +:+ "/" +:+ dd +:+ "/" +:+ y)) = Return (Some d)
  ∧ ((12 < day d)%Z →
     DateParser.parse (Some (dd +:+ "/" +:+ m +:+ "/" +:+ y)) = Return (Some d))
  ∧ ((day d <= 12)%Z →
     DateParser.parse (Some (dd +:+ "/" +:+ m +:+ "/" +:+ y))
     = Return (Some (mk_date (year d) (day d) (month d)))).
Proof.
  intros Hv. pose proof (valid_date_bounds _ Hv) as (Hy & Hm & Hd).
  cbn zeta. rewrite zfill_4, !zfill_2 by lia.
  assert (Hslash : all_chars slash_char "/" = true) by reflexivity.
  pose proof (all_chars_digits4 (year d) ltac:(lia)) as Hcy.
  pose proof (all_chars_digits2 (month d) ltac:(lia)) as Hcm.
  pose proof (all_chars_digits2 (day d) ltac:(lia)) as Hcd.
  split; [|split; [|split]].
  - rewrite parse_slash_text;
      [|by repeat apply all_chars_app|done|by apply fromisoformat_year_slash_fails; lia].
    unfold DateParser.formats. cbn [DateParser.try_formats].
    rewrite strptime_Ymd by lia. by rewrite new_date_of_valid.
  - rewrite parse_slash_text;
      [|by repeat apply all_chars_app|done|by apply fromisoformat_slash_fails; lia].
    unfold DateParser.formats. cbn [DateParser.try_formats].
    rewrite strptime_Ymd_fails by lia. cbn [mbind result_bind try_except_ValueError].
    rewrite strptime_mdY by lia. by rewrite new_date_of_valid.
  - intros Hday. rewrite parse_slash_text;
      [|by repeat apply all_chars_app|done|by apply fromisoformat_slash_fails; lia].
    unfold DateParser.formats. cbn [DateParser.try_formats].
    rewrite strptime_Ymd_fails by lia. cbn [mbind result_bind try_except_ValueError].
    rewrite strptime_mdY_fails by lia. cbn [mbind result_bind try_except_ValueError].
    rewrite strptime_dmY by lia. by rewrite new_date_of_valid.
  - intros Hday. rewrite parse_slash_text;
      [|by repeat apply all_chars_app|done|by apply fromisoformat_slash_fails; lia].
    unfold DateParser.formats. cbn [DateParser.try_formats].
    rewrite strptime_Ymd_fails by lia. cbn [mbind result_bind try_except_ValueError].
    rewrite strptime_mdY by lia. by rewrite new_date_swapped.
Qed.

Lemma slash_dates_witness :
  DateParser.parse (Some "25/12/2019") = Return (Some (mk_date 2019 12 25))
  ∧ DateParser.parse (Some "05/11/2019") = Return (Some (mk_date 2019 5 11)).
Proof.
  split.
  - apply (proj1 (proj2 (proj2 (slash_dates (mk_date 2019 12 25) eq_refl)))). reflexivity.
  - apply (proj2 (proj2 (proj2 (slash_dates (mk_date 2019 11 5) eq_refl)))).
    vm_compute. discriminate.
Defined.

(* ===================================================================== *)
(** * Whitespace around a date text *)
(* ===================================================================== *)

Lemma lstrip_app_whitespace pre t :
  whitespace_only pre = true → lstrip_with isspace (pre +:+ t) = lstrip_with isspace t.
Proof.
  induction pre as [|c pre IH]; [done|]. simpl. intros [Hc Hpre]%andb_prop.
  rewrite Hc. by apply IH.
Qed.

Lemma rstrip_whitespace_only post :
  whitespace_only post = true → rstrip_with isspace post = EmptyString.
Proof.
  induction post as [|c post IH]; [done|]. simpl. intros [Hc Hpost]%andb_prop.
  by rewrite IH, Hc.
Qed.

Lemma rstrip_app_whitespace t post :
  whitespace_only post = true → rstrip_with isspace (t +:+ post) = rstrip_with isspace t.
Proof.
  intros Hpost. induction t as [|c t IH]; simpl.
  - by apply rstrip_whitespace_only.
  - by rewrite IH.
Qed.

Lemma rstrip_lstrip_app_whitespace s post :
  whitespace_only post = true →
  rstrip_with isspace (lstrip_with isspace (s +:+ post))
  = rstrip_with isspace (lstrip_with isspace s).
Proof.
  intros Hpost. induction s as [|c s IH]; simpl.
  - by rewrite lstrip_whitespace_only, rstrip_whitespace_only.
  - destruct (isspace c); [done|].
    change (String c (s +:+ post)) with (String c s +:+ post).
    by apply rstrip_app_whitespace.
Qed.

Lemma strip_app_whitespace pre s post :
  whitespace_only pre = true → whitespace_only post = true →
  strip (pre +:+ s +:+ post) = strip s.
Proof.
  intros Hpre Hpost. unfold strip.
  rewrite lstrip_app_whitespace by done. by apply rstrip_lstrip_app_whitespace.
Qed.

(** X15. Whitespace around a date text does not matter: a text with any
    whitespace before and after it parses to what the text itself parses
    to, and a text parses to what its stripped form parses to. *)
Theorem parse_ignores_surrounding_whitespace :
  (∀ pre s post,
     whitespace_only pre = true → whitespace_only post = true →
     DateParser.parse (Some (pre +:+ s +:+ post)) = DateParser.parse (Some s))
  ∧ (∀ s, DateParser.parse (Some (strip s)) = DateParser.parse (Some s)).
Proof.
  split; [|exact parse_strip].
  intros pre s post Hpre Hpost. by rewrite !parse_Some, strip_app_whitespace.
Qed.

Lemma parse_ignores_surrounding_whitespace_witness :
  DateParser.parse (Some ("  " +:+ "20-May-87" +:+ " "))
  = DateParser.parse (Some "20-May-87").
Proof.
  apply (proj1 parse_ignores_surrounding_whitespace "  " "20-May-87" " "); reflexivity.
Defined.

(* ===================================================================== *)
(** * The counts of the no-valid-rows error *)
(* ===================================================================== *)

Lemma price_counts start end_ (rows : list Row) :
  let os := classify start end_ <$> rows in
  (count is_invalid_date os + count is_invalid_price os
   + count (λ o, match o with OutOfRange => true | _ => false end) os
   + length (omap emitted os) = length rows)%nat.
Proof.
  cbn zeta. unfold count. induction rows as [|row rows IH]; [done|].
  rewrite fmap_cons. unfold omap in *.
  destruct (classify start end_ row); simpl in *; lia.
Qed.

Lemma classify_unbounded row : classify None None row ≠ OutOfRange.
Proof.
  unfold classify. destruct (parsed _); [|done]. by destruct (float_of_str _).
Qed.

Lemma count_out_of_range_unbounded (rows : list Row) :
  count (λ o, match o with OutOfRange => true | _ => false end)
        (classify None None <$> rows) = O.
Proof.
  unfold count. induction rows as [|row rows IH]; [done|].
  rewrite fmap_cons. pose proof (classify_unbounded row).
  destruct (classify None None row); simpl in *; done.
Qed.

Lemma event_counts has_category (rows : list Row) :
  let os := EventSpec.classify has_category <$> rows in
  (count EventSpec.is_invalid_date os + count EventSpec.is_invalid_event os
   + length (omap EventSpec.emitted os) = length rows)%nat.
Proof.
  cbn zeta. unfold count. induction rows as [|row rows IH]; [done|].
  rewrite fmap_cons. unfold omap in *.
  destruct (EventSpec.classify has_category row); simpl in *; lia.
Qed.

(** X16. When a readable source with the required columns makes
    [get_events], or [get_prices] without bounds, fail, the failure is the
    no-valid-rows error and its two counts add up to the number of rows:
    every row was rejected and each was counted once, a row with an
    unparsable date as an invalid date whatever its other fields are. *)
Theorem rejected_rows_counted_once paths disk f row0 rows :
  as_csv f = inr (row0 :: rows) →
  (∀ e,
     disk !! PriceService._select_prices_path paths disk = Some f →
     row_has row0 "Date" = true → row_has row0 "Price" = true →
     PriceService.get_prices paths disk None None = Raise e →
     ∃ invalid_date invalid_price,
       e = PriceService.no_valid_rows invalid_date invalid_price
       ∧ (invalid_date + invalid_price = length (row0 :: rows))%nat
       ∧ invalid_date
         = count (λ row, bool_decide (parsed (row_get row "Date") = None)) (row0 :: rows))
  ∧ (∀ e,
       disk !! events paths = Some f →
       row_has row0 "date" = true → row_has row0 "event" = true →
       EventService.get_events paths disk = Raise e →
       ∃ invalid_date invalid_event,
         e = EventService.no_valid_rows invalid_date invalid_event
         ∧ (invalid_date + invalid_event = length (row0 :: rows))%nat
         ∧ invalid_date
           = count (λ row, bool_decide (parsed (row_get row "date") = None))
                   (row0 :: rows)).
Proof.
  intros Hcsv. split.
  - intros e Hf HD HP.
    rewrite (get_prices_rows _ _ _ _ f row0 rows None None) by done. cbn zeta.
    destruct (sort_by _ _) as [|it payload] eqn:Hsort; cbn [nonempty_list]; [|done].
    destruct (_ && _); [done|]. intros [= <-].
    apply sort_by_nil_inv in Hsort.
    pose proof (price_counts None None (row0 :: rows)) as Hcount. cbn zeta in Hcount.
    rewrite Hsort, count_out_of_range_unbounded in Hcount.
    change (length (@nil PriceService.item)) with O in Hcount.
    rewrite !Nat.add_0_r in Hcount.
    do 2 eexists. split; [done|]. split; [exact Hcount|].
    change (count is_invalid_date (classify None None <$> row0 :: rows)
            = count (λ row, bool_decide (parsed (row_get row "Date") = None))
                    (row0 :: rows)).
    unfold count. clear. induction (row0 :: rows) as [|row l IH]; [done|].
    rewrite fmap_cons. unfold classify at 1. simpl.
    destruct (parsed (row_get row "Date")); simpl.
    + rewrite <- IH. by destruct (float_of_str _).
    + by rewrite <- IH.
  - intros e Hf HD HE.
    rewrite (get_events_rows _ _ f row0 rows) by done. cbn zeta.
    destruct (sort_by _ _) as [|it payload] eqn:Hsort; cbn [nonempty_list]; [|done].
    destruct (_ && _); [done|]. intros [= <-].
    apply sort_by_nil_inv in Hsort.
    pose proof (event_counts (row_has row0 "category") (row0 :: rows)) as Hcount.
    cbn zeta in Hcount. rewrite Hsort in Hcount.
    change (length (@nil EventService.item)) with O in Hcount.
    rewrite !Nat.add_0_r in Hcount.
    do 2 eexists. split; [done|]. split; [exact Hcount|].
    change (count EventSpec.is_invalid_date
                  (EventSpec.classify (row_has row0 "category") <$> row0 :: rows)
            = count (λ row, bool_decide (parsed (row_get row "date") = None))
                    (row0 :: rows)).
    unfold count. generalize (row_has row0 "category"). clear.
    intros hc. induction (row0 :: rows) as [|row l IH]; [done|].
    rewrite fmap_cons. unfold EventSpec.classify at 1. simpl.
    destruct (parsed (row_get row "date")); simpl.
    + rewrite <- IH. by destruct (nonempty _).
    + by rewrite <- IH.
Qed.

Lemma rejected_rows_counted_once_witness :
  ∃ invalid_date invalid_event,
    EventService.no_valid_rows 1 1 = EventService.no_valid_rows invalid_date invalid_event
    ∧ (invalid_date + invalid_event = length Examples.bad_event_rows)%nat
    ∧ invalid_date
      = count (λ row, bool_decide (parsed (row_get row "date") = None))
              Examples.bad_event_rows.
Proof.
  refine (proj2 (rejected_rows_counted_once Examples.PATHS Examples.bad_event_disk
                   (Examples.table Examples.bad_event_rows) _ _ eq_refl)
            _ eq_refl eq_refl eq_refl _).
  vm_compute. reflexivity.
Defined.

(* ===================================================================== *)
(** * A bounded query is the unbounded one, filtered *)
(* ===================================================================== *)

Section sort_filter.
Context {A : Type} (key : A → string) (P : A → Prop) `{!∀ x, Decision (P x)}.

Lemma insert_by_first x l :
  Forall (key_le key x) l → insert_by key x l = x :: l.
Proof.
  intros Hl. destruct Hl as [|y l Hy Hl]; [done|]. simpl.
  unfold key_le in Hy. by rewrite Hy.
Qed.

Lemma filter_insert_by_sorted x l :
  StronglySorted (key_le key) l →
  filter P (insert_by key x l)
  = if decide (P x) then insert_by key x (filter P l) else filter P l.
Proof.
  induction 1 as [|y l Hl IH Hy]; simpl.
  - rewrite filter_cons. by destruct (decide (P x)).
  - destruct (String.leb (key x) (key y)) eqn:Hxy.
    + rewrite filter_cons. destruct (decide (P x)) as [HPx|HPx]; [|done].
      rewrite insert_by_first; [done|].
      apply Forall_forall. intros z Hz. apply list_elem_of_filter in Hz as [_ Hz].
      apply elem_of_cons in Hz as [->|Hz]; [done|].
      rewrite Forall_forall in Hy. eapply string_leb_trans; [exact Hxy|by apply Hy].
    + rewrite !filter_cons, IH.
      destruct (decide (P y)) as [HPy|HPy], (decide (P x)) as [HPx|HPx]; try done.
      simpl. by rewrite Hxy.
Qed.

Lemma sort_by_filter l : filter P (sort_by key l) = sort_by key (filter P l).
Proof.
  induction l as [|x l IH]; [done|]. simpl.
  rewrite filter_insert_by_sorted by apply sort_by_sorted.
  rewrite filter_cons, IH. by destruct (decide (P x)).
Qed.

End sort_filter.

Lemma emitted_bounded start end_ (rows : list Row) :
  omap emitted (classify start end_ <$> rows)
  = filter (λ it, date_in_range start end_ (PriceService.date it) = true)
           (omap emitted (classify None None <$> rows)).
Proof.
  induction rows as [|row rows IH]; [done|]. rewrite !fmap_cons.
  unfold classify at 1 3.
  destruct (parsed (row_get row "Date")) as [d|] eqn:Hd; [|exact IH].
  destruct (float_of_str (price_text row)) as [p|e]; [|exact IH].
  assert (Hrt : date_in_range start end_ (isoformat d) = in_range start end_ d).
  { unfold date_in_range, parsed at 1. rewrite parse_isoformat; [done|].
    apply (parse_Some_valid (row_get row "Date")). by rewrite parse_parsed, Hd. }
  change (PriceService.before None d || PriceService.after None d) with false.
  cbv iota. cbn [omap list_omap emitted]. rewrite filter_cons. cbn [PriceService.date].
  rewrite Hrt. unfold in_range.
  destruct (PriceService.before start d), (PriceService.after end_ d);
    cbn [negb andb orb omap list_omap emitted]; try exact IH.
  destruct (decide (true = true)); [|done]. by rewrite <- IH.
Qed.

(** X17. A bounded query returns the records of the unbounded query whose
    dates lie within the bounds, in the same order: when [get_prices]
    returns both without bounds and with bounds, the bounded payload is the
    unbounded payload filtered by the date range. *)
Theorem bounded_is_filtered_unbounded paths disk start_raw end_raw start end_ all bounded :
  PriceService.get_prices paths disk None None = Return all →
  PriceService.get_prices paths disk start_raw end_raw = Return bounded →
  PriceService.parse_query_dates start_raw end_raw = Return (start, end_) →
  bounded
  = filter (λ it, date_in_range start end_ (PriceService.date it) = true) all.
Proof.
  intros (f & rows & Hf & Hcsv & Hall)%get_prices_Return_inv
         (f' & rows' & Hf' & Hcsv' & Hb)%get_prices_Return_inv Hq.
  rewrite Hf in Hf'. injection Hf' as <-. rewrite Hcsv in Hcsv'. injection Hcsv' as <-.
  destruct Hall as [[-> ->]|(s0 & e0 & Hq0 & ->)].
  { destruct Hb as [[_ ->]|(s1 & e1 & _ & ->)]; done. }
  injection Hq0 as <- <-.
  destruct Hb as [[-> ->]|(s1 & e1 & Hq1 & ->)]; [done|].
  rewrite Hq in Hq1. injection Hq1 as <- <-.
  by rewrite sort_by_filter, <- emitted_bounded.
Qed.

Lemma bounded_is_filtered_unbounded_witness :
  [{| PriceService.date := "2020-03-02"; PriceService.price := finite false 512 (-1) |}]
  = filter (λ it, date_in_range (Some (mk_date 2020 2 1)) None (PriceService.date it) = true)
           [{| PriceService.date := "2020-01-06";
               PriceService.price := finite false 689 (-1) |};
            {| PriceService.date := "2020-03-02";
               PriceService.price := finite false 512 (-1) |}].
Proof.
  apply (bounded_is_filtered_unbounded Examples.PATHS two_prices_disk
           (Some "2020-02-01") None); vm_compute; reflexivity.
Defined.

(* ===================================================================== *)
(** * Timestamps *)
(* ===================================================================== *)

Lemma stamp_char_plain c :
  stamp_char c = true →
  isspace c = false ∧ Ascii.eqb c "Z" = false
  ∧ Ascii.eqb c "+" = false ∧ Ascii.eqb c "-" || is_digit c || Ascii.eqb c ":"
                               || Ascii.eqb c "T" = true.
Proof.
  destruct c as [[] [] [] [] [] [] [] []]; vm_compute; intros H;
    repeat split; (done || discriminate).
Qed.

Lemma stamp_char_digit_char k : (0 <= k <= 9)%Z → stamp_char (digit_char k) = true.
Proof. intros H. by_digit k H. Qed.

Lemma all_chars_impl (p q : ascii → bool) s :
  (∀ c, p c = true → q c = true) → all_chars p s = true → all_chars q s = true.
Proof.
  intros Hpq. induction s as [|c s IH]; [done|]. simpl.
  intros [Hc Hs]%andb_prop. by rewrite (Hpq c Hc), IH.
Qed.

Lemma iso_char_stamp_char c : iso_char c = true → stamp_char c = true.
Proof. destruct c as [[] [] [] [] [] [] [] []]; vm_compute; done. Qed.

Lemma string_app_cons c s t : String c s +:+ t = String c (s +:+ t).
Proof. reflexivity. Qed.

Lemma string_app_assoc s t u : (s +:+ t) +:+ u = s +:+ t +:+ u.
Proof. induction s as [|c s IH]; [done|]. by rewrite !string_app_cons, IH. Qed.

Lemma replace_app old new s t :
  replace old new (s +:+ t) = replace old new s +:+ replace old new t.
Proof.
  induction s as [|c s IH]; [done|]. rewrite string_app_cons. cbn [replace].
  rewrite IH. destruct (Ascii.eqb c old); [|done]. by rewrite string_app_assoc.
Qed.

Lemma strip_stamp_chars s t :
  all_chars stamp_char s = true → nonempty s = true →
  t = EmptyString ∨ t = "Z" →
  strip (s +:+ t) = s +:+ t.
Proof.
  intros Hs Hne Ht. unfold strip.
  assert (Hl : lstrip_with isspace (s +:+ t) = s +:+ t).
  { destruct s as [|c s]; [done|]. rewrite string_app_cons. cbn [lstrip_with].
    simpl in Hs. apply andb_prop in Hs as [Hc _].
    by apply stamp_char_plain in Hc as [-> _]. }
  rewrite Hl. clear Hl Hne. induction s as [|c s IH].
  - by destruct Ht as [-> | ->].
  - rewrite string_app_cons. cbn [rstrip_with].
    simpl in Hs. apply andb_prop in Hs as [Hc Hs]. rewrite IH by done.
    apply stamp_char_plain in Hc as [-> _]. by destruct (s +:+ t).
Qed.

Lemma replace_stamp_chars new s :
  all_chars stamp_char s = true → replace "Z" new s = s.
Proof.
  induction s as [|c s IH]; [done|]. simpl. intros [Hc Hs]%andb_prop.
  apply stamp_char_plain in Hc as (_ & -> & _). by rewrite IH.
Qed.

Lemma split_tz_stamp_chars s :
  all_chars (λ c, negb (Ascii.eqb c "+") && negb (Ascii.eqb c "-")) s = true →
  split_tz s = (s, None)
  ∧ ∀ z, split_tz (s +:+ "+" +:+ z) = (s, Some (false, z)).
Proof.
  induction s as [|c s IH]; [done|]. cbn [all_chars].
  intros [[Hp Hm]%andb_prop Hs]%andb_prop.
  apply negb_true_iff in Hp, Hm.
  destruct (IH Hs) as [IH0 IHz]. split.
  - cbn [split_tz]. by rewrite Hp, Hm, IH0.
  - intros z. rewrite string_app_cons. cbn [split_tz]. by rewrite Hp, Hm, IHz.
Qed.

Lemma parse_clock hh mm ss :
  (0 <= hh <= 99)%Z → (0 <= mm <= 99)%Z → (0 <= ss <= 99)%Z →
  parse_hh_mm_ss_ff (clock hh mm ss) = Some (hh, mm, ss, 0%Z).
Proof.
  intros Hh Hm Hs. unfold clock, parse_hh_mm_ss_ff. rewrite !zfill_2 by done.
  rewrite parse_digits_2 by done. cbn [mbind option_bind].
  change (nonempty (":" +:+ ?s)) with true. cbn [negb].
  change (expect ":" (":" +:+ ?s)) with (Some s). cbn [mbind option_bind].
  rewrite parse_digits_2 by done. cbn [mbind option_bind].
  change (nonempty (":" +:+ ?s)) with true. cbn [negb].
  change (expect ":" (":" +:+ ?s)) with (Some s). cbn [mbind option_bind].
  change (digits2 ss) with (digits2 ss +:+ "").
  rewrite parse_digits_2 by done. reflexivity.
Qed.

Lemma all_chars_clock hh mm ss :
  (0 <= hh <= 99)%Z → (0 <= mm <= 99)%Z → (0 <= ss <= 99)%Z →
  all_chars (λ c, stamp_char c && negb (Ascii.eqb c "+") && negb (Ascii.eqb c "-"))
            (clock hh mm ss) = true.
Proof.
  intros Hh Hm Hs. unfold clock. rewrite !zfill_2 by done.
  assert (Hd : ∀ n, (0 <= n <= 99)%Z →
            all_chars (λ c, stamp_char c && negb (Ascii.eqb c "+")
                            && negb (Ascii.eqb c "-")) (digits2 n) = true).
  { intros n Hn. unfold digits2. simpl.
    assert (Hk : ∀ k, (0 <= k <= 9)%Z →
              stamp_char (digit_char k) && negb (Ascii.eqb (digit_char k) "+")
              && negb (Ascii.eqb (digit_char k) "-") = true)
      by (intros k Hk; by_digit k Hk).
    by rewrite !Hk by (clear -Hn; div_lia). }
  repeat apply all_chars_app; by auto.
Qed.

Lemma parse_isoformat_time_clock hh mm ss zone :
  (0 <= hh <= 99)%Z → (0 <= mm <= 99)%Z → (0 <= ss <= 99)%Z →
  zone = EmptyString ∨ zone = "+00:00" →
  ∃ tz, parse_isoformat_time (clock hh mm ss +:+ zone) = Some (hh, mm, ss, 0%Z, tz).
Proof.
  intros Hh Hm Hs Hzone. unfold parse_isoformat_time.
  pose proof (all_chars_clock hh mm ss Hh Hm Hs) as Hc.
  apply (all_chars_impl _ (λ c, negb (Ascii.eqb c "+") && negb (Ascii.eqb c "-")))
    in Hc; [|by intros c [[_ ->]%andb_prop ->]%andb_prop].
  destruct (split_tz_stamp_chars _ Hc) as [Hnone Hsome].
  destruct Hzone as [-> | ->].
  - replace (clock hh mm ss +:+ "") with (clock hh mm ss)
      by (clear; induction (clock hh mm ss) as [|c s IH];
          [done|by rewrite string_app_cons, <- IH]).
    rewrite Hnone, parse_clock by done. by eexists.
  - change "+00:00" with ("+" +:+ "00:00").
    rewrite Hsome, parse_clock by done. by eexists.
Qed.

Lemma fromisoformat_stamp d hh mm ss zone :
  valid_date d = true →
  (0 <= hh <= 23)%Z → (0 <= mm <= 59)%Z → (0 <= ss <= 59)%Z →
  zone = EmptyString ∨ zone = "+00:00" →
  ∃ dt, fromisoformat (isoformat d +:+ "T" +:+ clock hh mm ss +:+ zone) = Return dt
        ∧ dt_date dt = d.
Proof.
  intros Hv Hh Hm Hs Hzone. rewrite isoformat_digits by done.
  pose proof (valid_date_bounds _ Hv) as (Hy & Hmo & Hd).
  destruct (parse_isoformat_time_clock hh mm ss zone) as [tz Htime]; [lia..|done|].
  rewrite !string_app_assoc. unfold fromisoformat.
  rewrite parse_digits_4 by lia. simpl.
  change ("" +:+ ?s) with s.
  rewrite parse_digits_2 by lia. simpl.
  change ("" +:+ ?s) with s.
  rewrite parse_digits_2 by lia. simpl.
  change ("" +:+ ?s) with s.
  rewrite Htime. simpl.
  rewrite new_date_of_valid by done. simpl.
  assert (((hh <? 24) && (mm <? 60) && (ss <? 60))%Z = true) as ->.
  { repeat (apply andb_true_intro; split); lia. }
  by eexists.
Qed.

Lemma all_chars_stamp d hh mm ss :
  valid_date d = true →
  (0 <= hh <= 99)%Z → (0 <= mm <= 99)%Z → (0 <= ss <= 99)%Z →
  all_chars stamp_char (isoformat d +:+ "T" +:+ clock hh mm ss) = true.
Proof.
  intros Hv Hh Hm Hs. apply all_chars_app; [|apply all_chars_app; [done|]].
  - eapply all_chars_impl; [exact iso_char_stamp_char|by apply all_chars_isoformat].
  - eapply all_chars_impl; [|by apply all_chars_clock].
    by intros c [[-> _]%andb_prop _]%andb_prop.
Qed.

(** X18. Timestamps: for every date of the calendar and every time of day,
    the text [YYYY-MM-DDTHH:MM:SS] parses to the date, and so does the same
    text with the UTC marker [Z] at its end, which [parse] rewrites to
    [+00:00] before the ISO reading. *)
Theorem timestamps_parse_to_their_date d hh mm ss :
  valid_date d = true →
  (0 <= hh <= 23)%Z → (0 <= mm <= 59)%Z → (0 <= ss <= 59)%Z →
  DateParser.parse (Some (isoformat d +:+ "T" +:+ clock hh mm ss)) = Return (Some d)
  ∧ DateParser.parse (Some (isoformat d +:+ "T" +:+ clock hh mm ss +:+ "Z"))
    = Return (Some d).
Proof.
  intros Hv Hh Hm Hs.
  pose proof (all_chars_stamp d hh mm ss Hv ltac:(lia) ltac:(lia) ltac:(lia)) as Hc.
  assert (Hne : nonempty (isoformat d +:+ "T" +:+ clock hh mm ss) = true)
    by (rewrite isoformat_digits by done; reflexivity).
  assert (Hassoc : ∀ z, isoformat d +:+ "T" +:+ clock hh mm ss +:+ z
                        = (isoformat d +:+ "T" +:+ clock hh mm ss) +:+ z)
    by (intros z; by rewrite !string_app_assoc).
  assert (Hnil : ∀ s, s +:+ "" = s)
    by (intros s; induction s as [|c s IH]; [done|by rewrite string_app_cons, IH]).
  split.
  - destruct (fromisoformat_stamp d hh mm ss "" Hv Hh Hm Hs) as (dt & Hdt & Hdate);
      [by left|].
    rewrite Hnil in Hdt. rewrite parse_Some.
    pose proof (strip_stamp_chars _ "" Hc Hne (or_introl eq_refl)) as Hstrip.
    rewrite Hnil in Hstrip.
    by rewrite Hstrip, Hne, replace_stamp_chars, Hdt, Hdate.
  - destruct (fromisoformat_stamp d hh mm ss "+00:00" Hv Hh Hm Hs) as (dt & Hdt & Hdate);
      [by right|].
    rewrite parse_Some, Hassoc.
    rewrite (strip_stamp_chars _ "Z" Hc Hne (or_intror eq_refl)).
    assert (nonempty ((isoformat d +:+ "T" +:+ clock hh mm ss) +:+ "Z") = true) as ->
      by (rewrite isoformat_digits by done; reflexivity).
    rewrite replace_app, replace_stamp_chars by done.
    change (replace "Z" "+00:00" "Z") with "+00:00".
    by rewrite <- Hassoc, Hdt, Hdate.
Qed.

Lemma timestamps_parse_to_their_date_witness :
  DateParser.parse (Some "2021-03-01T09:30:00Z") = Return (Some (mk_date 2021 3 1)).
Proof.
  apply (proj2 (timestamps_parse_to_their_date (mk_date 2021 3 1) 9 30 0
                  eq_refl ltac:(lia) ltac:(lia) ltac:(lia))).
Defined.

(* ===================================================================== *)
(** * Dates with a month name *)
(* ===================================================================== *)

Lemma strip_plain_chars s : all_chars plain_char s = true → strip s = s.
Proof.
  intros Hs. unfold strip.
  assert (Hl : lstrip_with isspace s = s).
  { destruct s as [|c s]; [done|]. cbn [lstrip_with all_chars] in *.
    apply andb_prop in Hs as [[Hc _]%andb_prop _].
    apply negb_true_iff in Hc. by rewrite Hc. }
  rewrite Hl. clear Hl. induction s as [|c s IH]; [done|].
  cbn [rstrip_with all_chars] in *. apply andb_prop in Hs as [[Hc _]%andb_prop Hs].
  apply negb_true_iff in Hc. rewrite IH, Hc by done. by destruct s.
Qed.

Lemma replace_plain_chars new s : all_chars plain_char s = true → replace "Z" new s = s.
Proof.
  induction s as [|c s IH]; [done|]. cbn [replace all_chars].
  intros [[_ Hc]%andb_prop Hs]%andb_prop.
  apply negb_true_iff in Hc. by rewrite Hc, IH.
Qed.

Lemma plain_char_digit_char k : (0 <= k <= 9)%Z → plain_char (digit_char k) = true.
Proof. intros H. by_digit k H. Qed.

Lemma plain_digits2 n : (0 <= n <= 99)%Z → all_chars plain_char (digits2 n) = true.
Proof.
  intros Hn. unfold digits2. cbn [all_chars].
  by rewrite !plain_char_digit_char by (clear -Hn; div_lia).
Qed.

Lemma plain_digits4 y : (0 <= y <= 9999)%Z → all_chars plain_char (digits4 y) = true.
Proof.
  intros Hy. unfold digits4, digits2. cbn [all_chars].
  by rewrite !plain_char_digit_char by (clear -Hy; div_lia).
Qed.

Lemma month_cases (m : Z) (P : Z → Prop) :
  (1 <= m <= 12)%Z → Forall P (seqZ 1 12) → P m.
Proof. intros Hm H. rewrite Forall_forall in H. apply H, elem_of_seqZ. lia. Qed.

Lemma plain_abbr m : (1 <= m <= 12)%Z → all_chars plain_char (abbr m) = true.
Proof.
  intros Hm. apply (month_cases m (λ m, all_chars plain_char (abbr m) = true) Hm).
  vm_compute seqZ. repeat (constructor; [vm_compute; reflexivity|]). constructor.
Qed.

Lemma nonempty_digits2 n rest : nonempty (digits2 n +:+ rest) = true.
Proof. reflexivity. Qed.

Lemma day_step_dash b k rest :
  (1 <= b <= 31)%Z →
  group_step "d" day_regex (literal_step "-" k) (digits2 b +:+ "-" +:+ rest)
  = map (with_group "d" (digits2 b)) (k rest).
Proof.
  intros Hb. rewrite <- (app_nil_r (map _ _)).
  assert (H : Forall (λ b,
      group_step "d" day_regex (literal_step "-" k) (digits2 b +:+ "-" +:+ rest)
      = map (with_group "d" (digits2 b)) (k rest) ++ [])
      (seqZ 1 31)).
  { vm_compute seqZ. repeat (constructor; [vm_compute; reflexivity|]). constructor. }
  by_cases H.
Qed.

Lemma abbr_step m k rest :
  (1 <= m <= 12)%Z →
  group_step "b" abbr_regex (literal_step "-" k) (abbr m +:+ "-" +:+ rest)
  = map (with_group "b" (abbr m)) (k rest).
Proof.
  intros Hm. rewrite <- (app_nil_r (map _ _)).
  assert (H : Forall (λ m,
      group_step "b" abbr_regex (literal_step "-" k) (abbr m +:+ "-" +:+ rest)
      = map (with_group "b" (abbr m)) (k rest) ++ [])
      (seqZ 1 12)).
  { vm_compute seqZ. repeat (constructor; [vm_compute; reflexivity|]). constructor. }
  by_cases H.
Qed.

Lemma abbr_index m :
  (1 <= m <= 12)%Z → index_of (lower_str (abbr m)) month_abbr 1 = m.
Proof.
  intros Hm. apply (month_cases m (λ m, index_of (lower_str (abbr m)) month_abbr 1 = m) Hm).
  vm_compute seqZ. repeat (constructor; [vm_compute; reflexivity|]). constructor.
Qed.

(** Two digits and a hyphen are no month and no day of a slash format. *)
Lemma slash_steps_fail_on_dash b k rest :
  (1 <= b <= 31)%Z →
  group_step "m" month_regex (literal_step "/" k) (digits2 b +:+ "-" +:+ rest) = []
  ∧ group_step "d" day_regex (literal_step "/" k) (digits2 b +:+ "-" +:+ rest) = [].
Proof.
  intros Hb.
  assert (H : Forall (λ b,
      group_step "m" month_regex (literal_step "/" k) (digits2 b +:+ "-" +:+ rest) = []
      ∧ group_step "d" day_regex (literal_step "/" k) (digits2 b +:+ "-" +:+ rest) = [])
      (seqZ 1 31)).
  { vm_compute seqZ.
    repeat (constructor; [split; vm_compute; reflexivity|]). constructor. }
  by_cases H.
Qed.

Lemma year2_step n k rest :
  (0 <= n <= 99)%Z →
  group_step "y" year2_regex k (digits2 n +:+ rest)
  = map (with_group "y" (digits2 n)) (k rest).
Proof.
  intros Hn. unfold group_step, year2_regex, flat_map.
  assert (Hm : match_seq [is_digit; is_digit] (digits2 n +:+ rest)
               = Some (digits2 n, rest)).
  { unfold digits2. simpl. by rewrite !is_digit_digit_char by (clear -Hn; div_lia). }
  rewrite Hm. apply app_nil_r.
Qed.

Lemma digits4_split y :
  digits4 y = digits2 (y / 100) +:+ digits2 (y mod 100).
Proof.
  unfold digits4. unfold digits2 at 2. rewrite !string_app_cons.
  change ("" +:+ ?s) with s.
  replace (y / 100 / 10)%Z with (y / 1000)%Z by (clear; div_lia). reflexivity.
Qed.

Lemma fromisoformat_dash_fails a rest :
  (0 <= a <= 99)%Z → fromisoformat (digits2 a +:+ "-" +:+ rest) = Raise ValueError.
Proof.
  intros Ha. unfold fromisoformat.
  assert (H : parse_digits 4 0 (digits2 a +:+ "-" +:+ rest) = None).
  { unfold digits2, parse_digits. simpl.
    by rewrite !is_digit_digit_char by (clear -Ha; div_lia). }
  by rewrite H.
Qed.

Lemma strptime_Ymd_fails_on_dash a rest :
  (0 <= a <= 99)%Z →
  strptime (digits2 a +:+ "-" +:+ rest) "%Y/%m/%d" = Raise ValueError.
Proof.
  intros Ha. unfold strptime.
  change (compile "%Y/%m/%d")
    with (Some [Group "Y" year_regex; Literal "/"; Group "m" month_regex; Literal "/";
                Group "d" day_regex]).
  cbv beta iota.
  assert (Hm : match_seq [is_digit; is_digit; is_digit; is_digit]
                         (digits2 a +:+ "-" +:+ rest) = None).
  { unfold digits2. simpl. by rewrite !is_digit_digit_char by (clear -Ha; div_lia). }
  cbn [match_items flat_map year_regex]. unfold year_regex. cbn [flat_map].
  by rewrite Hm.
Qed.

Lemma strptime_mdY_fails_on_dash b rest :
  (1 <= b <= 31)%Z →
  strptime (digits2 b +:+ "-" +:+ rest) "%m/%d/%Y" = Raise ValueError.
Proof.
  intros Hb. unfold strptime.
  change (compile "%m/%d/%Y")
    with (Some [Group "m" month_regex; Literal "/"; Group "d" day_regex; Literal "/";
                Group "Y" year_regex]).
  cbv beta iota.
  change (match_items _ ?s)
    with (group_step "m" month_regex
            (literal_step "/"
               (group_step "d" day_regex
                  (literal_step "/" (group_step "Y" year_regex (match_items [])))))
            s).
  by rewrite (proj1 (slash_steps_fail_on_dash b _ rest Hb)).
Qed.

Lemma strptime_dmY_fails_on_dash b rest :
  (1 <= b <= 31)%Z →
  strptime (digits2 b +:+ "-" +:+ rest) "%d/%m/%Y" = Raise ValueError.
Proof.
  intros Hb. unfold strptime.
  change (compile "%d/%m/%Y")
    with (Some [Group "d" day_regex; Literal "/"; Group "m" month_regex; Literal "/";
                Group "Y" year_regex]).
  cbv beta iota.
  change (match_items _ ?s)
    with (group_step "d" day_regex
            (literal_step "/"
               (group_step "m" month_regex
                  (literal_step "/" (group_step "Y" year_regex (match_items [])))))
            s).
  by rewrite (proj2 (slash_steps_fail_on_dash b _ rest Hb)).
Qed.

Lemma strptime_dby b m n :
  (1 <= b <= 31)%Z → (1 <= m <= 12)%Z → (0 <= n <= 99)%Z →
  strptime (digits2 b +:+ "-" +:+ abbr m +:+ "-" +:+ digits2 n) "%d-%b-%y"
  = dd ← new_date (pivot n) m b; Return (mk_datetime dd 0 0 0 0 None).
Proof.
  intros Hb Hm Hn. unfold strptime.
  change (compile "%d-%b-%y")
    with (Some [Group "d" day_regex; Literal "-"; Group "b" abbr_regex; Literal "-";
                Group "y" year2_regex]).
  cbv beta iota.
  change (match_items _ ?s)
    with (group_step "d" day_regex
            (literal_step "-"
               (group_step "b" abbr_regex
                  (literal_step "-" (group_step "y" year2_regex (match_items [])))))
            s).
  rewrite day_step_dash, abbr_step by done.
  change (digits2 n) with (digits2 n +:+ "") at 1.
  rewrite year2_step by done.
  cbn [match_items map with_group fst snd fold_left convert_group].
  by rewrite abbr_index, !int_digits_2 by lia.
Qed.

(** The two-digit year of the format matches the first two digits of a
    four-digit year and leaves the other two. *)
Lemma strptime_dby_fails b m y :
  (1 <= b <= 31)%Z → (1 <= m <= 12)%Z → (0 <= y <= 9999)%Z →
  strptime (digits2 b +:+ "-" +:+ abbr m +:+ "-" +:+ digits4 y) "%d-%b-%y"
  = Raise ValueError.
Proof.
  intros Hb Hm Hy. unfold strptime.
  change (compile "%d-%b-%y")
    with (Some [Group "d" day_regex; Literal "-"; Group "b" abbr_regex; Literal "-";
                Group "y" year2_regex]).
  cbv beta iota.
  change (match_items _ ?s)
    with (group_step "d" day_regex
            (literal_step "-"
               (group_step "b" abbr_regex
                  (literal_step "-" (group_step "y" year2_regex (match_items [])))))
            s).
  rewrite day_step_dash, abbr_step by done.
  rewrite digits4_split, year2_step by (clear -Hy; div_lia).
  reflexivity.
Qed.

Lemma strptime_dbY b m y :
  (1 <= b <= 31)%Z → (1 <= m <= 12)%Z → (0 <= y <= 9999)%Z →
  strptime (digits2 b +:+ "-" +:+ abbr m +:+ "-" +:+ digits4 y) "%d-%b-%Y"
  = dd ← new_date y m b; Return (mk_datetime dd 0 0 0 0 None).
Proof.
  intros Hb Hm Hy. unfold strptime.
  change (compile "%d-%b-%Y")
    with (Some [Group "d" day_regex; Literal "-"; Group "b" abbr_regex; Literal "-";
                Group "Y" year_regex]).
  cbv beta iota.
  change (match_items _ ?s)
    with (group_step "d" day_regex
            (literal_step "-"
               (group_step "b" abbr_regex
                  (literal_step "-" (group_step "Y" year_regex (match_items [])))))
            s).
  rewrite day_step_dash, abbr_step by done.
  change (digits4 y) with (digits4 y +:+ "") at 1.
  rewrite year_step by done.
  cbn [match_items map with_group fst snd fold_left convert_group].
  by rewrite abbr_index, int_digits_4, !int_digits_2 by lia.
Qed.

Lemma parse_plain_text s :
  all_chars plain_char s = true → nonempty s = true →
  fromisoformat s = Raise ValueError →
  DateParser.parse (Some s) = DateParser.try_formats s DateParser.formats.
Proof.
  intros Hs Hne Hiso. rewrite parse_Some.
  by rewrite strip_plain_chars, replace_plain_chars, Hne, Hiso.
Qed.

(** The day and month of a date exist in the year that the last two digits
    of its year stand for: that year is a leap year whenever the date's is. *)
Lemma new_date_pivot d :
  valid_date d = true →
  new_date (pivot (year d mod 100)) (month d) (day d)
  = Return (mk_date (pivot (year d mod 100)) (month d) (day d)).
Proof.
  intros Hv. pose proof (valid_date_bounds _ Hv) as (Hy & Hm & Hd).
  unfold new_date.
  assert (((1 <=? pivot (year d mod 100)) && (pivot (year d mod 100) <=? 9999)
           && (1 <=? month d) && (month d <=? 12) && (1 <=? day d)
           && (day d <=? days_in_month (pivot (year d mod 100)) (month d)))%Z = true)
    as ->; [|done].
  assert (Hp : (1969 <= pivot (year d mod 100) <= 2068)%Z).
  { unfold pivot. case_match; clear -Hy H; div_lia. }
  assert (Hleap : is_leap (year d) = true → is_leap (pivot (year d mod 100)) = true).
  { unfold is_leap, pivot. clear. intros H.
    apply andb_prop in H as [H4 H100]. apply Z.eqb_eq in H4.
    apply orb_prop in H100.
    apply andb_true_intro. split.
    - apply Z.eqb_eq. case_match; clear -H4; div_lia.
    - apply orb_true_intro.
      destruct H100 as [H100%negb_true_iff%Z.eqb_neq|H400%Z.eqb_eq].
      + left. apply negb_true_iff, Z.eqb_neq. case_match; clear -H100 H; div_lia.
      + assert (year d mod 100 = 0)%Z as -> by (clear -H400; div_lia).
        by right. }
  assert (Hdays : (days_in_month (year d) (month d)
                   <= days_in_month (pivot (year d mod 100)) (month d))%Z).
  { unfold days_in_month. destruct (month d =? 2)%Z; [|lia].
    destruct (is_leap (year d)); [by rewrite Hleap|]. case_match; lia. }
  assert (Hday : (day d <= days_in_month (year d) (month d))%Z).
  { unfold valid_date in Hv. repeat (apply andb_prop in Hv as [Hv ?]). lia. }
  repeat (apply andb_true_intro; split); lia.
Qed.

Lemma pivot_own_year y : (1969 <= y <= 2068)%Z → pivot (y mod 100) = y.
Proof. intros Hy. unfold pivot. case_match; clear -Hy H; div_lia. Qed.

(** X19. Dates written with a month name, for every date of the calendar.
    The text DD-Mon-YYYY of a date parses to that date.  The text DD-Mon-YY
    with a two-digit year parses to the same day and month in the year
    2000+YY when YY is at most 68 and 1900+YY otherwise, so it parses to
    the date itself exactly for the years 1969 to 2068. *)
Theorem month_name_dates d :
  valid_date d = true →
  let long := zfill 2 (day d) +:+ "-" +:+ abbr (month d) +:+ "-" +:+ zfill 4 (year d) in
  let short :=
    zfill 2 (day d) +:+ "-" +:+ abbr (month d) +:+ "-" +:+ zfill 2 (year d mod 100) in
  DateParser.parse (Some long) = Return (Some d)
  ∧ DateParser.parse (Some short)
    = Return (Some (mk_date (pivot (year d mod 100)) (month d) (day d)))
  ∧ (DateParser.parse (Some short) = Return (Some d) ↔ (1969 <= year d <= 2068)%Z).
Proof.
  intros Hv. pose proof (valid_date_bounds _ Hv) as (Hy & Hm & Hd).
  assert (Hyy : (0 <= year d mod 100 <= 99)%Z) by (clear; div_lia).
  cbn zeta. rewrite zfill_4, !zfill_2 by lia.
  assert (Hdash : all_chars plain_char "-" = true) by reflexivity.
  pose proof (plain_digits4 (year d) ltac:(lia)) as Hcy.
  pose proof (plain_digits2 (year d mod 100) Hyy) as Hcyy.
  pose proof (plain_abbr (month d) Hm) as Hcm.
  pose proof (plain_digits2 (day d) ltac:(lia)) as Hcd.
  assert (Hshort :
    DateParser.parse
      (Some (digits2 (day d) +:+ "-" +:+ abbr (month d) +:+ "-" +:+ digits2 (year d mod 100)))
    = Return (Some (mk_date (pivot (year d mod 100)) (month d) (day d)))).
  { rewrite parse_plain_text;
      [|by repeat apply all_chars_app|done|by apply fromisoformat_dash_fails; lia].
    unfold DateParser.formats. cbn [DateParser.try_formats].
    rewrite strptime_Ymd_fails_on_dash by lia.
    cbn [mbind result_bind try_except_ValueError].
    rewrite strptime_mdY_fails_on_dash by lia.
    cbn [mbind result_bind try_except_ValueError].
    rewrite strptime_dmY_fails_on_dash by lia.
    cbn [mbind result_bind try_except_ValueError].
    rewrite strptime_dby by lia. by rewrite new_date_pivot. }
  split; [|split; [done|]].
  - rewrite parse_plain_text;
      [|by repeat apply all_chars_app|done|by apply fromisoformat_dash_fails; lia].
    unfold DateParser.formats. cbn [DateParser.try_formats].
    rewrite strptime_Ymd_fails_on_dash by lia.
    cbn [mbind result_bind try_except_ValueError].
    rewrite strptime_mdY_fails_on_dash by lia.
    cbn [mbind result_bind try_except_ValueError].
    rewrite strptime_dmY_fails_on_dash by lia.
    cbn [mbind result_bind try_except_ValueError].
    rewrite strptime_dby_fails by lia.
    cbn [mbind result_bind try_except_ValueError].
    rewrite strptime_dbY by lia. by rewrite new_date_of_valid.
  - rewrite Hshort. split.
    + intros [= H]. apply (f_equal year) in H. simpl in H.
      unfold pivot in H.
      destruct (Z.leb_spec (year d mod 100) 68) as [Hle|Hle]; clear -H Hle Hy; div_lia.
    + intros Hwin. rewrite pivot_own_year by done. by destruct d.
Qed.

Lemma month_name_dates_witness :
  DateParser.parse (Some "20-May-1987") = Return (Some (mk_date 1987 5 20))
  ∧ DateParser.parse (Some "20-May-87") = Return (Some (mk_date 1987 5 20))
  ∧ DateParser.parse (Some "04-Jul-68") = Return (Some (mk_date 2068 7 4)).
Proof.
  split; [|split].
  - apply (proj1 (month_name_dates (mk_date 1987 5 20) eq_refl)).
  - apply (proj1 (proj2 (month_name_dates (mk_date 1987 5 20) eq_refl))).
  - apply (proj1 (proj2 (month_name_dates (mk_date 1968 7 4) eq_refl))).
Defined.
